(** * ShotgunLibrary: catalog resolver and filter cascade

    A shallow embedding of the version-resolution code of
    [shotgun_data_manager.py] (class [ShotgunDataManager]) and of the
    filter cascade of [ui.py] (revision 26.01.23PM), with the properties
    the specification states about them.

    Conventions.
    - A Python [str] is a [string] of UTF-8 bytes.  Every character the
      code searches for is ASCII, so searching, splitting and prefix tests
      on bytes agree with the same operations on code points, and byte
      order agrees with code-point order.
    - The white space [str.strip] removes and the decimal digits a
      pattern and [int] read are those of Unicode, as CPython 3.11 has
      them (Unicode 14.0), each character being the bytes that encode it;
      the explicit classes of the patterns, like [a-zA-Z0-9_-], are ASCII.
    - [str.lower] is modelled on the letters A to Z only.
    - A loosely typed Python value is a [pyval].
    - An external call that may raise returns an [option]: [None] stands
      for the raised exception. *)

From Stdlib Require Import String Ascii List ZArith NArith Bool Arith Lia.
From Stdlib Require Import Sorted Permutation.
Import ListNotations.
Open Scope string_scope.
Open Scope list_scope.

(** ** Python string operations *)

Module PyStr.

(** The explicit classes [0-9], [A-Z] and [a-zA-Z] of a pattern *)
Definition is_digit (c : ascii) : bool :=
  let n := nat_of_ascii c in ((48 <=? n) && (n <=? 57))%nat.

Definition is_upper (c : ascii) : bool :=
  let n := nat_of_ascii c in ((65 <=? n) && (n <=? 90))%nat.

Definition is_alpha (c : ascii) : bool :=
  let n := nat_of_ascii c in
  (((65 <=? n) && (n <=? 90)) || ((97 <=? n) && (n <=? 122)))%nat.

Definition is_empty (s : string) : bool :=
  match s with EmptyString => true | String _ _ => false end.

(** [s.lstrip(...)], [s.rstrip(...)] and [s.strip(...)] for a set of
    characters given as a predicate. *)
Fixpoint lstrip_by (p : ascii -> bool) (s : string) : string :=
  match s with
  | EmptyString => EmptyString
  | String c r => if p c then lstrip_by p r else s
  end.

Fixpoint rstrip_by (p : ascii -> bool) (s : string) : string :=
  match s with
  | EmptyString => EmptyString
  | String c r =>
      let r' := rstrip_by p r in
      if p c && is_empty r' then EmptyString else String c r'
  end.

Definition strip_by (p : ascii -> bool) (s : string) : string :=
  rstrip_by p (lstrip_by p s).

(** *** Characters beyond ASCII

    A character is the run of bytes that encodes its code point. *)
Definition utf8_encode (cp : N) : string :=
  let byte (n : N) := ascii_of_N n in
  let cont (n : N) := byte (128 + n mod 64)%N in
  if (cp <? 128)%N then String (byte cp) ""
  else if (cp <? 2048)%N then
    String (byte (192 + cp / 64)%N) (String (cont cp) "")
  else if (cp <? 65536)%N then
    String (byte (224 + cp / 4096)%N)
           (String (cont (cp / 64)%N) (String (cont cp) ""))
  else
    String (byte (240 + cp / 262144)%N)
           (String (cont (cp / 4096)%N)
                   (String (cont (cp / 64)%N) (String (cont cp) ""))).

(** The characters that [str.isspace] accepts and [str.strip] removes,
    by code point. *)
Definition space_code_points : list N :=
  [0x9; 0xA; 0xB; 0xC; 0xD; 0x1C; 0x1D; 0x1E; 0x1F; 0x20; 0x85; 0xA0;
   0x1680; 0x2000; 0x2001; 0x2002; 0x2003; 0x2004; 0x2005; 0x2006;
   0x2007; 0x2008; 0x2009; 0x200A; 0x2028; 0x2029; 0x202F; 0x205F;
   0x3000]%N.

Definition spaces : list (string * unit) :=
  Eval vm_compute in map (fun cp => (utf8_encode cp, tt)) space_code_points.

(** The decimal digits (category Nd), which the class [\d] of a [str]
    pattern matches and [int] reads: the code point of the digit zero
    of every script, followed in each by the digits one to nine. *)
Definition decimal_zeros : list N :=
  [0x30; 0x660; 0x6F0; 0x7C0; 0x966; 0x9E6; 0xA66; 0xAE6; 0xB66; 0xBE6;
   0xC66; 0xCE6; 0xD66; 0xDE6; 0xE50; 0xED0; 0xF20; 0x1040; 0x1090;
   0x17E0; 0x1810; 0x1946; 0x19D0; 0x1A80; 0x1A90; 0x1B50; 0x1BB0;
   0x1C40; 0x1C50; 0xA620; 0xA8D0; 0xA900; 0xA9D0; 0xA9F0; 0xAA50;
   0xABF0; 0xFF10; 0x104A0; 0x10D30; 0x11066; 0x110F0; 0x11136;
   0x111D0; 0x112F0; 0x11450; 0x114D0; 0x11650; 0x116C0; 0x11730;
   0x118E0; 0x11950; 0x11C50; 0x11D50; 0x11DA0; 0x16A60; 0x16AC0;
   0x16B50; 0x1D7CE; 0x1D7D8; 0x1D7E2; 0x1D7EC; 0x1D7F6; 0x1E140;
   0x1E2F0; 0x1E950; 0x1FBF0]%N.

Definition decimal_digits : list (string * N) :=
  Eval vm_compute in
    flat_map (fun z => map (fun k => (utf8_encode (z + k), k))
                           [0; 1; 2; 3; 4; 5; 6; 7; 8; 9]%N)
             decimal_zeros.

(** [s] without the prefix [p], when it starts with it *)
Fixpoint strip_prefix (p s : string) : option string :=
  match p with
  | EmptyString => Some s
  | String a p' =>
      match s with
      | EmptyString => None
      | String b s' => if (a =? b)%char then strip_prefix p' s' else None
      end
  end.

(** The character of the table that [s] starts with, its datum, and
    the rest of [s] *)
Fixpoint char_at {V : Type} (table : list (string * V)) (s : string)
  : option (string * V * string) :=
  match table with
  | [] => None
  | (ch, v) :: t =>
      match strip_prefix ch s with
      | Some r => Some (ch, v, r)
      | None => char_at t s
      end
  end.

Definition space_at (s : string) : option (string * unit * string) :=
  char_at spaces s.
Arguments space_at : simpl never.

(** The decimal digit [s] starts with, its value, and the rest *)
Definition decimal_at (s : string) : option (string * N * string) :=
  char_at decimal_digits s.
Arguments decimal_at : simpl never.

(** [s.lstrip()]; a character takes at least one byte, so the length
    of [s] bounds the number of characters removed. *)
Fixpoint lstrip_fuel (n : nat) (s : string) : string :=
  match n with
  | O => s
  | S k =>
      match space_at s with
      | Some (_, _, r) => lstrip_fuel k r
      | None => s
      end
  end.

Definition lstrip (s : string) : string := lstrip_fuel (String.length s) s.

(** [s.rstrip()]: [s] up to the place from which only white space
    follows *)
Fixpoint rstrip (s : string) : string :=
  match s with
  | EmptyString => EmptyString
  | String c r => if is_empty (lstrip s) then EmptyString else String c (rstrip r)
  end.

(** [s.strip()] *)
Definition strip (s : string) : string := rstrip (lstrip s).

(** the character set of the second strip of a path: single quote,
    double quote and blank *)
Definition is_quote_or_blank (c : ascii) : bool :=
  (c =? "'")%char || (c =? "034")%char || (c =? " ")%char.

Definition strip_quotes (s : string) : string := strip_by is_quote_or_blank s.

(** [s.startswith(p)] *)
Definition startswith (p s : string) : bool := String.prefix p s.
Arguments startswith : simpl never.

(** [s.endswith(p)] *)
Fixpoint endswith (p s : string) : bool :=
  if (s =? p)%string then true
  else match s with
       | EmptyString => false
       | String _ r => endswith p r
       end.

(** [c in s] for a single character *)
Fixpoint has_char (c : ascii) (s : string) : bool :=
  match s with
  | EmptyString => false
  | String d r => (d =? c)%char || has_char c r
  end.

(** [t in s] for a string *)
Fixpoint contains (t s : string) : bool :=
  if startswith t s then true
  else match s with
       | EmptyString => false
       | String _ r => contains t r
       end.

(** [s.split(c)] for a one-character separator: never empty *)
Fixpoint split (c : ascii) (s : string) : list string :=
  match s with
  | EmptyString => [EmptyString]
  | String d r =>
      if (d =? c)%char then EmptyString :: split c r
      else match split c r with
           | [] => [String d EmptyString]
           | h :: t => String d h :: t
           end
  end.

Definition lower_char (c : ascii) : ascii :=
  if is_upper c then ascii_of_nat (nat_of_ascii c + 32) else c.

(** [s.lower()] on the ASCII letters.  The tokens the code looks for
    after lowering contain neither "k" nor a letter "i" followed by a
    combining mark, the only ASCII letters a non-ASCII character lowers
    to, so the searches below see what Python sees. *)
Fixpoint lower (s : string) : string :=
  match s with
  | EmptyString => EmptyString
  | String c r => String (lower_char c) (lower r)
  end.

(** A match of [\d*] at the start of [s]: the digits it takes and the
    text after them; the length of [s] bounds the number of digits. *)
Fixpoint scan_digits (n : nat) (s : string) : string * string :=
  match n with
  | O => (EmptyString, s)
  | S k =>
      match decimal_at s with
      | Some (ch, _, r) =>
          let '(d, rest) := scan_digits k r in ((ch ++ d)%string, rest)
      | None => (EmptyString, s)
      end
  end.

Definition take_digits (s : string) : string :=
  fst (scan_digits (String.length s) s).

Definition drop_digits (s : string) : string :=
  snd (scan_digits (String.length s) s).

(** The digits of a match of [v\d+] at the start of [s], empty when
    there is no match, and the text after the match. *)
Definition digits_after_v (s : string) : string :=
  match s with
  | EmptyString => EmptyString
  | String c r => if (c =? "v")%char then take_digits r else EmptyString
  end.

Definition after_version (s : string) : string :=
  match s with
  | EmptyString => EmptyString
  | String _ r => drop_digits r
  end.

(** [int(d)] for a string of decimal digits.  (From version 3.11 on,
    [int] refuses a string of more than 4300 digits.) *)
Fixpoint int_acc (n : nat) (acc : N) (s : string) : N :=
  match n with
  | O => acc
  | S k =>
      match decimal_at s with
      | Some (_, v, r) => int_acc k (10 * acc + v)%N r
      | None => acc
      end
  end.

Definition int_of_digits (s : string) : N := int_acc (String.length s) 0 s.

End PyStr.

(** ** Python values *)

Local Set Warnings "-register-all".

(** The values a path field, or a parsed literal, can hold. *)
Inductive pyval : Type :=
| PNone
| PBool (b : bool)
| PInt (z : Z)
| PStr (s : string)
| PList (l : list pyval)
| PTuple (l : list pyval)
| PDict (l : list (pyval * pyval)).

(** The size of the part of a value that path normalization walks
    through: strings, lists and tuples. *)
Fixpoint pymeasure (v : pyval) : nat :=
  match v with
  | PStr s => S (String.length s)
  | PList l => S (list_sum (map pymeasure l))
  | PTuple l => S (list_sum (map pymeasure l))
  | _ => 0
  end.

(** [for x in l: acc.extend(f(x))] where [f] may run out of fuel *)
Fixpoint extend_all {A B : Type} (f : A -> option (list B)) (l : list A)
  : option (list B) :=
  match l with
  | [] => Some []
  | x :: r =>
      match f x, extend_all f r with
      | Some a, Some b => Some (a ++ b)
      | _, _ => None
      end
  end.

(** ** Records of the tracked-version store *)

(** The entity a version belongs to: the dict under the key [entity]. *)
Record entity_ref : Type := mkEntity {
  ent_type : string;
  ent_id : Z;
  ent_name : string
}.

(** A Version record, the dict the store returns and the code updates in
    place.  [G] is the shape of the path field: a raw [pyval] as the store
    delivers it, a list of strings once the panel has flattened it.  The
    keys the code below never reads ([content], [user], [description])
    are left out; [category] and [asset_name] are [None] until the code
    sets them.  Every record carries a code and an entity, as the
    records of a project do. *)
Record version (G : Type) : Type := mkVersion {
  sg_id : Z;
  code : string;
  entity : entity_ref;
  sg_path_to_geometry : G;
  image : option string;
  created_at : Z;
  category : option string;
  asset_name : option string
}.
Arguments mkVersion {G}.
Arguments sg_id {G}.
Arguments code {G}.
Arguments entity {G}.
Arguments sg_path_to_geometry {G}.
Arguments image {G}.
Arguments created_at {G}.
Arguments category {G}.
Arguments asset_name {G}.

Definition set_geometry {G H : Type} (g : H) (v : version G) : version H :=
  mkVersion (sg_id v) (code v) (entity v) g (image v) (created_at v)
            (category v) (asset_name v).

Definition set_category {G : Type} (c : option string) (v : version G) : version G :=
  mkVersion (sg_id v) (code v) (entity v) (sg_path_to_geometry v) (image v)
            (created_at v) c (asset_name v).

Definition set_image {G : Type} (i : option string) (v : version G) : version G :=
  mkVersion (sg_id v) (code v) (entity v) (sg_path_to_geometry v) i
            (created_at v) (category v) (asset_name v).

Definition set_asset_name {G : Type} (a : option string) (v : version G) : version G :=
  mkVersion (sg_id v) (code v) (entity v) (sg_path_to_geometry v) (image v)
            (created_at v) (category v) a.

Record project : Type := mkProject {
  proj_name : string;
  proj_id : Z;
  proj_code : string
}.

Record sequence : Type := mkSequence { seq_id : Z }.

(** The filter expressions the code sends to the store. *)
Inductive sg_filter : Type :=
| ProjectIs (pid : Z)
| PathIsNotNone
| EntityTypeIs (t : string)
| EntityIs (t : string) (i : Z)
| SequenceIs (s : sequence)
| CodeContains (s : string)
| AndGroup (conditions : list sg_filter).

(** The session handle [sg].  Each query is an oracle; [None] is a raised
    exception.
    - [find_projects]: [find] on Project with the Active filter;
    - [find_one_sequence pid code]: [find_one] on Sequence;
    - [find_versions filters ordered]: [find] on Version, [ordered] when
      the call asks for descending creation time. *)
Record shotgun : Type := mkShotgun {
  find_projects : option (list project);
  find_one_sequence : Z -> string -> option (option sequence);
  find_versions : list sg_filter -> bool -> option (list (version pyval))
}.

(** The state of a [ShotgunDataManager]; [sg] is [None] when the login
    failed. *)
Record ShotgunDataManager : Type := mkDataManager {
  sg : option shotgun;
  HAL_PROJECT_SGID : Z;
  HAL_PROJECT : string
}.

(** ** shotgun_data_manager.py *)

Module DataManager.
Import PyStr.

(** [get_active_projects] *)
Definition get_active_projects (dm : ShotgunDataManager) : list project :=
  match sg dm with
  | None => []
  | Some h =>
      match find_projects h with
      | Some l => l
      | None => []
      end
  end.

Fixpoint drop (n : nat) (s : string) : string :=
  match n, s with
  | S k, String _ r => drop k r
  | _, _ => s
  end.

Fixpoint take_not_percent (s : string) : string :=
  match s with
  | EmptyString => EmptyString
  | String c r =>
      if (c =? "%")%char then EmptyString else String c (take_not_percent r)
  end.

(** The pattern [filename%3D%22([^%]+?)%22] tried at the start of [s]:
    the group cannot hold a percent sign, so it is the whole run up to
    the next one. *)
Definition filename_at (s : string) : option string :=
  if startswith "filename%3D%22" s then
    let rest := drop 14 s in
    let run := take_not_percent rest in
    if negb (is_empty run) && startswith "%22" (drop (String.length run) rest)
    then Some run else None
  else None.

(** [re.search] of that pattern: the leftmost start that matches *)
Fixpoint search_filename (s : string) : option string :=
  match filename_at s with
  | Some g => Some g
  | None =>
      match s with
      | EmptyString => None
      | String _ r => search_filename r
      end
  end.

(** [re.sub(r'[^a-zA-Z0-9_-]', '_', s)]: one underscore per character
    replaced, so the continuation bytes of a replaced character go. *)
Fixpoint sanitize (s : string) : string :=
  match s with
  | EmptyString => EmptyString
  | String c r =>
      let n := nat_of_ascii c in
      if is_alpha c || is_digit c || (c =? "_")%char || (c =? "-")%char
      then String c (sanitize r)
      else if ((128 <=? n) && (n <? 192))%nat then sanitize r
      else String "_" (sanitize r)
  end.

(** [extract_filename_from_url] *)
Definition extract_filename_from_url (url : option string) : string :=
  match url with
  | None => "No Image"
  | Some u =>
      if is_empty u then "No Image"
      else match search_filename u with
           | Some g => sanitize (hd EmptyString (split "." g))
           | None => "Unparsable URL"
           end
  end.

(** A run of digits in the name of a thumbnail.  The only call hands
    over a name that [extract_filename_from_url] made, all ASCII, and on
    ASCII text the digits of the pattern are 0 to 9. *)
Fixpoint all_digits (s : string) : bool :=
  match s with
  | EmptyString => true
  | String c r => is_digit c && all_digits r
  end.

(** the pattern [(_t(?:_\d+)?)] matching all of [s] *)
Definition is_thumbnail_suffix (s : string) : bool :=
  (s =? "_t")%string
  || (startswith "_t_" s && negb (is_empty (drop 3 s)) && all_digits (drop 3 s)).

Fixpoint strip_thumbnail_suffix (s : string) : string :=
  match s with
  | EmptyString => EmptyString
  | String c r =>
      if is_thumbnail_suffix s then EmptyString
      else String c (strip_thumbnail_suffix r)
  end.

Fixpoint without_last (s : string) : string :=
  match s with
  | EmptyString => EmptyString
  | String c EmptyString => EmptyString
  | String c r => String c (without_last r)
  end.

Definition newline : string := String (ascii_of_nat 10) EmptyString.

(** [_clean_shotgun_thumbnail_name]: the dollar sign of the pattern
    also matches before a final newline. *)
Definition _clean_shotgun_thumbnail_name (filename : string) : string :=
  if endswith newline filename
  then (strip_thumbnail_suffix (without_last filename) ++ newline)%string
  else strip_thumbnail_suffix filename.

(** [re.search] of an alternation of plain tokens: the leftmost position
    where some token matches wins; the order of the alternatives only
    decides between tokens matching at that same position. *)
Fixpoint search_tokens (tokens : list string) (s : string) : option string :=
  match find (fun t => startswith t s) tokens with
  | Some t => Some t
  | None =>
      match s with
      | EmptyString => None
      | String _ r => search_tokens tokens r
      end
  end.

Definition asset_tokens : list string :=
  ["mdl"; "shd"; "rig"; "txt"; "cgfx-setup"; "cncpt"; "assy"].

Definition shot_tokens : list string :=
  ["anim"; "cgfx"; "comp"; "layout"; "lgt"; "mm"; "matp"; "paint"; "roto"; "assy"].

(** [_categorize_version] *)
Definition _categorize_version {G : Type} (version_data : version G) : version G :=
  let entity_type := ent_type (entity version_data) in
  let code := lower (code version_data) in
  if (entity_type =? "Asset")%string then
    set_category (Some (match search_tokens asset_tokens code with
                        | Some t => t
                        | None => "asset_unknown"
                        end)) version_data
  else if (entity_type =? "Shot")%string then
    set_category (Some (match search_tokens shot_tokens code with
                        | Some t => t
                        | None => "shot_unknown"
                        end)) version_data
  else version_data.

(** [re.search(r'_v(\d+)', s)]: the digits of the leftmost match *)
Fixpoint search_version (s : string) : option string :=
  match s with
  | EmptyString => None
  | String c r =>
      if (c =? "_")%char && negb (is_empty (digits_after_v r))
      then Some (digits_after_v r)
      else search_version r
  end.

(** [_get_version_number] *)
Definition _get_version_number (version_code : string) : N :=
  match search_version version_code with
  | Some d => int_of_digits d
  | None => 0%N
  end.

(** [_get_category_abbreviation] *)
Definition _get_category_abbreviation (category_name : string) : string :=
  let k := lower category_name in
  if (k =? "characters")%string then "chr"
  else if (k =? "environments")%string then "env"
  else if (k =? "props")%string then "prp"
  else if (k =? "vehicles")%string then "veh"
  else if (k =? "cgfx")%string then "cgfx"
  else "".

(** The key of the [latest] dict: entity type, entity id, category. *)
Definition vkey : Type := (string * Z * option string)%type.

Definition option_string_eqb (a b : option string) : bool :=
  match a, b with
  | Some x, Some y => (x =? y)%string
  | None, None => true
  | _, _ => false
  end.

Definition vkey_eqb (a b : vkey) : bool :=
  let '(t1, i1, c1) := a in
  let '(t2, i2, c2) := b in
  (t1 =? t2)%string && (i1 =? i2)%Z && option_string_eqb c1 c2.

Definition version_key {G : Type} (v : version G) : vkey :=
  (ent_type (entity v), ent_id (entity v), category v).

(** A Python dict keeps its keys in the order of their first insertion;
    assigning to a key that is present keeps its place. *)
Definition pydict (V : Type) : Type := list (vkey * V).

Fixpoint dict_get {V : Type} (k : vkey) (d : pydict V) : option V :=
  match d with
  | [] => None
  | (k', v) :: r => if vkey_eqb k k' then Some v else dict_get k r
  end.

Fixpoint dict_set {V : Type} (k : vkey) (v : V) (d : pydict V) : pydict V :=
  match d with
  | [] => [(k, v)]
  | (k', v') :: r =>
      if vkey_eqb k k' then (k', v) :: r else (k', v') :: dict_set k v r
  end.

Definition dict_values {V : Type} (d : pydict V) : list V := map snd d.

(** One turn of the loop over [versions] that fills [latest]. *)
Definition latest_step {G : Type} (latest : pydict (version G)) (v0 : version G)
  : pydict (version G) :=
  let v := _categorize_version v0 in
  let key := version_key v in
  let curr := _get_version_number (code v) in
  let exist := _get_version_number
                 (match dict_get key latest with
                  | Some e => code e
                  | None => ""
                  end) in
  match dict_get key latest with
  | None => dict_set key v latest
  | Some _ => if (exist <? curr)%N then dict_set key v latest else latest
  end.

(** The whole loop, and [list(latest.values())]. *)
Definition select_latest {G : Type} (versions : list (version G)) : list (version G) :=
  dict_values (fold_left latest_step versions []).

(** The last loop of [find_files]: the image field becomes a name. *)
Definition name_image {G : Type} (v : version G) : version G :=
  set_image (Some (_clean_shotgun_thumbnail_name
                     (extract_filename_from_url (image v)))) v.

(** [filters.append] of the collected code filters *)
Definition add_code_filters (code_filters : list sg_filter) : list sg_filter :=
  match code_filters with
  | [] => []
  | [f] => [f]
  | _ => [AndGroup code_filters]
  end.

(** The filters the context adds to the base filters.  The block runs
    under [try ... except: pass]: when the Sequence lookup raises, or
    there is no session to ask, what was appended before stays and the
    rest is skipped. *)
Definition context_filters (dm : ShotgunDataManager)
           (tab_context entity_type : string) : list sg_filter :=
  if is_empty tab_context || is_empty entity_type then []
  else
    match split "/" tab_context with
    | [type_part; category_part] =>
        if (entity_type =? "Asset")%string then
          let abbr := _get_category_abbreviation category_part in
          EntityTypeIs "Asset"
            :: add_code_filters
                 ((if is_empty abbr then [] else [CodeContains abbr])
                    ++ [CodeContains type_part])
        else if (entity_type =? "Shot")%string then
          match sg dm with
          | None => [EntityTypeIs "Shot"]
          | Some h =>
              match find_one_sequence h (HAL_PROJECT_SGID dm) category_part with
              | None => [EntityTypeIs "Shot"]
              | Some seq =>
                  EntityTypeIs "Shot"
                    :: (match seq with Some q => [SequenceIs q] | None => [] end)
                    ++ add_code_filters [CodeContains type_part]
              end
          end
        else []
    | _ => []
    end.

(** The filters of the Version query of [find_files]. *)
Definition version_filters (dm : ShotgunDataManager)
           (tab_context entity_type : string) : list sg_filter :=
  [ProjectIs (HAL_PROJECT_SGID dm); PathIsNotNone]
    ++ context_filters dm tab_context entity_type.

Section WithLiteralEval.

(** [ast.literal_eval]; [None] when it raises. *)
Variable literal_eval : string -> option pyval.

(** The first loop of [find_files]: the path field becomes a list. *)
Definition normalize_geometry (geo : pyval) : pyval :=
  let g :=
    match geo with
    | PStr s =>
        if is_empty (strip s) then PList []
        else match literal_eval s with
             | Some v => v
             | None => PList [PStr (strip s)]
             end
    | PNone => PList []
    | _ => geo
    end in
  match g with
  | PList _ => g
  | _ => PList [g]
  end.

(** [find_files] *)
Definition find_files (dm : ShotgunDataManager)
           (tab_context entity_type : string) : list (version pyval) :=
  if (HAL_PROJECT_SGID dm =? 0)%Z then []
  else
    let filters := version_filters dm tab_context entity_type in
    match sg dm with
    | None => []
    | Some h =>
        match find_versions h filters false with
        | None => []
        | Some versions =>
            let versions :=
              map (fun v => set_geometry
                              (normalize_geometry (sg_path_to_geometry v)) v)
                  versions in
            map name_image (select_latest versions)
        end
    end.

End WithLiteralEval.

End DataManager.

(** ** The pick-lists of the panel *)

(** A non-editable [QComboBox]: its items (text and user data) and the
    current index, [None] for Qt's -1.  Qt makes the first item current
    when items are inserted into a combo box that has no current item;
    blocking the signals of the box does not change that. *)
Module QComboBox.

Record t (D : Type) : Type := mk {
  items : list (string * option D);
  currentIndex : option nat
}.
Arguments mk {D}.
Arguments items {D}.
Arguments currentIndex {D}.

Definition empty {D : Type} : t D := mk [] None.

Definition clear {D : Type} (c : t D) : t D := mk [] None.

Definition insert_at_end {D : Type} (new : list (string * option D)) (c : t D) : t D :=
  match new with
  | [] => c
  | _ :: _ =>
      mk (items c ++ new)
         (match items c, currentIndex c with
          | [], None => Some 0
          | _, i => i
          end)
  end.

Definition addItem {D : Type} (text : string) (userData : option D) (c : t D) : t D :=
  insert_at_end [(text, userData)] c.

Definition addItems {D : Type} (texts : list string) (c : t D) : t D :=
  insert_at_end (map (fun s => (s, None)) texts) c.

Fixpoint find_from {D : Type} (text : string) (l : list (string * option D)) (i : nat)
  : option nat :=
  match l with
  | [] => None
  | (s, _) :: r => if (s =? text)%string then Some i else find_from text r (S i)
  end.

(** [findText]: the index of the first item with that text, [None]
    for -1 *)
Definition findText {D : Type} (text : string) (c : t D) : option nat :=
  find_from text (items c) 0.

(** [setCurrentText] of a box that is not editable *)
Definition setCurrentText {D : Type} (text : string) (c : t D) : t D :=
  match findText text c with
  | Some i => mk (items c) (Some i)
  | None => c
  end.

Definition currentItem {D : Type} (c : t D) : option (string * option D) :=
  match currentIndex c with
  | Some i => nth_error (items c) i
  | None => None
  end.

Definition currentText {D : Type} (c : t D) : string :=
  match currentItem c with
  | Some (s, _) => s
  | None => ""
  end.

Definition currentData {D : Type} (c : t D) : option D :=
  match currentItem c with
  | Some (_, d) => d
  | None => None
  end.

(** The user picks the item at index [i]. *)
Definition pick {D : Type} (i : nat) (c : t D) : t D :=
  if (i <? List.length (items c))%nat then mk (items c) (Some i) else c.

End QComboBox.

(** ** ui.py: the filter cascade *)

Module UI.
Import PyStr.
Import QComboBox.

(** A flattened record of the history, and a gallery card. *)
Definition hversion : Type := version (list string).

Record widget : Type := mkWidget { version_data : hversion }.

(** The part of [ShotgunLibraryUI] the cascade reads and writes.  The
    two task boxes and the tab bar only contribute their current text
    and index; the two labels hold what [_update_displayed_info] shows
    (the date before it is formatted, [None] for the dash). *)
Record Panel : Type := mkPanel {
  data_manager : ShotgunDataManager;
  top_tab_index : nat;
  task_combo_assets : string;
  task_combo_shots : string;
  currently_selected_widget : option widget;
  current_version_history : list hversion;
  render_combo : QComboBox.t unit;
  asset_filter_combo : QComboBox.t unit;
  material_combo : QComboBox.t hversion;
  asset_filter_visible : bool;
  file_path_label : string;
  publish_date_label : option Z
}.

Definition NO_ASSET_FILTER_TAG : string := "不通过资产筛选".

Definition with_selected (w : option widget) (ui : Panel) : Panel :=
  mkPanel (data_manager ui) (top_tab_index ui) (task_combo_assets ui)
          (task_combo_shots ui) w (current_version_history ui)
          (render_combo ui) (asset_filter_combo ui) (material_combo ui)
          (asset_filter_visible ui) (file_path_label ui) (publish_date_label ui).

Definition with_history (h : list hversion) (ui : Panel) : Panel :=
  mkPanel (data_manager ui) (top_tab_index ui) (task_combo_assets ui)
          (task_combo_shots ui) (currently_selected_widget ui) h
          (render_combo ui) (asset_filter_combo ui) (material_combo ui)
          (asset_filter_visible ui) (file_path_label ui) (publish_date_label ui).

Definition with_render (c : QComboBox.t unit) (ui : Panel) : Panel :=
  mkPanel (data_manager ui) (top_tab_index ui) (task_combo_assets ui)
          (task_combo_shots ui) (currently_selected_widget ui)
          (current_version_history ui) c (asset_filter_combo ui)
          (material_combo ui) (asset_filter_visible ui) (file_path_label ui)
          (publish_date_label ui).

Definition with_asset_filter (c : QComboBox.t unit) (visible : bool) (ui : Panel)
  : Panel :=
  mkPanel (data_manager ui) (top_tab_index ui) (task_combo_assets ui)
          (task_combo_shots ui) (currently_selected_widget ui)
          (current_version_history ui) (render_combo ui) c
          (material_combo ui) visible (file_path_label ui)
          (publish_date_label ui).

Definition with_material (c : QComboBox.t hversion) (ui : Panel) : Panel :=
  mkPanel (data_manager ui) (top_tab_index ui) (task_combo_assets ui)
          (task_combo_shots ui) (currently_selected_widget ui)
          (current_version_history ui) (render_combo ui)
          (asset_filter_combo ui) c (asset_filter_visible ui)
          (file_path_label ui) (publish_date_label ui).

Definition with_labels (path : string) (date : option Z) (ui : Panel) : Panel :=
  mkPanel (data_manager ui) (top_tab_index ui) (task_combo_assets ui)
          (task_combo_shots ui) (currently_selected_widget ui)
          (current_version_history ui) (render_combo ui)
          (asset_filter_combo ui) (material_combo ui)
          (asset_filter_visible ui) path date.

Definition with_context (dm : ShotgunDataManager) (tab : nat)
           (task_assets task_shots : string) (ui : Panel) : Panel :=
  mkPanel dm tab task_assets task_shots (currently_selected_widget ui)
          (current_version_history ui) (render_combo ui)
          (asset_filter_combo ui) (material_combo ui)
          (asset_filter_visible ui) (file_path_label ui)
          (publish_date_label ui).

(** The panel as [__init__] leaves it: its last call,
    [_on_main_tab_changed(0)], runs [_handle_cancel_selection], which
    replaces the text the path label is built with by N/A and blanks
    the date. *)
Definition initial (dm : ShotgunDataManager) (tab : nat)
           (task_assets task_shots : string) : Panel :=
  mkPanel dm tab task_assets task_shots None [] QComboBox.empty
          QComboBox.empty QComboBox.empty false "N/A" None.

(** [_get_file_format] *)
Definition _get_file_format (path : pyval) : string :=
  match path with
  | PStr s =>
      if is_empty s then "unknown"
      else if endswith ".bgeo.sc" s then "bgeo.sc"
      else if has_char "." s then last (split "." s) EmptyString
      else "unknown"
  | _ => "unknown"
  end.

Definition is_version_lead (c : ascii) : bool :=
  (c =? "/")%char || (c =? "_")%char.

(** [re.search(r'[/_](v\d+)', s)]: group 1 of the leftmost match *)
Fixpoint search_path_version (s : string) : option string :=
  match s with
  | EmptyString => None
  | String c r =>
      if is_version_lead c && negb (is_empty (digits_after_v r))
      then Some (String "v" (digits_after_v r))
      else search_path_version r
  end.

(** [_extract_version_from_path], on the strings the cascade passes *)
Definition _extract_version_from_path (path : string) : option string :=
  search_path_version path.

(** [re.sub(r'_v\d+', repl, s, 1)]: the leftmost match is replaced *)
Fixpoint sub_first_version (repl s : string) : string :=
  match s with
  | EmptyString => EmptyString
  | String c r =>
      if (c =? "_")%char && negb (is_empty (digits_after_v r))
      then (repl ++ after_version r)%string
      else String c (sub_first_version repl r)
  end.

(** [sorted(list(set(l)))] for strings *)
Fixpoint insert_sorted (x : string) (l : list string) : list string :=
  match l with
  | [] => [x]
  | y :: r =>
      match String.compare x y with
      | Lt => x :: l
      | Eq => l
      | Gt => y :: insert_sorted x r
      end
  end.

Definition sorted_set (l : list string) : list string :=
  fold_right insert_sorted [] l.

(** [l.sort(key=lambda v: v.get('created_at'), reverse=True)]: a stable
    sort, records of equal time keep their order. *)
Fixpoint insert_desc (x : hversion) (l : list hversion) : list hversion :=
  match l with
  | [] => [x]
  | y :: r =>
      if (created_at y <=? created_at x)%Z then x :: l
      else y :: insert_desc x r
  end.

Definition sort_desc (l : list hversion) : list hversion :=
  fold_right insert_desc [] l.

(** [any(self._get_file_format(p)==fmt for p in paths)] *)
Definition has_format (fmt : string) (v : hversion) : bool :=
  existsb (fun p => (_get_file_format (PStr p) =? fmt)%string)
          (sg_path_to_geometry v).

(** [next((p for p in paths if self._get_file_format(p)==fmt), None)] *)
Definition first_path_of_format (fmt : string) (v : hversion) : option string :=
  find (fun p => (_get_file_format (PStr p) =? fmt)%string)
       (sg_path_to_geometry v).

(** The format tokens of all the paths of the history. *)
Definition available_formats (history : list hversion) : list string :=
  flat_map (fun v => map (fun p => _get_file_format (PStr p))
                         (sg_path_to_geometry v)) history.

(** The label of a record in the version box. *)
Definition display_code (fmt : string) (v : hversion) : string :=
  let orig := code v in
  match first_path_of_format fmt v with
  | Some p_fmt =>
      if is_empty p_fmt then orig
      else match _extract_version_from_path p_fmt with
           | Some pv => sub_first_version (String "_" pv) orig
           | None => orig
           end
  | None => orig
  end.

(** [_update_displayed_info] *)
Definition _update_displayed_info (ui : Panel) : Panel :=
  match currentData (material_combo ui) with
  | None => with_labels "N/A" None ui
  | Some d =>
      let fmt := currentText (render_combo ui) in
      let p := match first_path_of_format fmt d with
               | Some x => x
               | None => "N/A"
               end in
      with_labels p (Some (created_at d)) ui
  end.

(** [_handle_cancel_selection] *)
Definition _handle_cancel_selection (ui : Panel) : Panel :=
  let ui := with_selected None ui in
  let ui := with_asset_filter (clear (asset_filter_combo ui)) false ui in
  let ui := with_material (clear (material_combo ui)) ui in
  let ui := with_render (clear (render_combo ui)) ui in
  let ui := with_history [] ui in
  _update_displayed_info ui.

(** The records of the history that carry the chosen format. *)
Definition versions_in_format (fmt : string) (history : list hversion)
  : list hversion :=
  filter (has_format fmt) history.

(** The sub-asset names of those records, the falsy ones left out. *)
Definition sub_assets (vers_in_fmt : list hversion) : list string :=
  sorted_set
    (flat_map (fun v => match asset_name v with
                        | Some a => if is_empty a then [] else [a]
                        | None => []
                        end) vers_in_fmt).

Definition asset_is (a : option string) (v : hversion) : bool :=
  DataManager.option_string_eqb (asset_name v) a.

(** The records for the chosen sub-asset; [sel_asset] is [None] when the
    tier is hidden. *)
Definition versions_for_selection (vers_in_fmt : list hversion)
           (sel_asset : option string) : list hversion :=
  match sel_asset with
  | Some a =>
      if is_empty a then vers_in_fmt
      else if (a =? NO_ASSET_FILTER_TAG)%string
           then filter (asset_is None) vers_in_fmt
           else filter (asset_is (Some a)) vers_in_fmt
  | None => vers_in_fmt
  end.

(** The sub-asset in force: the text of the sub-asset box while the
    tier is shown. *)
Definition selected_sub_asset (ui : Panel) : option string :=
  if asset_filter_visible ui
  then Some (currentText (asset_filter_combo ui)) else None.

(** [_update_dependent_filters] *)
Definition _update_dependent_filters (ui : Panel) : Panel :=
  let fmt := currentText (render_combo ui) in
  match current_version_history ui with
  | [] => ui
  | _ :: _ =>
      let vers_in_fmt := versions_in_format fmt (current_version_history ui) in
      let assets := sub_assets vers_in_fmt in
      let prev := currentText (asset_filter_combo ui) in
      let box := clear (asset_filter_combo ui) in
      let ui :=
        match assets with
        | _ :: _ =>
            let box := addItem NO_ASSET_FILTER_TAG None (addItems assets box) in
            let box := if is_empty prev then box else setCurrentText prev box in
            with_asset_filter box true ui
        | [] => with_asset_filter box false ui
        end in
      let sel_asset := selected_sub_asset ui in
      let final_vers := sort_desc (versions_for_selection vers_in_fmt sel_asset) in
      let box :=
        fold_left (fun b v => addItem (display_code fmt v) (Some v) b)
                  final_vers (clear (material_combo ui)) in
      _update_displayed_info (with_material box ui)
  end.

(** [_get_version_history_from_shotgun]; the records of the gallery all
    carry an entity. *)
Definition _get_version_history_from_shotgun (ui : Panel) (w : widget)
  : list (version pyval) :=
  match sg (data_manager ui) with
  | None => []
  | Some h =>
      let ent := entity (version_data w) in
      let pid := HAL_PROJECT_SGID (data_manager ui) in
      if (pid =? 0)%Z then []
      else
        let task := if (top_tab_index ui =? 0)%nat
                    then task_combo_assets ui else task_combo_shots ui in
        match find_versions h
                [ProjectIs pid; EntityIs (ent_type ent) (ent_id ent);
                 CodeContains ("_" ++ task ++ "_")%string] true with
        | Some l => l
        | None => []
        end
  end.

Section WithLiteralEval.

(** [ast.literal_eval]; [None] when it raises. *)
Variable literal_eval : string -> option pyval.

Definition looks_like_sequence (data : string) : bool :=
  (startswith "[" data && endswith "]" data)
  || (startswith "(" data && endswith ")" data).

(** [_flatten_and_clean_paths] with a bound on the depth of the
    calls; [None] only when the bound is reached. *)
Fixpoint flatten_fuel (n : nat) (data : pyval) : option (list string) :=
  match n with
  | O => None
  | S k =>
      match data with
      | PStr s =>
          let data := strip s in
          if looks_like_sequence data then
            match literal_eval data with
            | Some v => flatten_fuel k v
            | None => Some [strip_quotes data]
            end
          else Some [strip_quotes data]
      | PList l => extend_all (flatten_fuel k) l
      | PTuple l => extend_all (flatten_fuel k) l
      | _ => Some []
      end
  end.

(** The calls go no deeper than the size of the value when a parsed
    literal is no larger than its text. *)
Definition flatten_paths (data : pyval) : option (list string) :=
  flatten_fuel (S (pymeasure data)) data.

(** [_flatten_and_clean_paths] *)
Definition _flatten_and_clean_paths (data : pyval) : list string :=
  match flatten_paths data with
  | Some l => l
  | None => []
  end.

(** The first two statements of the loop over the fetched history:
    the path field is flattened and [asset_name] is set to [None]. *)
Definition prepare_history_record (v : version pyval) : hversion :=
  set_asset_name None
    (set_geometry (_flatten_and_clean_paths (sg_path_to_geometry v)) v).

(** [_query_and_populate_all_filters] *)
Definition _query_and_populate_all_filters (ui : Panel) (w : widget) : Panel :=
  let cur_fmt := currentText (render_combo ui) in
  let cur_ver := currentText (material_combo ui) in
  match _get_version_history_from_shotgun ui w with
  | [] => _handle_cancel_selection (with_history [] ui)
  | raw =>
      let history := map prepare_history_record raw in
      let fmts := available_formats history in
      let box := addItems (sorted_set fmts) (clear (render_combo ui)) in
      let box :=
        if negb (is_empty cur_fmt)
        then match findText cur_fmt box with
             | Some _ => setCurrentText cur_fmt box
             | None => box
             end
        else box in
      let ui := _update_dependent_filters
                  (with_render box (with_history history ui)) in
      if negb (is_empty cur_ver)
      then match findText cur_ver (material_combo ui) with
           | Some _ =>
               _update_displayed_info
                 (with_material (setCurrentText cur_ver (material_combo ui)) ui)
           | None => ui
           end
      else ui
  end.

(** [_handle_thumbnail_click] *)
Definition _handle_thumbnail_click (ui : Panel) (w : widget) : Panel :=
  _query_and_populate_all_filters (with_selected (Some w) ui) w.

End WithLiteralEval.

(** The user picks entry [i] of a box.  [currentIndexChanged] is only
    emitted when the index changes, and then the slot connected to the
    box runs: [_update_dependent_filters] for the format and sub-asset
    boxes, [_update_displayed_info] for the version box. *)
Definition index_changes {D : Type} (i : nat) (c : QComboBox.t D) : bool :=
  (i <? List.length (items c))%nat
  && negb (match currentIndex c with
           | Some j => (i =? j)%nat
           | None => false
           end).

Definition on_format_picked (i : nat) (ui : Panel) : Panel :=
  if index_changes i (render_combo ui)
  then _update_dependent_filters (with_render (pick i (render_combo ui)) ui)
  else ui.

Definition on_sub_asset_picked (i : nat) (ui : Panel) : Panel :=
  if index_changes i (asset_filter_combo ui)
  then _update_dependent_filters
         (with_asset_filter (pick i (asset_filter_combo ui))
                            (asset_filter_visible ui) ui)
  else ui.

Definition on_version_picked (i : nat) (ui : Panel) : Panel :=
  if index_changes i (material_combo ui)
  then _update_displayed_info (with_material (pick i (material_combo ui)) ui)
  else ui.

(** The states of the panel: it starts as [__init__] leaves it; the
    user clicks a card, cancels the selection, picks an entry of one of
    the three boxes, or changes the project, the tab or a task, none of
    which touches the cascade by itself. *)
Inductive reachable (literal_eval : string -> option pyval) : Panel -> Prop :=
| reach_initial dm tab ta ts :
    reachable literal_eval (initial dm tab ta ts)
| reach_click ui w :
    reachable literal_eval ui ->
    reachable literal_eval (_handle_thumbnail_click literal_eval ui w)
| reach_cancel ui :
    reachable literal_eval ui ->
    reachable literal_eval (_handle_cancel_selection ui)
| reach_format ui i :
    reachable literal_eval ui ->
    reachable literal_eval (on_format_picked i ui)
| reach_sub_asset ui i :
    reachable literal_eval ui ->
    reachable literal_eval (on_sub_asset_picked i ui)
| reach_version ui i :
    reachable literal_eval ui ->
    reachable literal_eval (on_version_picked i ui)
| reach_context ui dm tab ta ts :
    reachable literal_eval ui ->
    reachable literal_eval (with_context dm tab ta ts ui).

End UI.

(** ** A fragment of [ast.literal_eval] for the worked examples *)

(** Only the literals the path field is expected to hold are read: a
    bracketed list of quoted strings without escapes, separated by
    commas, blanks allowed around them.  Anything else is left
    unparsed. *)
Module ListLiteral.
Import PyStr.

Definition is_blank (c : ascii) : bool := (c =? " ")%char.

(** The text up to the closing quote [q], and what follows it. *)
Fixpoint read_quoted (q : ascii) (s : string) : option (string * string) :=
  match s with
  | EmptyString => None
  | String c r =>
      if (c =? q)%char then Some (EmptyString, r)
      else if (c =? "\")%char || (c =? "010")%char then None
      else match read_quoted q r with
           | Some (a, rest) => Some (String c a, rest)
           | None => None
           end
  end.

Definition is_quote (c : ascii) : bool := (c =? "'")%char || (c =? "034")%char.

Definition closes (s : string) : bool := (s =? "]")%string.

(** The items after the opening bracket or after a comma. *)
Fixpoint read_items (n : nat) (s : string) : option (list string) :=
  match n with
  | O => None
  | S k =>
      let s := lstrip_by is_blank s in
      if closes s then Some []
      else
        match s with
        | EmptyString => None
        | String q r =>
            if is_quote q then
              match read_quoted q r with
              | Some (a, rest) =>
                  let rest := lstrip_by is_blank rest in
                  if closes rest then Some [a]
                  else
                    match rest with
                    | EmptyString => None
                    | String c rest' =>
                        if (c =? ",")%char then
                          match read_items k rest' with
                          | Some l => Some (a :: l)
                          | None => None
                          end
                        else None
                    end
              | None => None
              end
            else None
        end
  end.

Definition literal_eval (s : string) : option pyval :=
  match s with
  | EmptyString => None
  | String c r =>
      if (c =? "[")%char then
        match read_items (String.length r) r with
        | Some l => Some (PList (map PStr l))
        | None => None
        end
      else None
  end.

End ListLiteral.

(** ** The specification's wording, for comparison with the code *)

Module Spec.
Import PyStr.

Definition is_separator (c : ascii) : bool := (c =? "/")%char || (c =? "\")%char.

Fixpoint has_separator (s : string) : bool :=
  match s with
  | EmptyString => false
  | String c r => is_separator c || has_separator r
  end.

(** The last component of a path. *)
Fixpoint basename (s : string) : string :=
  match s with
  | EmptyString => EmptyString
  | String c r =>
      if has_separator r then basename r
      else if is_separator c then r else s
  end.

(** The format token as the specification words it: the extension of
    the file, the two-segment extension taken as one token, and
    the token for a file without extension. *)
Definition format_token (path : string) : string :=
  let name := basename path in
  if endswith ".bgeo.sc" name then "bgeo.sc"
  else if has_char "." name then last (split "." name) EmptyString
  else "unknown".

(** Categorization as the specification words it: the tokens are
    tried in their declared order and the first one found in the code
    wins. *)
Definition priority_category (tokens : list string) (unknown code : string)
  : string :=
  match find (fun t => contains t (lower code)) tokens with
  | Some t => t
  | None => unknown
  end.

End Spec.

(** ** Worked scenarios *)

Module Scenario.
Import UI.

Definition asset (i : Z) : entity_ref := mkEntity "Asset" i "propA".

Definition raw_of (e : entity_ref) (i : Z) (c : string) (paths : pyval) (t : Z)
  : version pyval :=
  mkVersion i c e paths None t None None.

Definition raw : Z -> string -> pyval -> Z -> version pyval := raw_of (asset 7).

Definition flat (i : Z) (c : string) (paths : list string) (t : Z) : hversion :=
  mkVersion i c (asset 7) paths None t None None.

(** The history of entity 7: two versions, each published as abc and
    as usd; of entity 8: one version, usd only; nothing else. *)
Definition history_7 : list (version pyval) :=
  [raw 12 "propA_mdl_v002"
       (PStr "['/p/propA_v002.abc', '/p/propA_v002.usd']") 20;
   raw 11 "propA_mdl_v001"
       (PList [PStr "/p/propA_v001.abc"; PStr "/p/propA_v001.usd"]) 10].

Definition history_8 : list (version pyval) :=
  [raw_of (asset 8) 21 "propB_mdl_v001" (PStr "/p/propB_v001.usd") 5].

Definition history_for (filters : list sg_filter) : list (version pyval) :=
  match filters with
  | [ProjectIs _; EntityIs _ i; CodeContains _] =>
      if (i =? 7)%Z then history_7
      else if (i =? 8)%Z then history_8 else []
  | _ => []
  end.

(** A store that answers every query. *)
Definition studio : shotgun :=
  mkShotgun (Some [mkProject "demo" 42 "dm"])
            (fun _ _ => Some None)
            (fun filters ordered =>
               Some (if ordered then history_for filters else history_7)).

Definition shot_catalog : list (version pyval) :=
  [raw_of (mkEntity "Shot" 3 "SEQ01_sh010") 31 "SEQ01_sh010_anim_v003"
          (PList [PStr "/s/sh010_anim_v003.abc"]) 7].

(** A store whose Sequence lookup raises while its Version query
    answers. *)
Definition studio_without_sequences : shotgun :=
  mkShotgun (Some [mkProject "demo" 42 "dm"])
            (fun _ _ => None)
            (fun filters ordered => Some shot_catalog).

(** A store whose every query raises. *)
Definition studio_down : shotgun :=
  mkShotgun None (fun _ _ => None) (fun _ _ => None).

Definition manager (h : option shotgun) : ShotgunDataManager :=
  mkDataManager h 42 "demo".

Definition card (i : Z) : widget :=
  mkWidget (mkVersion 1 "prop_mdl_v001" (mkEntity "Asset" i "prop")
                      [] None 0 (Some "mdl") None).

Definition start : Panel := initial (manager (Some studio)) 0 "mdl" "anim".

(** A record whose code names version 1; the first abc path carries no
    version, the second one carries version 2. *)
Definition stale : hversion :=
  flat 5 "propA_mdl_v001" ["/p/propA.abc"; "/p/propA_v002.abc"] 0.

(** A record whose code names version 1 while its abc file is of
    version 3. *)
Definition republished : hversion :=
  flat 6 "propA_mdl_v001" ["/p/propA.usd"; "/p/propA_v003.abc"] 0.

Definition literal_eval : string -> option pyval := ListLiteral.literal_eval.

(** A card of entity 7 is clicked. *)
Definition on_entity_7 : Panel := _handle_thumbnail_click literal_eval start (card 7).

End Scenario.

(** ** ui.py: the gallery, the shot boxes and the drag data *)

Module Browser.
Import PyStr QComboBox UI.

(** [sorted(l)] for a list of strings *)
Fixpoint insert_asc (x : string) (l : list string) : list string :=
  match l with
  | [] => [x]
  | y :: r => if String.leb x y then x :: l else y :: insert_asc x r
  end.

Definition py_sorted (l : list string) : list string :=
  fold_right insert_asc [] l.

(** [s.replace(old, new, 1)] *)
Fixpoint replace_first (old new s : string) : string :=
  if startswith old s then (new ++ DataManager.drop (String.length old) s)%string
  else match s with
       | EmptyString => EmptyString
       | String c r => String c (replace_first old new r)
       end.

(** The rows of the Sequence and Shot queries, and the two queries of
    the session [sg] that [_get_sequences_and_shots_from_sg] sends;
    [None] is a raised exception.  [sh_sequence] is the name under the
    key [sg_sequence], [None] when the store left that field empty. *)
Record sequence_row : Type := mkSequenceRow {
  sq_id : Z;
  sq_code : string
}.

Record shot_row : Type := mkShotRow {
  sh_code : string;
  sh_sequence : option string
}.

Record shot_queries : Type := mkShotQueries {
  find_sequences : Z -> option (list sequence_row);
  find_shots : Z -> list Z -> option (list shot_row)
}.

(** A dict from strings to lists of strings. *)
Definition smap : Type := list (string * list string).

Fixpoint smap_get (k : string) (m : smap) : option (list string) :=
  match m with
  | [] => None
  | (k', v) :: r => if (k =? k')%string then Some v else smap_get k r
  end.

Fixpoint smap_set (k : string) (v : list string) (m : smap) : smap :=
  match m with
  | [] => [(k, v)]
  | (k', v') :: r =>
      if (k =? k')%string then (k', v) :: r else (k', v') :: smap_set k v r
  end.

(** [{s['code']: [] for s in seqs}] *)
Definition smap_init (seqs : list sequence_row) : smap :=
  fold_left (fun m q => smap_set (sq_code q) [] m) seqs [].

(** One turn of the loop over the shots; [None] when reading the
    sequence of the shot raises. *)
Definition add_shot (m : smap) (s : shot_row) : option smap :=
  match sh_sequence s with
  | None => None
  | Some sn =>
      match smap_get sn m with
      | Some l => Some (smap_set sn (l ++ [sh_code s]) m)
      | None => Some m
      end
  end.

Fixpoint add_shots (m : smap) (shots : list shot_row) : option smap :=
  match shots with
  | [] => Some m
  | s :: r =>
      match add_shot m s with
      | Some m' => add_shots m' r
      | None => None
      end
  end.

(** [_get_sequences_and_shots_from_sg] *)
Definition _get_sequences_and_shots_from_sg (sg : option shot_queries) (pid : Z)
  : list string * list (list string) :=
  match sg with
  | None => ([], [])
  | Some h =>
      if (pid =? 0)%Z then ([], [])
      else
        match find_sequences h pid with
        | None => ([], [])
        | Some seqs =>
            match find_shots h pid (map sq_id seqs) with
            | None => ([], [])
            | Some shots =>
                match add_shots (smap_init seqs) shots with
                | None => ([], [])
                | Some s_map =>
                    let keys := py_sorted (map fst s_map) in
                    (keys,
                     map (fun k => py_sorted (match smap_get k s_map with
                                              | Some l => l
                                              | None => []
                                              end)) keys)
                end
            end
        end
  end.

(** [dict(zip(seqs, shots))] *)
Definition zip_dict (keys : list string) (values : list (list string)) : smap :=
  fold_left (fun m kv => smap_set (fst kv) (snd kv) m) (combine keys values) [].

(** [self.shots_data] as [_refresh_sequence_data_for_current_project]
    sets it *)
Definition shots_data (sg : option shot_queries) (pid : Z) : smap :=
  let '(seqs, shots) := _get_sequences_and_shots_from_sg sg pid in
  zip_dict seqs shots.

(** The entry of the shot box for the shot [s] of the sequence [seq] *)
Definition shot_display (seq s : string) : string :=
  let prefix := (seq ++ "_")%string in
  if startswith prefix s then replace_first prefix "" s else s.

(** [_on_sequence_changed]: the shot box it fills *)
Definition _on_sequence_changed (shots_data : smap) (seq : string)
           (shot_combo_shots : QComboBox.t unit) : QComboBox.t unit :=
  let shots := match smap_get seq shots_data with
               | Some l => l
               | None => []
               end in
  let display := map (shot_display seq) shots in
  addItems (py_sorted display) (addItem "All" None (clear shot_combo_shots)).

(** The texts [_handle_refresh] reads besides those of the panel. *)
Record Filters : Type := mkFilters {
  category_combo_assets : string;
  sequence_combo_shots : string;
  shot_combo_shots : string;
  name_filter_edit : string
}.

(** [_apply_filters]: the records it hands to
    [_setup_simple_scroll_content] *)
Definition _apply_filters (name_filter : string) (all_versions_for_context : list hversion)
  : list hversion :=
  let txt := lower name_filter in
  if is_empty txt then all_versions_for_context
  else filter (fun v => contains txt (lower (code v))) all_versions_for_context.

(** The context and the entity type [_handle_refresh] asks for. *)
Definition refresh_context (ui : Panel) (f : Filters) : string * string :=
  if (top_tab_index ui =? 1)%nat then
    let t := task_combo_shots ui in
    let s := sequence_combo_shots f in
    (if negb (is_empty t) && negb (is_empty s) then (t ++ "/" ++ s)%string else "",
     "Shot")
  else
    let t := task_combo_assets ui in
    let c := category_combo_assets f in
    (if negb (is_empty t) && negb (is_empty c) then (t ++ "/" ++ c)%string else "",
     "Asset").

(** What [_handle_refresh] leaves: the panel, [all_versions_for_context]
    and the records handed to [_setup_simple_scroll_content], [None] for
    the call without records. *)
Record Refreshed : Type := mkRefreshed {
  panel : Panel;
  all_versions_for_context : list hversion;
  shown : option (list hversion)
}.

Section WithLiteralEval.

Variable literal_eval : string -> option pyval.

(** [_handle_refresh] *)
Definition _handle_refresh (ui : Panel) (f : Filters) (all_before : list hversion)
  : Refreshed :=
  let ui := _handle_cancel_selection ui in
  let '(ctx, etype) := refresh_context ui f in
  if is_empty ctx then mkRefreshed ui all_before None
  else
    let vers := DataManager.find_files literal_eval (data_manager ui) ctx etype in
    let vers :=
      if (etype =? "Shot")%string then
        let sd := shot_combo_shots f in
        let seq := sequence_combo_shots f in
        if negb (is_empty sd) && negb (sd =? "All")%string
        then filter (fun v => (ent_name (entity v) =? seq ++ "_" ++ sd)%string) vers
        else vers
      else vers in
    let vers :=
      map (fun v => set_geometry
                      (_flatten_and_clean_paths literal_eval (sg_path_to_geometry v)) v)
          vers in
    mkRefreshed ui vers (Some (_apply_filters (name_filter_edit f) vers)).

End WithLiteralEval.

(** The dict [update_drag_info] stores in [current_drag_data]. *)
Record drag_data : Type := mkDragData {
  version_name : string;
  asset_filter_name : string;
  file_path : string;
  format : string;
  dcc : string;
  is_mm_context : bool
}.

(** [update_drag_info] followed by [get_current_drag_data]; [HOST] is
    the host the module detected. *)
Definition update_drag_info (HOST : string) (ui : Panel) : drag_data :=
  let is_shot_tab := (top_tab_index ui =? 1)%nat in
  let is_mm_context := is_shot_tab && (task_combo_shots ui =? "mm")%string in
  let asset_filter_name :=
    if asset_filter_visible ui then
      let a := currentText (asset_filter_combo ui) in
      if (a =? NO_ASSET_FILTER_TAG)%string then "" else a
    else "" in
  mkDragData (currentText (material_combo ui)) asset_filter_name
             (file_path_label ui) (currentText (render_combo ui)) HOST
             is_mm_context.

(** The test on the path shared by [_handle_manual_import_maya] and
    [_handle_reference_maya] *)
Definition has_file_path (d : drag_data) : bool :=
  negb (is_empty (file_path d)) && negb (file_path d =? "N/A")%string.

(** [_handle_reference_maya]: the path and the namespace given to
    [cmds.file(..., reference=True)], [None] when nothing is referenced *)
Definition _handle_reference_maya (HOST : string) (ui : Panel)
  : option (string * string) :=
  if (HOST =? "maya")%string then
    let d := update_drag_info HOST ui in
    if has_file_path d then Some (file_path d, version_name d) else None
  else None.

(** [s.replace(c, new)] for a one-character [c] *)
Fixpoint replace_char (c : ascii) (new s : string) : string :=
  match s with
  | EmptyString => EmptyString
  | String d r =>
      if (d =? c)%char then (new ++ replace_char c new r)%string
      else String d (replace_char c new r)
  end.

Definition backslash : ascii := "\"%char.
Definition double_quote : ascii := "034"%char.
Definition line_feed : ascii := "010"%char.

(** The last statement but one of [generate_maya_drop_script]: the
    three replacements on the cleaned code. *)
Definition escape_for_mel (clean_code : string) : string :=
  replace_char line_feed (String backslash "n")
    (replace_char double_quote (String backslash (String double_quote ""))
       (replace_char backslash (String backslash (String backslash "")) clean_code)).

(** The command it returns for that code *)
Definition mel_command (clean_code : string) : string :=
  ("python(" ++ String double_quote (escape_for_mel clean_code)
     ++ String double_quote ");")%string.

(** The sort of [_populate_projects]: by name, projects of equal name
    keeping their order *)
Fixpoint insert_project (p : project) (l : list project) : list project :=
  match l with
  | [] => [p]
  | q :: r =>
      if String.leb (proj_name p) (proj_name q) then p :: l
      else q :: insert_project p r
  end.

Definition sort_projects (l : list project) : list project :=
  fold_right insert_project [] l.

(** [l.index(x)], [None] when [x] is not in [l] *)
Fixpoint index_of (x : string) (l : list string) : option nat :=
  match l with
  | [] => None
  | y :: r =>
      if (y =? x)%string then Some 0
      else match index_of x r with
           | Some i => Some (S i)
           | None => None
           end
  end.

(** [_populate_projects], up to the two boxes it fills: the sorted
    project list and the index it makes current; [env_p] is the
    environment variable HAL_PROJECT. *)
Definition _populate_projects (dm : ShotgunDataManager) (env_p : string)
  : list project * nat :=
  let project_list := sort_projects (DataManager.get_active_projects dm) in
  let p_names := map proj_name project_list in
  (project_list,
   match index_of env_p p_names with
   | Some i => i
   | None => 0
   end).

End Browser.

(** ** Notions used by the properties *)

Module Notions.
Import PyStr DataManager QComboBox UI.

(** [t] occurs in [s] at offset [n]. *)
Definition occurs_at (t s : string) (n : nat) : Prop :=
  exists pre post, s = (pre ++ t ++ post)%string /\ String.length pre = n.

(** [t] is a token of the list occurring in [s], and no token of the
    list occurs further left. *)
Definition leftmost_token (tokens : list string) (s t : string) : Prop :=
  In t tokens
  /\ exists n, occurs_at t s n
               /\ forall t' n', In t' tokens -> occurs_at t' s n' -> n <= n'.

Definition no_token (tokens : list string) (s : string) : Prop :=
  forall t n, In t tokens -> ~ occurs_at t s n.

(** What [_categorize_version] leaves in the category of a record whose
    entity type has the token list [tokens] and the sentinel [unknown]. *)
Definition categorized_by (tokens : list string) (unknown : string)
           {G : Type} (v : version G) : Prop :=
  (exists t, category (_categorize_version v) = Some t
             /\ leftmost_token tokens (lower (code v)) t)
  \/ (category (_categorize_version v) = Some unknown
      /\ no_token tokens (lower (code v))).

(** A rig record whose code also names the model task. *)
Definition rig_of_model : version pyval :=
  Scenario.raw 1 "prp_rigTable_mdl_v001" (PList []) 0.

Definition version_number {G : Type} (v : version G) : N :=
  _get_version_number (code v).

(** [r] stands in the batch before every record of its key with the
    same version number, and no record of its key has a greater one. *)
Definition first_greatest {G : Type} (batch : list (version G)) (r : version G)
  : Prop :=
  exists pre post,
    batch = pre ++ r :: post
    /\ (forall u, In u pre -> version_key u = version_key r ->
                  (version_number u < version_number r)%N)
    /\ (forall u, In u post -> version_key u = version_key r ->
                  (version_number u <= version_number r)%N).

(** The loop body on a record that is already categorized. *)
Definition keep_greater {G : Type} (latest : pydict (version G)) (v : version G)
  : pydict (version G) :=
  match dict_get (version_key v) latest with
  | None => dict_set (version_key v) v latest
  | Some e =>
      if (version_number e <? version_number v)%N
      then dict_set (version_key v) v latest else latest
  end.

(** What the loop maintains between the records seen so far and the
    dict. *)
Record latest_inv {G : Type} (seen : list (version G)) (d : pydict (version G))
  : Prop := {
  inv_nodup : NoDup (map fst d);
  inv_key : forall k r, In (k, r) d -> k = version_key r;
  inv_best : forall k r, In (k, r) d -> first_greatest seen r;
  inv_cover : forall u, In u seen -> exists r, dict_get (version_key u) d = Some r
}.

(** A string with neither a leading nor a trailing blank or quote. *)
Definition trimmed (s : string) : Prop :=
  (forall c r, s = String c r -> is_quote_or_blank c = false)
  /\ (forall r c, s = (r ++ String c "")%string -> is_quote_or_blank c = false).

(** Values that are neither a string nor a list or tuple. *)
Definition is_path_like (v : pyval) : bool :=
  match v with
  | PStr _ | PList _ | PTuple _ => true
  | _ => false
  end.

(** A path field that mixes the shapes the store delivers. *)
Definition mixed_paths : pyval :=
  PList [PStr "  ['a/b_v002.abc', ' c.usd ' ] "; PNone;
         PTuple [PStr " 'y.bgeo.sc' "; PInt 3]; PStr "[broken"; PStr "[broken]"].

(** The sub-asset box as [_update_dependent_filters] rebuilds it. *)
Definition rebuilt_asset_filter (assets : list string) (prev : string)
  : QComboBox.t unit :=
  match assets with
  | [] => QComboBox.empty
  | _ :: _ =>
      let box := addItem NO_ASSET_FILTER_TAG None (addItems assets QComboBox.empty) in
      if is_empty prev then box else setCurrentText prev box
  end.

(** The version box as [_update_dependent_filters] rebuilds it. *)
Definition rebuilt_material (fmt : string) (final_vers : list hversion)
  : QComboBox.t hversion :=
  fold_left (fun b v => addItem (display_code fmt v) (Some v) b)
            final_vers QComboBox.empty.

(** The box of formats after a reload. *)
Definition reloaded_formats (history : list hversion) (cur_fmt : string)
  : QComboBox.t unit :=
  let box := addItems (sorted_set (available_formats history)) QComboBox.empty in
  if negb (is_empty cur_fmt)
  then match findText cur_fmt box with
       | Some _ => setCurrentText cur_fmt box
       | None => box
       end
  else box.

(** The record lacks a sub-asset when the synthetic tag is chosen, and
    carries the chosen sub-asset otherwise. *)
Definition matches_sub_asset (sel : option string) (v : hversion) : Prop :=
  match sel with
  | None => True
  | Some a =>
      if (a =? NO_ASSET_FILTER_TAG)%string
      then asset_name v = None else asset_name v = Some a
  end.

Definition selected_format (ui : Panel) : option string :=
  option_map fst (currentItem (render_combo ui)).

Definition selected_version (ui : Panel) : option hversion :=
  currentData (material_combo ui).

(** What every state of the panel satisfies. *)
Record cascade_inv (ui : Panel) : Prop := {
  inv_formats :
    forall s d, In (s, d) (items (render_combo ui)) ->
                In s (available_formats (current_version_history ui));
  inv_versions :
    forall s d, In (s, d) (items (material_combo ui)) ->
                exists v, d = Some v
                          /\ In v (versions_for_selection
                                     (versions_in_format
                                        (currentText (render_combo ui))
                                        (current_version_history ui))
                                     (selected_sub_asset ui));
  inv_sub_asset :
    asset_filter_visible ui = true -> currentText (asset_filter_combo ui) <> "";
  inv_hidden :
    current_version_history ui = [] -> asset_filter_visible ui = false
}.

(** *** Digits and white space *)

(** [ch] is a decimal digit of value [v]; [ch] is a white space
    character. *)
Definition decimal_char (ch : string) (v : N) : Prop := In (ch, v) decimal_digits.

Definition space_char (ch : string) : Prop := In (ch, tt) spaces.

(** A run of decimal digits, and a run of white space. *)
Inductive decimal_string : string -> Prop :=
| decimal_nil : decimal_string ""
| decimal_cons ch v d :
    decimal_char ch v -> decimal_string d -> decimal_string (ch ++ d).

Inductive space_string : string -> Prop :=
| space_nil : space_string ""
| space_cons ch s :
    space_char ch -> space_string s -> space_string (ch ++ s).

Definition starts_with_digit (s : string) : Prop :=
  exists ch v r, decimal_char ch v /\ s = (ch ++ r)%string.

Definition starts_with_space (s : string) : Prop :=
  exists ch r, space_char ch /\ s = (ch ++ r)%string.

Definition ends_with_space (s : string) : Prop :=
  exists r ch, space_char ch /\ s = (r ++ ch)%string.

(** A non-empty run of digits. *)
Definition version_digits (d : string) : Prop :=
  d <> "" /\ decimal_string d.

(** [s] holds no underscore, v and digit; and its leftmost one: the
    text before it, its digits and the text after them. *)
Definition no_version (s : string) : Prop :=
  forall pre post, s = (pre ++ "_v" ++ post)%string -> ~ starts_with_digit post.

Definition leftmost_version (s c1 d c2 : string) : Prop :=
  s = (c1 ++ "_v" ++ d ++ c2)%string
  /\ no_version c1 /\ version_digits d /\ ~ starts_with_digit c2.

(** The same for the version segment of a path, which a slash or an
    underscore leads. *)
Definition no_segment (p : string) : Prop :=
  forall pre sep post,
    p = (pre ++ String sep (String "v" post))%string ->
    is_version_lead sep = true -> ~ starts_with_digit post.

Definition leftmost_segment (p pre : string) (sep : ascii) (d rest : string)
  : Prop :=
  p = (pre ++ String sep (String "v" (d ++ rest)))%string
  /\ is_version_lead sep = true
  /\ no_segment pre /\ version_digits d /\ ~ starts_with_digit rest.

(** Checks on a table of characters: no character is empty, none is
    the beginning of another entry, and a decimal digit is an ASCII
    digit or has no ASCII byte. *)
Definition entry_clash {V : Type} (eqv : V -> V -> bool) (e1 e2 : string * V)
  : bool :=
  startswith (fst e1) (fst e2)
  && negb ((fst e1 =? fst e2)%string && eqv (snd e1) (snd e2)).

Definition prefix_free {V : Type} (eqv : V -> V -> bool)
           (table : list (string * V)) : bool :=
  forallb (fun e1 => forallb (fun e2 => negb (entry_clash eqv e1 e2)) table) table.

Definition no_empty_char {V : Type} (table : list (string * V)) : bool :=
  forallb (fun e => negb (is_empty (fst e))) table.

Fixpoint high_bytes (s : string) : bool :=
  match s with
  | EmptyString => true
  | String c r => (128 <=? nat_of_ascii c)%nat && high_bytes r
  end.

Definition digit_bytes (ch : string) : bool :=
  match ch with
  | String c EmptyString => is_digit c || (128 <=? nat_of_ascii c)%nat
  | _ => high_bytes ch
  end.

End Notions.

(** ** Notions used by the further properties *)

Module MoreNotions.
Import PyStr DataManager QComboBox UI Browser.

(** Every character of [s] satisfies [p]. *)
Fixpoint all_chars (p : ascii -> bool) (s : string) : bool :=
  match s with
  | EmptyString => true
  | String c r => p c && all_chars p r
  end.

(** The characters the image name keeps: letters, digits, underscore
    and hyphen. *)
Definition is_name_char (c : ascii) : bool :=
  is_alpha c || is_digit c || (c =? "_")%char || (c =? "-")%char.

(** The number of occurrences of the character [c] in [s] *)
Fixpoint count_char (c : ascii) (s : string) : nat :=
  match s with
  | EmptyString => 0
  | String d r => (if (d =? c)%char then 1 else 0) + count_char c r
  end.

(** A name is one of the two sentinels or is made of name characters. *)
Definition image_name_shape (n : string) : Prop :=
  n = "No Image" \/ n = "Unparsable URL" \/ all_chars is_name_char n = true.


(** The record [r] carries the identity of the store record [raw]. *)
Definition from_store {G H : Type} (raw : version G) (r : version H) : Prop :=
  sg_id r = sg_id raw /\ code r = code raw /\ entity r = entity raw
  /\ created_at r = created_at raw.

(** The category of [r] is a token of the list or the sentinel. *)
Definition category_among (tokens : list string) (unknown : string)
           {G : Type} (r : version G) : Prop :=
  exists t, category r = Some t /\ (In t tokens \/ t = unknown).


(** The order of [sorted] on strings, strict and not. *)
Definition str_lt (a b : string) : Prop := String.compare a b = Lt.

Definition str_le (a b : string) : Prop := String.leb a b = true.

(** [a] was created no earlier than [b]. *)
Definition newer_first (a b : hversion) : Prop :=
  (created_at b <= created_at a)%Z.

(** Insertion into a list ordered by [before], and the stable sort it
    gives; the sorts of the code are instances of it. *)
Section InsertBy.

Context {A : Type} (before : A -> A -> bool).

Fixpoint insert_by (x : A) (l : list A) : list A :=
  match l with
  | [] => [x]
  | y :: r => if before x y then x :: l else y :: insert_by x r
  end.

Definition sort_by (l : list A) : list A := fold_right insert_by [] l.

End InsertBy.

(** What the two labels show for the selection of the version box. *)
Definition labels_ok (ui : Panel) : Prop :=
  match currentData (material_combo ui) with
  | None => file_path_label ui = "N/A" /\ publish_date_label ui = None
  | Some d =>
      file_path_label ui
      = match first_path_of_format (currentText (render_combo ui)) d with
        | Some x => x
        | None => "N/A"
        end
      /\ publish_date_label ui = Some (created_at d)
  end.

(** What every state of the panel satisfies, beyond [cascade_inv]. *)
Record panel_inv (ui : Panel) : Prop := {
  pi_formats :
    map fst (items (render_combo ui))
    = sorted_set (available_formats (current_version_history ui));
  pi_no_sub_asset :
    Forall (fun v : hversion => asset_name v = None) (current_version_history ui);
  pi_hidden : asset_filter_visible ui = false;
  pi_asset_box : asset_filter_combo ui = QComboBox.empty;
  pi_versions :
    items (material_combo ui)
    = map (fun v => (display_code (currentText (render_combo ui)) v, Some v))
          (sort_desc (versions_in_format (currentText (render_combo ui))
                                         (current_version_history ui)));
  pi_labels : labels_ok ui
}.


(** The codes of the shots that the store files under the sequence
    [k], in the order of the query. *)
Definition in_sequence (k : string) (s : shot_row) : bool :=
  match sh_sequence s with
  | Some n => (n =? k)%string
  | None => false
  end.

Definition shots_of (k : string) (shots : list shot_row) : list string :=
  map sh_code (filter (in_sequence k) shots).

(** A project with two sequences and three shots. *)
Definition demo_queries : shot_queries :=
  mkShotQueries
    (fun _ => Some [mkSequenceRow 1 "SEQ02"; mkSequenceRow 2 "SEQ01"])
    (fun _ _ => Some [mkShotRow "SEQ01_sh020" (Some "SEQ01");
                      mkShotRow "SEQ02_sh010" (Some "SEQ02");
                      mkShotRow "SEQ01_sh010" (Some "SEQ01")]).


(** What a reader of a quoted command makes of its text: a backslash
    and the character after it stand for one character, a line feed
    when that character is the letter n and the character itself
    otherwise. *)
Fixpoint unescape (s : string) : string :=
  match s with
  | EmptyString => EmptyString
  | String c r =>
      if (c =? backslash)%char then
        match r with
        | EmptyString => String c EmptyString
        | String d r' =>
            if (d =? "n")%char then String line_feed (unescape r')
            else String d (unescape r')
        end
      else String c (unescape r)
  end.

(** The text that stands for one character after the three
    replacements. *)
Definition escape_char (c : ascii) : string :=
  if (c =? backslash)%char then String backslash (String backslash "")
  else if (c =? double_quote)%char then String backslash (String double_quote "")
  else if (c =? line_feed)%char then String backslash "n"
  else String c "".

(** The double quotes of [s] that no backslash escapes; [escaped] tells
    whether the character before the text is an escaping backslash. *)
Fixpoint bare_quotes (escaped : bool) (s : string) : nat :=
  match s with
  | EmptyString => 0
  | String c r =>
      if escaped then bare_quotes false r
      else if (c =? backslash)%char then bare_quotes true r
      else (if (c =? double_quote)%char then 1 else 0) + bare_quotes false r
  end.


(** The first entry of the version box is the current one, and no
    entry of the box is newer than the version selected. *)
Definition newest_selected (ui : Panel) : Prop :=
  currentItem (material_combo ui) = hd_error (items (material_combo ui))
  /\ forall v, currentData (material_combo ui) = Some v ->
       forall s u, In (s, Some u) (items (material_combo ui)) ->
                   (created_at u <= created_at v)%Z.

End MoreNotions.

(** * Properties *)

(** ** Strings *)

Module StrFacts.
Import PyStr.

Lemma append_nil_r (s : string) : (s ++ "")%string = s.
Proof. induction s; simpl; congruence. Qed.

Lemma append_assoc (a b c : string) :
  ((a ++ b) ++ c)%string = (a ++ (b ++ c))%string.
Proof. induction a; simpl; congruence. Qed.

Lemma startswith_iff (t s : string) :
  startswith t s = true <-> exists post, s = (t ++ post)%string.
Proof.
  unfold startswith. revert s.
  induction t as [|c t IH]; intros s; simpl.
  - destruct s; split; intros; eauto.
  - destruct s as [|d s].
    + split; [discriminate | intros [post H]; discriminate].
    + simpl. destruct (ascii_dec c d) as [->|Hne].
      * rewrite IH. split; intros [post H]; exists post.
        -- now subst.
        -- now inversion H.
      * split; [discriminate | intros [post H]; inversion H; congruence].
Qed.

Lemma is_empty_true (s : string) : is_empty s = true -> s = "".
Proof. destruct s; simpl; congruence. Qed.

Lemma is_empty_false (s : string) : is_empty s = false -> s <> "".
Proof. destruct s; simpl; congruence. Qed.


Lemma append_length (a b : string) :
  String.length (a ++ b) = String.length a + String.length b.
Proof. induction a as [|c a IH]; simpl; [reflexivity | now rewrite IH]. Qed.

End StrFacts.

(** ** Characters, digits and white space *)

Module CharFacts.
Import PyStr Notions StrFacts.

Lemma strip_prefix_iff (p s r : string) :
  strip_prefix p s = Some r <-> s = (p ++ r)%string.
Proof.
  revert s. induction p as [|a p IH]; intros s; simpl.
  - split; congruence.
  - destruct s as [|b s]; [split; discriminate|].
    destruct (Ascii.eqb_spec a b) as [->|Hne].
    + rewrite IH. split; congruence.
    + split; [discriminate | congruence].
Qed.

Lemma app_eq_prefix (a b c d : string) :
  (a ++ b)%string = (c ++ d)%string ->
  exists t, a = (c ++ t)%string \/ c = (a ++ t)%string.
Proof.
  revert c. induction a as [|x a IH]; intros c H; simpl in *.
  - exists c. now right.
  - destruct c as [|y c]; simpl in *.
    + exists (String x a). now left.
    + injection H as -> H. destruct (IH c H) as [t [->| ->]]; exists t; auto.
Qed.

Lemma append_cancel (a b c : string) :
  (a ++ b)%string = (a ++ c)%string -> b = c.
Proof. induction a; simpl; [auto | intros [= H]; auto]. Qed.

Lemma append_eq_nil (a b : string) : (a ++ b)%string = "" -> a = "" /\ b = "".
Proof. destruct a; simpl; [auto | discriminate]. Qed.

Section Table.

Context {V : Type} (eqv : V -> V -> bool) (table : list (string * V)).

Lemma char_at_some (s ch : string) (v : V) (r : string) :
  char_at table s = Some (ch, v, r) -> In (ch, v) table /\ s = (ch ++ r)%string.
Proof.
  induction table as [|[c w] t IH]; simpl; [discriminate|].
  destruct (strip_prefix c s) as [r'|] eqn:E.
  - intros [= -> -> ->]. split; [now left | now apply strip_prefix_iff].
  - intros H. destruct (IH H) as [Hin Hs]. split; [now right | exact Hs].
Qed.

Lemma char_at_none (s : string) :
  char_at table s = None <->
  forall ch v r, In (ch, v) table -> s <> (ch ++ r)%string.
Proof.
  induction table as [|[c w] t IH]; simpl.
  - split; [intros _ ch v r [] | reflexivity].
  - destruct (strip_prefix c s) as [r'|] eqn:E.
    + split; [discriminate|]. intros H. apply strip_prefix_iff in E.
      exfalso. exact (H c w r' (or_introl eq_refl) E).
    + rewrite IH. split.
      * intros H ch v r [[= <- <-]|Hin] Hs.
        -- apply strip_prefix_iff in Hs. congruence.
        -- exact (H ch v r Hin Hs).
      * intros H ch v r Hin. apply (H ch v r). now right.
Qed.

Hypothesis eqv_eq : forall a b, eqv a b = true -> a = b.
Hypothesis free : prefix_free eqv table = true.
Hypothesis full : no_empty_char table = true.

Lemma entries_apart (c1 c2 : string) (v1 v2 : V) (t : string) :
  In (c1, v1) table -> In (c2, v2) table -> c2 = (c1 ++ t)%string ->
  c1 = c2 /\ v1 = v2.
Proof.
  intros H1 H2 E. unfold prefix_free in free.
  rewrite forallb_forall in free. specialize (free _ H1).
  rewrite forallb_forall in free. specialize (free _ H2).
  unfold entry_clash in free. simpl in free.
  assert (P : startswith c1 c2 = true) by (apply startswith_iff; now exists t).
  rewrite P in free. simpl in free. rewrite negb_involutive in free.
  apply andb_prop in free as [Hc Hv]. apply String.eqb_eq in Hc. auto.
Qed.

Lemma char_at_found (ch : string) (v : V) (r : string) :
  In (ch, v) table -> char_at table (ch ++ r) = Some (ch, v, r).
Proof.
  intros Hin. destruct (char_at table (ch ++ r)) as [[[c w] r']|] eqn:E.
  - destruct (char_at_some _ _ _ _ E) as [Hc Hs].
    destruct (app_eq_prefix _ _ _ _ Hs) as [t [Ht|Ht]].
    + destruct (entries_apart _ _ _ _ t Hc Hin Ht) as [<- <-].
      now apply append_cancel in Hs as <-.
    + destruct (entries_apart _ _ _ _ t Hin Hc Ht) as [<- <-].
      now apply append_cancel in Hs as <-.
  - exfalso. exact (proj1 (char_at_none _) E ch v r Hin eq_refl).
Qed.

Lemma entry_not_empty (ch : string) (v : V) : In (ch, v) table -> ch <> "".
Proof.
  intros Hin. unfold no_empty_char in full. rewrite forallb_forall in full.
  specialize (full _ Hin). simpl in full. now destruct ch.
Qed.

End Table.

(** *** Decimal digits *)

Lemma decimal_free : prefix_free N.eqb decimal_digits = true.
Proof. vm_compute. reflexivity. Qed.

Lemma decimal_full : no_empty_char decimal_digits = true.
Proof. vm_compute. reflexivity. Qed.

Lemma decimal_bytes : forallb (fun e => digit_bytes (fst e)) decimal_digits = true.
Proof. vm_compute. reflexivity. Qed.

Lemma decimal_at_some (s ch : string) (v : N) (r : string) :
  decimal_at s = Some (ch, v, r) ->
  decimal_char ch v /\ s = (ch ++ r)%string /\ ch <> "".
Proof.
  intros H. destruct (char_at_some _ _ _ _ _ H) as [Hin Hs].
  repeat split; try assumption. exact (entry_not_empty _ decimal_full _ _ Hin).
Qed.

Lemma decimal_at_found (ch : string) (v : N) (r : string) :
  decimal_char ch v -> decimal_at (ch ++ r) = Some (ch, v, r).
Proof.
  apply (char_at_found N.eqb); [|exact decimal_free].
  intros a b. apply N.eqb_eq.
Qed.

Lemma decimal_at_none (s : string) :
  decimal_at s = None <-> ~ starts_with_digit s.
Proof.
  unfold decimal_at. rewrite char_at_none. unfold starts_with_digit, decimal_char.
  split.
  - intros H (ch & v & r & Hin & Hs). exact (H ch v r Hin Hs).
  - intros H ch v r Hin Hs. apply H. now exists ch, v, r.
Qed.

Lemma decimal_at_digit (s : string) :
  decimal_at s <> None <-> starts_with_digit s.
Proof.
  split.
  - destruct (decimal_at s) as [[[ch v] r]|] eqn:E; [|congruence].
    intros _. destruct (decimal_at_some _ _ _ _ E) as (Hc & Hs & _).
    now exists ch, v, r.
  - intros H E. now apply decimal_at_none in E.
Qed.

Lemma decimal_at_empty : decimal_at "" = None.
Proof.
  apply decimal_at_none. intros (ch & v & r & Hc & Hs).
  symmetry in Hs. apply append_eq_nil in Hs as [-> _].
  exact (entry_not_empty _ decimal_full _ _ Hc eq_refl).
Qed.

Lemma decimal_at_shorter (s ch : string) (v : N) (r : string) :
  decimal_at s = Some (ch, v, r) -> String.length r < String.length s.
Proof.
  intros H. destruct (decimal_at_some _ _ _ _ H) as (_ & -> & Hne).
  rewrite append_length. destruct ch; [congruence | simpl; lia].
Qed.

(** An ASCII digit is a decimal digit of its value. *)
Lemma ascii_digit_decimal (c : ascii) :
  is_digit c = true ->
  decimal_char (String c "") (N.of_nat (nat_of_ascii c - 48)).
Proof.
  intros H.
  assert (E : decimal_at (String c "")
              = Some (String c "", N.of_nat (nat_of_ascii c - 48), "")).
  { destruct c as [[] [] [] [] [] [] [] []]; try discriminate H; reflexivity. }
  now apply decimal_at_some in E.
Qed.

Lemma decimal_string_ascii (d : string) :
  DataManager.all_digits d = true -> decimal_string d.
Proof.
  induction d as [|c d IH]; simpl; [constructor|].
  intros H. apply andb_prop in H as [Hc Hd].
  apply (decimal_cons (String c "") _ d (ascii_digit_decimal c Hc) (IH Hd)).
Qed.

Lemma decimal_string_app (a b : string) :
  decimal_string a -> decimal_string b -> decimal_string (a ++ b).
Proof.
  induction 1 as [|ch v d Hc _ IH]; intros Hb; simpl; [exact Hb|].
  rewrite append_assoc. econstructor; eauto.
Qed.

(** A decimal digit holds no ASCII byte unless it is an ASCII digit. *)
Lemma high_bytes_at (pre post : string) (x : ascii) :
  high_bytes (pre ++ String x post) = true -> 128 <= nat_of_ascii x.
Proof.
  induction pre as [|a pre IH]; cbn [append high_bytes]; intros H;
    apply andb_prop in H as [H1 H2].
  - now apply Nat.leb_le.
  - now apply IH.
Qed.

Lemma decimal_char_byte (pre post : string) (x : ascii) (v : N) :
  decimal_char (pre ++ String x post) v -> nat_of_ascii x < 128 ->
  pre = "" /\ post = "" /\ is_digit x = true.
Proof.
  intros Hc Hx. pose proof decimal_bytes as B. rewrite forallb_forall in B.
  specialize (B _ Hc). cbn [fst] in B. unfold digit_bytes in B.
  destruct pre as [|a pre]; cbn [append] in B.
  - destruct post as [|b post].
    + apply orb_prop in B as [B|B]; [auto|]. apply Nat.leb_le in B. lia.
    + cbn [high_bytes] in B. apply andb_prop in B as [B _].
      apply Nat.leb_le in B. lia.
  - assert (H : high_bytes (String a pre ++ String x post) = true).
    { cbn [append]. destruct (pre ++ String x post)%string eqn:E;
        [now destruct pre | exact B]. }
    apply (high_bytes_at (String a pre)) in H. lia.
Qed.

(** No digit begins where the text goes on with an ASCII character
    that is not a digit. *)
Lemma decimal_at_boundary (t z : string) (x : ascii) :
  decimal_at t = None -> nat_of_ascii x < 128 -> is_digit x = false ->
  decimal_at (t ++ String x z) = None.
Proof.
  intros Ht Hx Hd. apply decimal_at_none. intros (ch & v & r & Hc & Hs).
  destruct (app_eq_prefix _ _ _ _ Hs) as [u [Hu|Hu]].
  - subst t. apply decimal_at_none in Ht. apply Ht. now exists ch, v, u.
  - subst ch. rewrite append_assoc in Hs. apply append_cancel in Hs.
    destruct u as [|y u].
    + rewrite append_nil_r in Hc. apply decimal_at_none in Ht. apply Ht.
      exists t, v, "". now rewrite append_nil_r.
    + simpl in Hs. injection Hs as <- _.
      destruct (decimal_char_byte _ _ _ _ Hc Hx) as (_ & _ & Hdx). congruence.
Qed.

(** *** Runs of digits *)

Lemma scan_digits_fuel (n m : nat) (s : string) :
  String.length s <= n -> String.length s <= m ->
  scan_digits n s = scan_digits m s.
Proof.
  revert m s. induction n as [|n IH]; intros [|m] s Hn Hm; try reflexivity.
  - destruct s; [|simpl in Hn; lia]. simpl. rewrite ?decimal_at_empty. reflexivity.
  - destruct s; [|simpl in Hm; lia]. simpl. rewrite ?decimal_at_empty. reflexivity.
  - simpl. destruct (decimal_at s) as [[[ch v] r]|] eqn:E; [|reflexivity].
    apply decimal_at_shorter in E. rewrite (IH m r); [reflexivity | lia | lia].
Qed.

Lemma scan_digits_step (s : string) :
  scan_digits (String.length s) s
  = match decimal_at s with
    | Some (ch, _, r) =>
        let '(d, rest) := scan_digits (String.length r) r in
        ((ch ++ d)%string, rest)
    | None => (EmptyString, s)
    end.
Proof.
  destruct s as [|c s]; [simpl; rewrite ?decimal_at_empty; reflexivity|].
  cbn [String.length scan_digits].
  destruct (decimal_at (String c s)) as [[[ch v] r]|] eqn:E; [|reflexivity].
  apply decimal_at_shorter in E. simpl in E.
  rewrite (scan_digits_fuel (String.length s) (String.length r) r); [reflexivity | lia | lia].
Qed.

Lemma take_digits_step (s : string) :
  take_digits s
  = match decimal_at s with
    | Some (ch, _, r) => (ch ++ take_digits r)%string
    | None => EmptyString
    end.
Proof.
  unfold take_digits. rewrite scan_digits_step.
  destruct (decimal_at s) as [[[ch v] r]|]; [|reflexivity].
  now destruct (scan_digits _ r).
Qed.

Lemma drop_digits_step (s : string) :
  drop_digits s
  = match decimal_at s with
    | Some (_, _, r) => drop_digits r
    | None => s
    end.
Proof.
  unfold drop_digits. rewrite scan_digits_step.
  destruct (decimal_at s) as [[[ch v] r]|]; [|reflexivity].
  now destruct (scan_digits _ r).
Qed.

Lemma take_digits_app (d r : string) :
  decimal_string d -> take_digits (d ++ r) = (d ++ take_digits r)%string.
Proof.
  induction 1 as [|ch v d Hc _ IH]; [reflexivity|].
  rewrite append_assoc, take_digits_step, (decimal_at_found _ _ _ Hc), IH.
  now rewrite append_assoc.
Qed.

Lemma drop_digits_app (d r : string) :
  decimal_string d -> drop_digits (d ++ r) = drop_digits r.
Proof.
  induction 1 as [|ch v d Hc _ IH]; [reflexivity|].
  now rewrite append_assoc, drop_digits_step, (decimal_at_found _ _ _ Hc), IH.
Qed.

Lemma take_digits_none (r : string) :
  take_digits r = "" <-> ~ starts_with_digit r.
Proof.
  rewrite <- decimal_at_none, take_digits_step.
  destruct (decimal_at r) as [[[ch v] r']|] eqn:E; split; try congruence.
  intros H. apply append_eq_nil in H as [-> _].
  now destruct (decimal_at_some _ _ _ _ E) as (_ & _ & Hne).
Qed.

Lemma drop_digits_none (r : string) : ~ starts_with_digit r -> drop_digits r = r.
Proof.
  intros H. apply decimal_at_none in H. now rewrite drop_digits_step, H.
Qed.

(** The digits taken, and what is left. *)
Lemma take_drop_digits (s : string) :
  s = (take_digits s ++ drop_digits s)%string
  /\ decimal_string (take_digits s)
  /\ ~ starts_with_digit (drop_digits s).
Proof.
  remember (String.length s) as n eqn:Hn. revert s Hn.
  induction n as [n IH] using lt_wf_ind. intros s Hn.
  rewrite take_digits_step, drop_digits_step.
  destruct (decimal_at s) as [[[ch v] r]|] eqn:E.
  - pose proof (decimal_at_shorter _ _ _ _ E) as Hl.
    destruct (decimal_at_some _ _ _ _ E) as (Hc & Hs & _).
    destruct (IH (String.length r) ltac:(lia) r eq_refl) as (H1 & H2 & H3).
    split; [|split].
    + rewrite append_assoc, <- H1. exact Hs.
    + econstructor; eauto.
    + exact H3.
  - split; [reflexivity|]. split; [constructor | now apply decimal_at_none].
Qed.

Lemma digits_after_v_run (d r : string) :
  decimal_string d -> ~ starts_with_digit r ->
  digits_after_v (String "v" (d ++ r)) = d
  /\ after_version (String "v" (d ++ r)) = r.
Proof.
  intros Hd Hr. simpl.
  rewrite take_digits_app, drop_digits_app by assumption.
  rewrite (proj2 (take_digits_none r) Hr), append_nil_r.
  split; [reflexivity | now apply drop_digits_none].
Qed.

(** *** [int] *)

Lemma int_acc_fuel (n m : nat) (acc : N) (s : string) :
  String.length s <= n -> String.length s <= m ->
  int_acc n acc s = int_acc m acc s.
Proof.
  revert m acc s. induction n as [|n IH]; intros [|m] acc s Hn Hm; try reflexivity.
  - destruct s; [|simpl in Hn; lia]. simpl. rewrite ?decimal_at_empty. reflexivity.
  - destruct s; [|simpl in Hm; lia]. simpl. rewrite ?decimal_at_empty. reflexivity.
  - simpl. destruct (decimal_at s) as [[[ch v] r]|] eqn:E; [|reflexivity].
    apply decimal_at_shorter in E. apply IH; lia.
Qed.

Lemma int_acc_step (acc : N) (s : string) :
  int_acc (String.length s) acc s
  = match decimal_at s with
    | Some (_, v, r) => int_acc (String.length r) (10 * acc + v)%N r
    | None => acc
    end.
Proof.
  destruct s as [|c s]; [simpl; rewrite ?decimal_at_empty; reflexivity|].
  cbn [String.length int_acc].
  destruct (decimal_at (String c s)) as [[[ch v] r]|] eqn:E; [|reflexivity].
  apply decimal_at_shorter in E. simpl in E. apply int_acc_fuel; lia.
Qed.

Lemma int_acc_snoc (d ch : string) (v acc : N) :
  decimal_string d -> decimal_char ch v ->
  int_acc (String.length (d ++ ch)) acc (d ++ ch)
  = (10 * int_acc (String.length d) acc d + v)%N.
Proof.
  intros Hd Hc. revert acc. induction Hd as [|c w d Hcw _ IH]; intros acc.
  - cbn [append String.length int_acc].
    assert (E : decimal_at ch = Some (ch, v, ""))
      by (rewrite <- (append_nil_r ch) at 1; now apply decimal_at_found).
    rewrite int_acc_step, E. reflexivity.
  - rewrite append_assoc, int_acc_step, (decimal_at_found _ _ _ Hcw), IH.
    now rewrite (int_acc_step acc (c ++ d)), (decimal_at_found _ _ _ Hcw).
Qed.

Lemma int_of_digits_snoc (d ch : string) (v : N) :
  decimal_string d -> decimal_char ch v ->
  int_of_digits (d ++ ch) = (10 * int_of_digits d + v)%N.
Proof. intros Hd Hc. now apply int_acc_snoc. Qed.

Lemma int_of_digits_zero (ch d : string) :
  decimal_char ch 0 -> int_of_digits (ch ++ d) = int_of_digits d.
Proof.
  intros Hc. unfold int_of_digits.
  now rewrite int_acc_step, (decimal_at_found _ _ _ Hc).
Qed.


(** *** White space *)

Lemma spaces_free : prefix_free (fun _ _ : unit => true) spaces = true.
Proof. vm_compute. reflexivity. Qed.

Lemma spaces_full : no_empty_char spaces = true.
Proof. vm_compute. reflexivity. Qed.

Lemma space_at_some (s ch : string) (u : unit) (r : string) :
  space_at s = Some (ch, u, r) ->
  space_char ch /\ s = (ch ++ r)%string /\ ch <> "".
Proof.
  intros H. destruct (char_at_some _ _ _ _ _ H) as [Hin Hs]. destruct u.
  repeat split; try assumption. exact (entry_not_empty _ spaces_full _ _ Hin).
Qed.

Lemma space_at_found (ch r : string) :
  space_char ch -> space_at (ch ++ r) = Some (ch, tt, r).
Proof.
  apply (char_at_found (fun _ _ : unit => true)); [|exact spaces_free].
  now intros [] [].
Qed.

Lemma space_at_none (s : string) : space_at s = None <-> ~ starts_with_space s.
Proof.
  unfold space_at. rewrite char_at_none. unfold starts_with_space, space_char.
  split.
  - intros H (ch & r & Hin & Hs). exact (H ch tt r Hin Hs).
  - intros H ch [] r Hin Hs. apply H. now exists ch, r.
Qed.

Lemma space_at_empty : space_at "" = None.
Proof.
  apply space_at_none. intros (ch & r & Hc & Hs).
  symmetry in Hs. apply append_eq_nil in Hs as [-> _].
  exact (entry_not_empty _ spaces_full _ _ Hc eq_refl).
Qed.

Lemma space_at_shorter (s ch : string) (u : unit) (r : string) :
  space_at s = Some (ch, u, r) -> String.length r < String.length s.
Proof.
  intros H. destruct (space_at_some _ _ _ _ H) as (_ & -> & Hne).
  rewrite append_length. destruct ch; [congruence | simpl; lia].
Qed.

Lemma space_string_app (a b : string) :
  space_string a -> space_string b -> space_string (a ++ b).
Proof.
  induction 1 as [|ch s Hc _ IH]; intros Hb; simpl; [exact Hb|].
  rewrite append_assoc. constructor; auto.
Qed.

Lemma lstrip_fuel_enough (n m : nat) (s : string) :
  String.length s <= n -> String.length s <= m ->
  lstrip_fuel n s = lstrip_fuel m s.
Proof.
  revert m s. induction n as [|n IH]; intros [|m] s Hn Hm; try reflexivity.
  - destruct s; [|simpl in Hn; lia]. simpl. rewrite ?space_at_empty. reflexivity.
  - destruct s; [|simpl in Hm; lia]. simpl. rewrite ?space_at_empty. reflexivity.
  - simpl. destruct (space_at s) as [[[ch v] r]|] eqn:E; [|reflexivity].
    apply space_at_shorter in E. apply IH; lia.
Qed.

Lemma lstrip_step (s : string) :
  lstrip s
  = match space_at s with
    | Some (_, _, r) => lstrip r
    | None => s
    end.
Proof.
  unfold lstrip.
  destruct s as [|c s]; [simpl; rewrite ?space_at_empty; reflexivity|].
  cbn [String.length lstrip_fuel].
  destruct (space_at (String c s)) as [[[ch v] r]|] eqn:E; [|reflexivity].
  apply space_at_shorter in E. simpl in E. apply lstrip_fuel_enough; lia.
Qed.

(** [lstrip] removes a run of white space, and what it leaves does not
    start with white space. *)
Lemma lstrip_spec (s : string) :
  exists l, s = (l ++ lstrip s)%string /\ space_string l
            /\ ~ starts_with_space (lstrip s).
Proof.
  remember (String.length s) as n eqn:Hn. revert s Hn.
  induction n as [n IH] using lt_wf_ind. intros s Hn.
  rewrite lstrip_step. destruct (space_at s) as [[[ch v] r]|] eqn:E.
  - pose proof (space_at_shorter _ _ _ _ E) as Hl.
    destruct (space_at_some _ _ _ _ E) as (Hc & Hs & _).
    destruct (IH (String.length r) ltac:(lia) r eq_refl) as (l & H1 & H2 & H3).
    exists (ch ++ l)%string. split; [|split].
    + rewrite append_assoc, <- H1. exact Hs.
    + now constructor.
    + exact H3.
  - exists "". split; [reflexivity|]. split; [constructor | now apply space_at_none].
Qed.

Lemma lstrip_spaces (l r : string) : space_string l -> lstrip (l ++ r) = lstrip r.
Proof.
  induction 1 as [|ch s Hc _ IH]; [reflexivity|].
  now rewrite append_assoc, lstrip_step, (space_at_found _ _ Hc).
Qed.

Lemma lstrip_empty (s : string) : lstrip s = "" <-> space_string s.
Proof.
  split.
  - intros H. destruct (lstrip_spec s) as (l & Hs & Hl & _).
    rewrite H, append_nil_r in Hs. now subst.
  - intros H. rewrite <- (append_nil_r s). now rewrite lstrip_spaces.
Qed.

Lemma lstrip_length (s : string) : String.length (lstrip s) <= String.length s.
Proof.
  destruct (lstrip_spec s) as (l & Hs & _).
  rewrite Hs at 2. rewrite append_length. lia.
Qed.

(** [rstrip] removes a run of white space, and what it leaves does not
    end with white space. *)
Lemma rstrip_spec (s : string) :
  exists r, s = (rstrip s ++ r)%string /\ space_string r
            /\ ~ ends_with_space (rstrip s).
Proof.
  induction s as [|c t IH].
  - exists "". split; [reflexivity|]. split; [constructor|].
    intros (r & ch & Hc & Hs). symmetry in Hs. apply append_eq_nil in Hs as [_ ->].
    exact (entry_not_empty _ spaces_full _ _ Hc eq_refl).
  - cbn [rstrip]. destruct (is_empty (lstrip (String c t))) eqn:E.
    + apply is_empty_true, lstrip_empty in E. exists (String c t).
      split; [reflexivity|]. split; [exact E|].
      intros (r & ch & Hc & Hs). symmetry in Hs. apply append_eq_nil in Hs as [_ ->].
      exact (entry_not_empty _ spaces_full _ _ Hc eq_refl).
    + destruct IH as (r & Ht & Hr & Hend). exists r.
      split; [simpl; now rewrite <- Ht|]. split; [exact Hr|].
      intros (q & ch & Hc & Hs). destruct q as [|a q]; simpl in Hs.
      * apply is_empty_false in E. apply E, lstrip_empty.
        rewrite Ht. change (String c (rstrip t ++ r)) with (String c (rstrip t) ++ r)%string.
        rewrite Hs. now constructor.
      * injection Hs as _ Hs. apply Hend. now exists q, ch.
Qed.

Lemma rstrip_length (s : string) : String.length (rstrip s) <= String.length s.
Proof.
  destruct (rstrip_spec s) as (r & Hs & _).
  rewrite Hs at 2. rewrite append_length. lia.
Qed.

Lemma starts_with_space_app (s r : string) :
  starts_with_space s -> starts_with_space (s ++ r).
Proof.
  intros (ch & t & Hc & ->). exists ch, (t ++ r)%string. now rewrite append_assoc.
Qed.

(** [strip] removes a run of white space at either end, and what it
    leaves neither starts nor ends with white space. *)
Lemma strip_spec (s : string) :
  exists l r, s = (l ++ strip s ++ r)%string
              /\ space_string l /\ space_string r
              /\ ~ starts_with_space (strip s) /\ ~ ends_with_space (strip s).
Proof.
  unfold strip.
  destruct (lstrip_spec s) as (l & Hs & Hl & Hstart).
  destruct (rstrip_spec (lstrip s)) as (r & Hm & Hr & Hend).
  exists l, r. split; [now rewrite <- Hm|]. repeat split; try assumption.
  intros H. apply Hstart. rewrite Hm. now apply starts_with_space_app.
Qed.

Lemma strip_length (s : string) : String.length (strip s) <= String.length s.
Proof.
  unfold strip. pose proof (rstrip_length (lstrip s)). pose proof (lstrip_length s). lia.
Qed.

End CharFacts.

(** ** Version segments *)

Module VersionFacts.
Import PyStr DataManager UI Notions StrFacts CharFacts.

(** A match of [v\d+] at the start of a text. *)
Lemma digits_after_v_some (r : string) :
  digits_after_v r <> ""
  <-> exists post, r = String "v" post /\ starts_with_digit post.
Proof.
  destruct r as [|c r]; simpl.
  - split; [congruence | intros (post & H & _); discriminate].
  - destruct (Ascii.eqb_spec c "v") as [->|Hne].
    + split.
      * intros H. exists r. split; [reflexivity|].
        destruct (decimal_at r) eqn:E; [now apply decimal_at_digit; rewrite E|].
        apply decimal_at_none, take_digits_none in E. contradiction.
      * intros (post & Hp & Hd) Hn. injection Hp as <-.
        now apply take_digits_none in Hn.
    + split; [congruence | intros (post & [= ->] & _); congruence].
Qed.

Lemma digits_after_v_none (r : string) :
  digits_after_v r = ""
  <-> forall post, r = String "v" post -> ~ starts_with_digit post.
Proof.
  split.
  - intros H post Hr Hd. apply (proj2 (digits_after_v_some r)); eauto.
  - intros H. destruct (string_dec (digits_after_v r) "") as [E|E]; [exact E|].
    apply digits_after_v_some in E as (post & Hr & Hd). now apply H in Hr.
Qed.

Lemma starts_with_digit_app (s r : string) :
  starts_with_digit s -> starts_with_digit (s ++ r).
Proof.
  intros (ch & v & t & Hc & ->). exists ch, v, (t ++ r)%string.
  now rewrite append_assoc.
Qed.

(** No match of [v\d+] begins where the text goes on with an ASCII
    character that is neither a digit nor the letter v. *)
Lemma digits_after_v_boundary (c z : string) (x : ascii) :
  digits_after_v c = "" -> nat_of_ascii x < 128 -> is_digit x = false ->
  x <> "v"%char -> digits_after_v (c ++ String x z) = "".
Proof.
  intros Hc Hx Hd Hv. destruct c as [|a t]; simpl in *.
  - destruct (Ascii.eqb_spec x "v"); [contradiction | reflexivity].
  - destruct (a =? "v")%char; [|reflexivity].
    apply take_digits_none, decimal_at_none. apply decimal_at_boundary; auto.
    now apply decimal_at_none, take_digits_none.
Qed.

Lemma nil_not_app (a : string) (x : ascii) (b : string) :
  "" <> (a ++ String x b)%string.
Proof. now destruct a. Qed.

Lemma underscore_plain : nat_of_ascii "_" < 128.
Proof. apply Nat.ltb_lt. reflexivity. Qed.

(** *** The code: [_v(\d+)] *)

Lemma no_version_nil : no_version "".
Proof.
  intros pre post H. exfalso.
  change ((pre ++ "_v" ++ post)%string) with ((pre ++ String "_" ("v" ++ post))%string) in H.
  exact (nil_not_app _ _ _ H).
Qed.

Lemma no_version_cons (c : ascii) (r : string) :
  no_version (String c r)
  <-> (c = "_"%char -> digits_after_v r = "") /\ no_version r.
Proof.
  split.
  - intros H. split.
    + intros ->. apply digits_after_v_none. intros post ->.
      exact (H "" post eq_refl).
    + intros pre post ->. exact (H (String c pre) post eq_refl).
  - intros [H1 H2] pre post E. destruct pre as [|a pre]; simpl in E.
    + injection E as -> ->. specialize (H1 eq_refl).
      exact (proj1 (digits_after_v_none _) H1 post eq_refl).
    + injection E as _ ->. exact (H2 pre post eq_refl).
Qed.

Lemma search_version_none (s : string) : search_version s = None <-> no_version s.
Proof.
  induction s as [|c s IH]; simpl.
  - split; [intros _; exact no_version_nil | reflexivity].
  - rewrite no_version_cons, <- IH.
    destruct (Ascii.eqb_spec c "_") as [->|Hne]; simpl.
    + destruct (digits_after_v s) eqn:E; simpl.
      * tauto.
      * split; [discriminate | intros [H _]; now specialize (H eq_refl)].
    + tauto.
Qed.

Lemma search_version_found (s c1 d c2 : string) :
  leftmost_version s c1 d c2 -> search_version s = Some d.
Proof.
  intros (-> & Hc1 & [Hne Hd] & Hc2).
  destruct (digits_after_v_run d c2 Hd Hc2) as [Hrun _].
  induction c1 as [|a p IH].
  - cbn [append search_version]. change (("v" ++ d ++ c2)%string) with (String "v" (d ++ c2)).
    rewrite Hrun. destruct d; [congruence | reflexivity].
  - apply no_version_cons in Hc1 as [Ha Hp].
    cbn [append search_version].
    destruct (Ascii.eqb_spec a "_") as [->|Hna]; simpl; [|now apply IH].
    change ((p ++ "_v" ++ d ++ c2)%string) with ((p ++ String "_" ("v" ++ d ++ c2))%string).
    rewrite (digits_after_v_boundary p _ "_" (Ha eq_refl) underscore_plain eq_refl)
      by discriminate.
    simpl. now apply IH.
Qed.

Lemma search_version_cover (s : string) :
  no_version s \/ exists c1 d c2, leftmost_version s c1 d c2.
Proof.
  induction s as [|c s IH].
  - left. exact no_version_nil.
  - destruct (string_dec (digits_after_v s) "") as [E|E].
    + destruct IH as [IH|(c1 & d & c2 & -> & Hc1 & [Hne0 Hd] & Hc2)].
      * left. apply no_version_cons. auto.
      * right. exists (String c c1), d, c2. repeat split; try assumption.
        apply no_version_cons. split; [|exact Hc1]. intros _.
        apply digits_after_v_none. intros post Hp Hdig.
        apply (proj1 (digits_after_v_none _) E (post ++ "_v" ++ d ++ c2)%string).
        -- rewrite Hp. reflexivity.
        -- now apply starts_with_digit_app.
    + destruct (Ascii.eqb_spec c "_") as [->|Hne].
      * right. apply digits_after_v_some in E as (post & -> & Hdig).
        destruct (take_drop_digits post) as (Hs & Hd & Hr).
        exists "", (take_digits post), (drop_digits post).
        split; [simpl; now rewrite <- Hs|]. split; [exact no_version_nil|].
        split; [|exact Hr]. split; [|exact Hd].
        intros H. now apply take_digits_none in H.
      * destruct IH as [IH|(c1 & d & c2 & -> & Hc1 & [Hne0 Hd] & Hc2)].
        -- left. apply no_version_cons. split; [congruence | exact IH].
        -- right. exists (String c c1), d, c2. repeat split; try assumption.
           apply no_version_cons. split; [congruence | exact Hc1].
Qed.

(** *** The replacement in the code: [re.sub(r'_v\d+', repl, s, 1)] *)

Lemma sub_first_version_found (repl s c1 d c2 : string) :
  leftmost_version s c1 d c2 ->
  sub_first_version repl s = (c1 ++ repl ++ c2)%string.
Proof.
  intros (-> & Hc1 & [Hne Hd] & Hc2).
  destruct (digits_after_v_run d c2 Hd Hc2) as [Hrun Hafter].
  induction c1 as [|a p IH].
  - cbn [append sub_first_version].
    change (("v" ++ d ++ c2)%string) with (String "v" (d ++ c2)).
    rewrite Hrun, Hafter. destruct d; [congruence | reflexivity].
  - apply no_version_cons in Hc1 as [Ha Hp].
    cbn [append sub_first_version].
    destruct (Ascii.eqb_spec a "_") as [->|Hna]; cbn [andb];
      [|f_equal; now apply IH].
    change ((p ++ "_v" ++ d ++ c2)%string) with ((p ++ String "_" ("v" ++ d ++ c2))%string).
    rewrite (digits_after_v_boundary p _ "_" (Ha eq_refl) underscore_plain eq_refl)
      by discriminate.
    cbn [andb negb is_empty]. f_equal. now apply IH.
Qed.

Lemma sub_first_version_none (repl s : string) :
  no_version s -> sub_first_version repl s = s.
Proof.
  induction s as [|c s IH]; [reflexivity|].
  intros H. apply no_version_cons in H as [Hc Hs]. cbn [sub_first_version].
  destruct (Ascii.eqb_spec c "_") as [->|Hne]; simpl.
  - rewrite (Hc eq_refl). simpl. now rewrite IH.
  - now rewrite IH.
Qed.

(** *** The path: [[/_](v\d+)] *)

Lemma version_lead_plain (sep : ascii) :
  is_version_lead sep = true ->
  nat_of_ascii sep < 128 /\ is_digit sep = false /\ sep <> "v"%char.
Proof.
  unfold is_version_lead. intros H. apply orb_true_iff in H as [H|H];
    apply Ascii.eqb_eq in H; subst; repeat split;
    first [apply Nat.ltb_lt; reflexivity | discriminate].
Qed.

Lemma no_segment_nil : no_segment "".
Proof. intros pre sep post H. exfalso. exact (nil_not_app _ _ _ H). Qed.

Lemma no_segment_cons (c : ascii) (r : string) :
  no_segment (String c r)
  <-> (is_version_lead c = true -> digits_after_v r = "") /\ no_segment r.
Proof.
  split.
  - intros H. split.
    + intros Hc. apply digits_after_v_none. intros post ->.
      exact (H "" c post eq_refl Hc).
    + intros pre sep post ->. exact (H (String c pre) sep post eq_refl).
  - intros [H1 H2] pre sep post E Hsep. destruct pre as [|a pre]; simpl in E.
    + injection E as -> ->. specialize (H1 Hsep).
      exact (proj1 (digits_after_v_none _) H1 post eq_refl).
    + injection E as _ ->. exact (H2 pre sep post eq_refl Hsep).
Qed.

Lemma search_path_version_none (p : string) :
  search_path_version p = None <-> no_segment p.
Proof.
  induction p as [|c s IH]; simpl.
  - split; [intros _; exact no_segment_nil | reflexivity].
  - rewrite no_segment_cons, <- IH.
    destruct (is_version_lead c); simpl.
    + destruct (digits_after_v s) eqn:E; simpl.
      * tauto.
      * split; [discriminate | intros [H _]; now specialize (H eq_refl)].
    + split; [intros H; split; [discriminate | exact H] | tauto].
Qed.

Lemma search_path_version_found (p pre : string) (sep : ascii) (d rest : string) :
  leftmost_segment p pre sep d rest ->
  search_path_version p = Some (String "v" d).
Proof.
  intros (-> & Hsep & Hpre & [Hne Hd] & Hr).
  destruct (digits_after_v_run d rest Hd Hr) as [Hrun _].
  destruct (version_lead_plain sep Hsep) as (Hs0 & Hs1 & Hs2).
  induction pre as [|a q IH].
  - cbn [append search_path_version]. rewrite Hsep, Hrun.
    destruct d; [congruence | reflexivity].
  - apply no_segment_cons in Hpre as [Ha Hq].
    cbn [append search_path_version].
    destruct (is_version_lead a) eqn:Ea; simpl; [|now apply IH].
    rewrite (digits_after_v_boundary q _ sep (Ha eq_refl) Hs0 Hs1 Hs2).
    simpl. now apply IH.
Qed.

Lemma search_path_version_cover (p : string) :
  no_segment p \/ exists pre sep d rest, leftmost_segment p pre sep d rest.
Proof.
  induction p as [|c s IH].
  - left. exact no_segment_nil.
  - destruct (string_dec (digits_after_v s) "") as [E|E].
    + destruct IH as [IH|(pre & sep & d & rest & -> & Hsep & Hpre & [Hne0 Hd] & Hr)].
      * left. apply no_segment_cons. auto.
      * right. exists (String c pre), sep, d, rest. repeat split; try assumption.
        apply no_segment_cons. split; [|exact Hpre]. intros _.
        apply digits_after_v_none. intros post Hp Hdig.
        apply (proj1 (digits_after_v_none _) E
                     (post ++ String sep (String "v" (d ++ rest)))%string).
        -- rewrite Hp. reflexivity.
        -- now apply starts_with_digit_app.
    + destruct (is_version_lead c) eqn:Ec.
      * right. apply digits_after_v_some in E as (post & -> & Hdig).
        destruct (take_drop_digits post) as (Hs & Hd & Hr).
        exists "", c, (take_digits post), (drop_digits post).
        split; [simpl; now rewrite <- Hs|]. split; [exact Ec|].
        split; [exact no_segment_nil|].
        split; [|exact Hr]. split; [|exact Hd].
        intros H. now apply take_digits_none in H.
      * destruct IH as [IH|(pre & sep & d & rest & -> & Hsep & Hpre & [Hne0 Hd] & Hr)].
        -- left. apply no_segment_cons. split; [congruence | exact IH].
        -- right. exists (String c pre), sep, d, rest. repeat split; try assumption.
           apply no_segment_cons. split; [congruence | exact Hpre].
Qed.

End VersionFacts.

(** ** Categorization *)

Module CategorizeFacts.
Import PyStr DataManager StrFacts Notions.

Lemma occurs_at_0 (t s : string) :
  occurs_at t s 0 <-> startswith t s = true.
Proof.
  rewrite startswith_iff. split.
  - intros (pre & post & -> & Hl). destruct pre; [|discriminate].
    now exists post.
  - intros [post ->]. now exists "", post.
Qed.

Lemma occurs_at_S (t : string) (c : ascii) (s : string) (n : nat) :
  occurs_at t (String c s) (S n) <-> occurs_at t s n.
Proof.
  split.
  - intros (pre & post & H & Hl). destruct pre as [|d pre]; [discriminate|].
    simpl in *. inversion H; subst. exists pre, post. split; [reflexivity|lia].
  - intros (pre & post & -> & Hl). exists (String c pre), post.
    split; [reflexivity | simpl; lia].
Qed.

Lemma occurs_at_empty (t : string) (n : nat) :
  occurs_at t "" n -> n = 0.
Proof.
  intros (pre & post & H & Hl). destruct pre; [simpl in Hl; lia | discriminate].
Qed.

Lemma search_tokens_some (tokens : list string) (s t : string) :
  search_tokens tokens s = Some t -> leftmost_token tokens s t.
Proof.
  induction s as [|c s IH]; simpl.
  - destruct (find _ tokens) eqn:F; [|discriminate].
    intros [= ->]. apply find_some in F as [Hin Hp].
    split; [assumption|]. exists 0. split; [now apply occurs_at_0|lia].
  - destruct (find _ tokens) eqn:F.
    + intros [= ->]. apply find_some in F as [Hin Hp].
      split; [assumption|]. exists 0. split; [now apply occurs_at_0|lia].
    + intros H. destruct (IH H) as (Hin & n & Hocc & Hmin).
      split; [assumption|]. exists (S n). split; [now apply occurs_at_S|].
      intros t' [|n'] Hin' Hocc'.
      * apply occurs_at_0 in Hocc'.
        pose proof (find_none _ _ F t' Hin') as Hf. simpl in Hf. congruence.
      * apply occurs_at_S in Hocc'. specialize (Hmin t' n' Hin' Hocc'). lia.
Qed.

Lemma search_tokens_none (tokens : list string) (s : string) :
  search_tokens tokens s = None -> no_token tokens s.
Proof.
  induction s as [|c s IH]; simpl.
  - destruct (find _ tokens) eqn:F; [discriminate|].
    intros _ t n Hin Hocc. pose proof (occurs_at_empty _ _ Hocc); subst.
    apply occurs_at_0 in Hocc.
    pose proof (find_none _ _ F t Hin) as Hf. simpl in Hf. congruence.
  - destruct (find _ tokens) eqn:F; [discriminate|].
    intros H t [|n] Hin Hocc.
    + apply occurs_at_0 in Hocc.
      pose proof (find_none _ _ F t Hin) as Hf. simpl in Hf. congruence.
    + apply occurs_at_S in Hocc. exact (IH H t n Hin Hocc).
Qed.

(** C5 (as amended): for an Asset record the category is the
    asset-task token whose occurrence starts leftmost in the lower-cased
    code, and the sentinel asset_unknown when no token occurs; for a
    Shot record the same holds with the shot-task tokens and
    shot_unknown.  The category is set in both cases. *)
Theorem categorization_leftmost_match {G : Type} (v : version G) :
  (ent_type (entity v) = "Asset"
   -> categorized_by asset_tokens "asset_unknown" v)
  /\ (ent_type (entity v) = "Shot"
      -> categorized_by shot_tokens "shot_unknown" v).
Proof.
  unfold categorized_by, _categorize_version. split; intros E; rewrite E; simpl.
  - destruct (search_tokens asset_tokens (lower (code v))) eqn:S.
    + left. exists s. split; [reflexivity | now apply search_tokens_some].
    + right. split; [reflexivity | now apply search_tokens_none].
  - destruct (search_tokens shot_tokens (lower (code v))) eqn:S.
    + left. exists s. split; [reflexivity | now apply search_tokens_some].
    + right. split; [reflexivity | now apply search_tokens_none].
Qed.

Lemma categorization_leftmost_match_witness :
  ent_type (entity rig_of_model) = "Asset"
  /\ categorized_by asset_tokens "asset_unknown" rig_of_model.
Proof.
  split; [reflexivity|].
  apply (proj1 (categorization_leftmost_match rig_of_model)). reflexivity.
Defined.

(** C5 (as stated) fails: the code files this record under rig, the
    token found first in the code, while the declared order of the
    tokens puts mdl before rig. *)
Lemma categorization_priority_counterexample :
  ent_type (entity rig_of_model) = "Asset"
  /\ category (_categorize_version rig_of_model) = Some "rig"
  /\ Spec.priority_category asset_tokens "asset_unknown" (code rig_of_model) = "mdl"
  /\ category (_categorize_version rig_of_model)
     <> Some (Spec.priority_category asset_tokens "asset_unknown"
                                     (code rig_of_model)).
Proof. repeat split; try reflexivity. vm_compute. discriminate. Qed.

End CategorizeFacts.

(** ** Format tokens *)

Module FormatFacts.
Import PyStr UI StrFacts.

(** The examples of the specification. *)
Example format_bgeo : _get_file_format (PStr "a/b/file.bgeo.sc") = "bgeo.sc".
Proof. reflexivity. Qed.

Example format_abc : _get_file_format (PStr "a/file.abc") = "abc".
Proof. reflexivity. Qed.

Example format_none : _get_file_format (PStr "a/file") = "unknown".
Proof. reflexivity. Qed.

(** A value that is not a string has the token unknown. *)
Lemma format_of_non_string (v : pyval) :
  (forall s, v <> PStr s) -> _get_file_format v = "unknown".
Proof. destruct v; simpl; intros H; try reflexivity. now elim (H s). Qed.

(** A string without a dot has the token unknown. *)
Lemma format_without_dot (s : string) :
  has_char "." s = false -> _get_file_format (PStr s) = "unknown".
Proof.
  intros H. simpl. destruct (is_empty s); [reflexivity|].
  assert (E : endswith ".bgeo.sc" s = false).
  { clear -H. induction s as [|c s IH]; [reflexivity|].
    simpl in H. apply orb_false_iff in H as [Hc Hs].
    change (endswith ".bgeo.sc" (String c s))
      with (if (String c s =? ".bgeo.sc")%string then true
            else endswith ".bgeo.sc" s).
    destruct (String.eqb_spec (String c s) ".bgeo.sc") as [E|_].
    - inversion E; subst. discriminate.
    - now apply IH. }
  now rewrite E, H.
Qed.

(** C4: the code takes the text after the last dot of the whole path,
    directories included.  For a file without extension in a directory
    whose name has a dot it returns the tail of the directory name and
    the file name, where the specification has the token unknown. *)
Theorem format_token_dot_in_directory :
  _get_file_format (PStr "proj.v2/geo/file") = "v2/geo/file"
  /\ Spec.format_token "proj.v2/geo/file" = "unknown".
Proof. split; reflexivity. Qed.

End FormatFacts.

(** ** Latest selection *)

Module LatestFacts.
Import PyStr DataManager Notions.

Lemma option_string_eqb_spec (a b : option string) :
  reflect (a = b) (option_string_eqb a b).
Proof.
  destruct a as [x|], b as [y|]; simpl; try (constructor; congruence).
  destruct (String.eqb_spec x y); constructor; congruence.
Qed.

Lemma vkey_eqb_spec (a b : vkey) : reflect (a = b) (vkey_eqb a b).
Proof.
  destruct a as [[t1 i1] c1], b as [[t2 i2] c2]. unfold vkey_eqb.
  destruct (String.eqb_spec t1 t2); simpl; [|constructor; congruence].
  destruct (Z.eqb_spec i1 i2); simpl; [|constructor; congruence].
  destruct (option_string_eqb_spec c1 c2); constructor; congruence.
Qed.

Section Dict.
Context {V : Type}.
Implicit Types (d : pydict V) (k : vkey) (v : V).

Lemma dict_get_In k d v : dict_get k d = Some v -> In (k, v) d.
Proof.
  induction d as [|[k' v'] d IH]; simpl; [discriminate|].
  destruct (vkey_eqb_spec k k') as [->|_].
  - intros [= ->]. now left.
  - intros H. right. now apply IH.
Qed.

Lemma dict_get_None k d : dict_get k d = None -> ~ In k (map fst d).
Proof.
  induction d as [|[k' v'] d IH]; simpl; [tauto|].
  destruct (vkey_eqb_spec k k') as [->|Hne]; [discriminate|].
  intros H [E|Hin]; [congruence | now apply IH].
Qed.

Lemma In_dict_get k d v :
  NoDup (map fst d) -> In (k, v) d -> dict_get k d = Some v.
Proof.
  induction d as [|[k' v'] d IH]; simpl; [tauto|].
  intros N [E|Hin].
  - inversion E; subst. now destruct (vkey_eqb_spec k k).
  - inversion N; subst. destruct (vkey_eqb_spec k k') as [->|_].
    + elim H1. change k' with (fst (k', v)). now apply in_map.
    + now apply IH.
Qed.

Lemma dict_set_keys k v d :
  map fst (dict_set k v d)
  = match dict_get k d with
    | Some _ => map fst d
    | None => map fst d ++ [k]
    end.
Proof.
  induction d as [|[k' v'] d IH]; simpl; [reflexivity|].
  destruct (vkey_eqb_spec k k') as [->|_]; simpl; [reflexivity|].
  rewrite IH. now destruct (dict_get k d).
Qed.

Lemma dict_set_NoDup k v d :
  NoDup (map fst d) -> NoDup (map fst (dict_set k v d)).
Proof.
  intros N. rewrite dict_set_keys. destruct (dict_get k d) eqn:E; [assumption|].
  apply dict_get_None in E.
  apply NoDup_app; [assumption | repeat constructor; simpl; tauto |].
  intros x Hx [<-|[]]. contradiction.
Qed.

Lemma dict_get_set_same k v d : dict_get k (dict_set k v d) = Some v.
Proof.
  induction d as [|[k' v'] d IH]; simpl.
  - now destruct (vkey_eqb_spec k k).
  - destruct (vkey_eqb_spec k k') as [->|Hne]; simpl.
    + now destruct (vkey_eqb_spec k' k').
    + now destruct (vkey_eqb_spec k k').
Qed.

Lemma dict_get_set_other k k' v d :
  k' <> k -> dict_get k' (dict_set k v d) = dict_get k' d.
Proof.
  intros Hne. induction d as [|[k1 v1] d IH]; simpl.
  - now destruct (vkey_eqb_spec k' k).
  - destruct (vkey_eqb_spec k k1) as [->|Hne1]; simpl.
    + now destruct (vkey_eqb_spec k' k1).
    + now rewrite IH.
Qed.

Lemma dict_set_In k v d k' v' :
  NoDup (map fst d) -> In (k', v') (dict_set k v d) ->
  (k' = k /\ v' = v) \/ (k' <> k /\ In (k', v') d).
Proof.
  intros N H. destruct (vkey_eqb_spec k' k) as [->|Hne].
  - left. split; [reflexivity|].
    apply In_dict_get in H; [|now apply dict_set_NoDup].
    rewrite dict_get_set_same in H. congruence.
  - right. split; [assumption|].
    apply In_dict_get in H; [|now apply dict_set_NoDup].
    rewrite dict_get_set_other in H by assumption. now apply dict_get_In.
Qed.
End Dict.

Lemma latest_step_keep {G : Type} (d : pydict (version G)) (v : version G) :
  latest_step d v = keep_greater d (_categorize_version v).
Proof.
  unfold latest_step, keep_greater, version_number.
  now destruct (dict_get _ d).
Qed.

Lemma fold_latest_step {G : Type} (vs : list (version G)) (d : pydict (version G)) :
  fold_left latest_step vs d
  = fold_left keep_greater (map _categorize_version vs) d.
Proof.
  revert d. induction vs as [|v vs IH]; intros d; simpl; [reflexivity|].
  now rewrite latest_step_keep, IH.
Qed.

Lemma first_greatest_snoc {G : Type} (seen : list (version G)) (r v : version G) :
  first_greatest seen r ->
  (version_key v = version_key r -> (version_number v <= version_number r)%N) ->
  first_greatest (seen ++ [v]) r.
Proof.
  intros (pre & post & -> & Hpre & Hpost) Hv.
  exists pre, (post ++ [v]). split; [now rewrite <- app_assoc|].
  split; [assumption|].
  intros u Hu Hk. apply in_app_or in Hu as [Hu|[<-|[]]]; auto.
Qed.

Lemma first_greatest_bound {G : Type} (seen : list (version G)) (r u : version G) :
  first_greatest seen r -> In u seen -> version_key u = version_key r ->
  (version_number u <= version_number r)%N.
Proof.
  intros (pre & post & -> & Hpre & Hpost) Hu Hk.
  apply in_app_or in Hu as [Hu|[<-|Hu]].
  - specialize (Hpre u Hu Hk). lia.
  - lia.
  - now apply Hpost.
Qed.

Lemma keep_greater_inv {G : Type} (seen : list (version G))
      (d : pydict (version G)) (v : version G) :
  latest_inv seen d -> latest_inv (seen ++ [v]) (keep_greater d v).
Proof.
  intros [N K B C]. unfold keep_greater.
  destruct (dict_get (version_key v) d) as [e|] eqn:E.
  - pose proof (dict_get_In _ _ _ E) as He.
    pose proof (K _ _ He) as Hke.
    destruct (N.ltb_spec (version_number e) (version_number v)) as [Hlt|Hge].
    + (* the new record replaces the kept one *)
      split.
      * now apply dict_set_NoDup.
      * intros k r H. apply dict_set_In in H as [[-> ->]|[_ H]]; auto.
      * intros k r H. apply dict_set_In in H as [[-> ->]|[Hne H]]; [| |assumption].
        -- exists seen, []. split; [reflexivity|]. split; [|intros u []].
           intros u Hu Hk.
           pose proof (first_greatest_bound _ _ _ (B _ _ He) Hu) as Hb.
           rewrite <- Hke in Hb. specialize (Hb Hk). lia.
        -- apply first_greatest_snoc; [now apply (B k)|].
           intros Hk. elim Hne. rewrite (K _ _ H). now symmetry.
      * intros u Hu.
        destruct (vkey_eqb_spec (version_key u) (version_key v)) as [->|Hne].
        -- exists v. apply dict_get_set_same.
        -- rewrite dict_get_set_other by assumption.
           apply in_app_or in Hu as [Hu|[<-|[]]]; [now apply C | congruence].
    + (* the kept record stays *)
      split; [assumption | assumption | |].
      * intros k r H. apply first_greatest_snoc; [now apply (B k)|].
        intros Hk. pose proof (K _ _ H) as Hkr. subst k. rewrite <- Hk in H.
        apply In_dict_get in H; [|assumption].
        rewrite E in H. inversion H; subst. lia.
      * intros u Hu. apply in_app_or in Hu as [Hu|[<-|[]]]; [now apply C|].
        now exists e.
  - (* a new key *)
    pose proof (dict_get_None _ _ E) as Hnew.
    split.
    + now apply dict_set_NoDup.
    + intros k r H. apply dict_set_In in H as [[-> ->]|[_ H]]; auto.
    + intros k r H. apply dict_set_In in H as [[-> ->]|[Hne H]]; [| |assumption].
      * exists seen, []. split; [reflexivity|]. split; [|intros u []].
        intros u Hu Hk. destruct (C u Hu) as [r Hr].
        rewrite Hk in Hr. congruence.
      * apply first_greatest_snoc; [now apply (B k)|].
        intros Hk. elim Hne. rewrite (K _ _ H). now symmetry.
    + intros u Hu.
      destruct (vkey_eqb_spec (version_key u) (version_key v)) as [->|Hne].
      * exists v. apply dict_get_set_same.
      * rewrite dict_get_set_other by assumption.
        apply in_app_or in Hu as [Hu|[<-|[]]]; [now apply C | congruence].
Qed.

Lemma fold_keep_greater_inv {G : Type} (vs seen : list (version G))
      (d : pydict (version G)) :
  latest_inv seen d -> latest_inv (seen ++ vs) (fold_left keep_greater vs d).
Proof.
  revert seen d. induction vs as [|v vs IH]; intros seen d H; simpl.
  - now rewrite app_nil_r.
  - replace (seen ++ v :: vs) with ((seen ++ [v]) ++ vs)
      by now rewrite <- app_assoc.
    apply IH. now apply keep_greater_inv.
Qed.

Lemma latest_inv_nil {G : Type} : @latest_inv G [] [].
Proof.
  split; simpl; try tauto. constructor.
Qed.



(** The scenario of the specification: three versions of one asset
    and category, offered out of order. *)
Example latest_of_three :
  map code (select_latest
              [Scenario.raw 1 "asset_mdl_v001" (PList []) 1;
               Scenario.raw 3 "asset_mdl_v003" (PList []) 3;
               Scenario.raw 2 "asset_mdl_v002" (PList []) 2])
  = ["asset_mdl_v003"].
Proof. reflexivity. Qed.

Example version_number_examples :
  _get_version_number "foo_v012_bar" = 12%N
  /\ _get_version_number "no_version_here" = 0%N.
Proof. split; reflexivity. Qed.

End LatestFacts.

(** ** Path normalization *)

Module NormalizeFacts.
Import PyStr UI StrFacts Notions.

Lemma lstrip_by_head (p : ascii -> bool) (s : string) (c : ascii) (r : string) :
  lstrip_by p s = String c r -> p c = false.
Proof.
  induction s as [|a s IH]; simpl; [discriminate|].
  destruct (p a) eqn:E; [assumption|]. now intros [= <- _].
Qed.

Lemma rstrip_by_head (p : ascii -> bool) (s : string) (c : ascii) (r : string) :
  rstrip_by p s = String c r -> exists r', s = String c r'.
Proof.
  destruct s as [|a s]; simpl; [discriminate|].
  destruct (p a && is_empty (rstrip_by p s)); [discriminate|].
  intros [= <- _]. now exists s.
Qed.

Lemma rstrip_by_last (p : ascii -> bool) (s r : string) (c : ascii) :
  rstrip_by p s = (r ++ String c "")%string -> p c = false.
Proof.
  revert r. induction s as [|a s IH]; intros r; simpl.
  - destruct r; discriminate.
  - destruct (p a && is_empty (rstrip_by p s)) eqn:E.
    + destruct r; discriminate.
    + destruct r as [|b r]; simpl.
      * intros [= -> H]. rewrite H in E. simpl in E.
        now rewrite andb_true_r in E.
      * intros [= _ H]. now apply (IH r).
Qed.

Lemma strip_by_trimmed (s : string) : trimmed (strip_quotes s).
Proof.
  unfold strip_quotes, strip_by. split.
  - intros c r H. destruct (rstrip_by_head _ _ _ _ H) as [r' H'].
    now apply lstrip_by_head in H'.
  - intros r c H. now apply rstrip_by_last in H.
Qed.

Lemma lstrip_by_length (p : ascii -> bool) (s : string) :
  String.length (lstrip_by p s) <= String.length s.
Proof.
  induction s as [|a s IH]; simpl; [lia|]. destruct (p a); simpl; lia.
Qed.

Lemma rstrip_by_length (p : ascii -> bool) (s : string) :
  String.length (rstrip_by p s) <= String.length s.
Proof.
  induction s as [|a s IH]; simpl; [lia|].
  destruct (p a && is_empty (rstrip_by p s)); simpl; lia.
Qed.

#[local] Abbreviation strip_length := CharFacts.strip_length.

(** What [s.strip(chars)] removes is made of the characters given. *)
Lemma lstrip_by_spec (p : ascii -> bool) (s : string) :
  exists l, s = (l ++ lstrip_by p s)%string /\ MoreNotions.all_chars p l = true.
Proof.
  induction s as [|c s (l & Hs & Hl)]; [now exists ""|].
  cbn [lstrip_by]. destruct (p c) eqn:E.
  - exists (String c l). cbn [append MoreNotions.all_chars]. rewrite E, Hl.
    split; [now rewrite <- Hs | reflexivity].
  - now exists "".
Qed.

Lemma rstrip_by_spec (p : ascii -> bool) (s : string) :
  exists r, s = (rstrip_by p s ++ r)%string /\ MoreNotions.all_chars p r = true.
Proof.
  induction s as [|c s (r & Hs & Hr)]; [now exists ""|].
  cbn [rstrip_by]. cbv zeta. destruct (p c && is_empty (rstrip_by p s)) eqn:E.
  - apply andb_prop in E as [Ec Ee]. apply is_empty_true in Ee.
    rewrite Ee in Hs. cbn [append] in Hs. exists (String c r).
    cbn [append MoreNotions.all_chars]. rewrite Ec, Hr. now subst.
  - exists r. cbn [append]. split; [now rewrite <- Hs | exact Hr].
Qed.

Lemma strip_quotes_spec (s : string) :
  exists l r, s = (l ++ strip_quotes s ++ r)%string
              /\ MoreNotions.all_chars is_quote_or_blank l = true
              /\ MoreNotions.all_chars is_quote_or_blank r = true.
Proof.
  unfold strip_quotes, strip_by.
  destruct (lstrip_by_spec is_quote_or_blank s) as (l & Hs & Hl).
  destruct (rstrip_by_spec is_quote_or_blank (lstrip_by is_quote_or_blank s))
    as (r & Hm & Hr).
  exists l, r. split; [now rewrite <- Hm | auto].
Qed.

Lemma extend_all_some {A B : Type} (f : A -> option (list B)) (P : B -> Prop)
      (l : list A) :
  (forall x, In x l -> exists r, f x = Some r /\ Forall P r) ->
  exists r, extend_all f l = Some r /\ Forall P r.
Proof.
  induction l as [|x l IH]; intros H; simpl.
  - now exists [].
  - destruct (H x (or_introl eq_refl)) as (a & -> & Pa).
    destruct IH as (b & -> & Pb); [intros y Hy; apply H; now right|].
    exists (a ++ b). split; [reflexivity | now apply Forall_app].
Qed.

Lemma extend_all_ext {A B : Type} (f g : A -> option (list B)) (l : list A) :
  (forall x, In x l -> f x = g x) -> extend_all f l = extend_all g l.
Proof.
  induction l as [|x l IH]; intros H; simpl; [reflexivity|].
  rewrite (H x (or_introl eq_refl)), IH; [reflexivity|].
  intros y Hy. apply H. now right.
Qed.

Lemma extend_all_concat {A B : Type} (f : A -> option (list B)) (g : A -> list B)
      (l : list A) :
  (forall x, In x l -> f x = Some (g x)) ->
  extend_all f l = Some (concat (map g l)).
Proof.
  induction l as [|x l IH]; intros H; simpl; [reflexivity|].
  rewrite (H x (or_introl eq_refl)), IH; [reflexivity|].
  intros y Hy. apply H. now right.
Qed.

Lemma pymeasure_in (x : pyval) (l : list pyval) :
  In x l -> pymeasure x <= list_sum (map pymeasure l).
Proof.
  induction l as [|y l IH]; simpl; [tauto|].
  intros [->|H]; [lia|]. specialize (IH H). lia.
Qed.

Section WithLiteralEval.

Variable literal_eval : string -> option pyval.

#[local] Abbreviation flatten_fuel := (flatten_fuel literal_eval).
#[local] Abbreviation flatten_paths := (flatten_paths literal_eval).
#[local] Abbreviation flatten := (_flatten_and_clean_paths literal_eval).

(** A value that is not path-like flattens to nothing, whatever the
    parser does. *)
Lemma flatten_not_path_like (v : pyval) :
  is_path_like v = false -> flatten v = [].
Proof. destruct v; simpl; intros H; try discriminate; reflexivity. Qed.

Lemma flatten_fuel_not_path_like (n : nat) (v : pyval) :
  is_path_like v = false -> flatten_fuel (S n) v = Some [].
Proof. destruct v; simpl; intros H; try discriminate; reflexivity. Qed.

Lemma flatten_fuel_list (k : nat) (l : list pyval) :
  flatten_fuel (S k) (PList l) = extend_all (flatten_fuel k) l.
Proof. reflexivity. Qed.

Lemma flatten_fuel_tuple (k : nat) (l : list pyval) :
  flatten_fuel (S k) (PTuple l) = extend_all (flatten_fuel k) l.
Proof. reflexivity. Qed.

Lemma flatten_fuel_str (k : nat) (s : string) :
  flatten_fuel (S k) (PStr s)
  = if looks_like_sequence (strip s)
    then match literal_eval (strip s) with
         | Some v => flatten_fuel k v
         | None => Some [strip_quotes (strip s)]
         end
    else Some [strip_quotes (strip s)].
Proof. reflexivity. Qed.

Lemma extend_all_drop (k : nat) (v : pyval) (l1 l2 : list pyval) :
  is_path_like v = false ->
  extend_all (flatten_fuel (S k)) (l1 ++ v :: l2)
  = extend_all (flatten_fuel (S k)) (l1 ++ l2).
Proof.
  intros H. induction l1 as [|x l1 IH]; cbn [app extend_all].
  - rewrite (flatten_fuel_not_path_like k v H).
    now destruct (extend_all _ l2).
  - now rewrite IH.
Qed.

Lemma pymeasure_drop (v : pyval) (l1 l2 : list pyval) :
  is_path_like v = false ->
  list_sum (map pymeasure (l1 ++ v :: l2)) = list_sum (map pymeasure (l1 ++ l2)).
Proof.
  intros H. rewrite !map_app, !list_sum_app. simpl.
  destruct v; simpl in *; try discriminate; lia.
Qed.

(** Such a value inside a sequence contributes nothing. *)
Lemma flatten_drops_non_path (v : pyval) (l1 l2 : list pyval) :
  is_path_like v = false ->
  flatten (PList (l1 ++ v :: l2)) = flatten (PList (l1 ++ l2))
  /\ flatten (PTuple (l1 ++ v :: l2)) = flatten (PTuple (l1 ++ l2)).
Proof.
  intros H. unfold _flatten_and_clean_paths, UI.flatten_paths.
  cbn [pymeasure]. rewrite (pymeasure_drop v l1 l2 H).
  rewrite !flatten_fuel_list, !flatten_fuel_tuple.
  now rewrite (extend_all_drop _ v l1 l2 H).
Qed.

(** C10: a value that is neither a string nor a list or tuple
    normalizes to the empty list; inside a list or a tuple it
    contributes nothing; a history record whose path field is such a
    value is left without paths, and so is a gallery record, whose
    field [find_files] wrapped into a list first. *)
Theorem non_path_values_dropped (v : pyval) :
  is_path_like v = false ->
  flatten v = []
  /\ (forall l1 l2,
         flatten (PList (l1 ++ v :: l2)) = flatten (PList (l1 ++ l2))
         /\ flatten (PTuple (l1 ++ v :: l2)) = flatten (PTuple (l1 ++ l2)))
  /\ (forall r : version pyval,
         sg_path_to_geometry r = v ->
         sg_path_to_geometry (prepare_history_record literal_eval r) = [])
  /\ flatten (DataManager.normalize_geometry literal_eval v) = [].
Proof.
  intros H. split; [|split; [|split]].
  - now apply flatten_not_path_like.
  - intros l1 l2. now apply flatten_drops_non_path.
  - intros r E. unfold prepare_history_record. simpl. rewrite E.
    now apply flatten_not_path_like.
  - destruct v; simpl in H; try discriminate; reflexivity.
Qed.

(** More fuel does not change a result. *)
Lemma flatten_fuel_mono (n : nat) :
  forall data l, flatten_fuel n data = Some l ->
                 forall m, n <= m -> flatten_fuel m data = Some l.
Proof.
  induction n as [|k IH]; intros data l H m Hm; [discriminate|].
  destruct m as [|m]; [lia|].
  assert (Hl : forall xs r, extend_all (flatten_fuel k) xs = Some r ->
                            extend_all (flatten_fuel m) xs = Some r).
  { induction xs as [|x xs IHx]; simpl; intros r Hr; [assumption|].
    destruct (flatten_fuel k x) as [a|] eqn:Ea; [|discriminate].
    destruct (extend_all (flatten_fuel k) xs) as [b|] eqn:Eb; [|discriminate].
    rewrite (IH x a Ea m) by lia. now rewrite (IHx b eq_refl). }
  destruct data; simpl in *; try assumption.
  - destruct (looks_like_sequence (strip s)); [|assumption].
    destruct (literal_eval (strip s)); [|assumption].
    apply (IH _ _ H). lia.
  - now apply Hl.
  - now apply Hl.
Qed.

(** The parser returns values no larger than the text it reads. *)
Hypothesis literal_eval_smaller :
  forall s v, literal_eval s = Some v -> pymeasure v <= String.length s.

Lemma flatten_fuel_enough (n : nat) :
  forall data, pymeasure data < n ->
               exists l, flatten_fuel n data = Some l /\ Forall trimmed l.
Proof.
  induction n as [|k IH]; intros data Hm; [lia|].
  destruct data; simpl in *; try (exists []; split; [reflexivity|constructor]).
  - destruct (looks_like_sequence (strip s)).
    + destruct (literal_eval (strip s)) as [v|] eqn:E.
      * apply IH. apply literal_eval_smaller in E.
        pose proof (strip_length s). lia.
      * eexists. split; [reflexivity|].
        constructor; [apply strip_by_trimmed | constructor].
    + eexists. split; [reflexivity|].
      constructor; [apply strip_by_trimmed | constructor].
  - apply extend_all_some. intros x Hx. apply IH.
    pose proof (pymeasure_in x l Hx). lia.
  - apply extend_all_some. intros x Hx. apply IH.
    pose proof (pymeasure_in x l Hx). lia.
Qed.

Lemma flatten_paths_total (data : pyval) :
  exists l, flatten_paths data = Some l /\ Forall trimmed l.
Proof. apply flatten_fuel_enough. lia. Qed.

Lemma flatten_fuel_result (n : nat) (data : pyval) :
  pymeasure data < n -> flatten_fuel n data = Some (flatten data).
Proof.
  intros Hn. unfold _flatten_and_clean_paths.
  destruct (flatten_paths_total data) as (l & E & _). rewrite E.
  apply (flatten_fuel_mono _ _ _ E). lia.
Qed.

Lemma flatten_sequence (l : list pyval) :
  extend_all (flatten_fuel (S (list_sum (map pymeasure l)))) l
  = Some (concat (map flatten l)).
Proof.
  apply extend_all_concat. intros x Hx. apply flatten_fuel_result.
  pose proof (pymeasure_in x l Hx). lia.
Qed.

(** C2 (as amended): normalization of a path value always returns,
    and returns a list of strings free of leading and trailing blanks
    and quotes.  A plain string gives its trimmed self: the white
    space around it is removed first, then the quotes and blanks at
    either end.  A string that looks like a sequence literal gives
    what its parsed value gives, and its trimmed self alone when the
    parse fails; a list or tuple gives the results of its elements, in
    order.  The same holds for a path field that went through
    [find_files] first, where a string that fails to parse became the
    list of itself without the white space around it.  The first
    removal takes a run of white space from either end and leaves a
    text that neither starts nor ends with white space; the second
    takes quotes and blanks only. *)
Theorem path_normalization :
  (forall data, exists l,
      flatten_paths data = Some l /\ flatten data = l /\ Forall trimmed l)
  /\ (forall s, looks_like_sequence (strip s) = false ->
                flatten (PStr s) = [strip_quotes (strip s)])
  /\ (forall s v, looks_like_sequence (strip s) = true ->
                  literal_eval (strip s) = Some v ->
                  flatten (PStr s) = flatten v)
  /\ (forall s, looks_like_sequence (strip s) = true ->
                literal_eval (strip s) = None ->
                flatten (PStr s) = [strip_quotes (strip s)])
  /\ (forall l, flatten (PList l) = concat (map flatten l)
                /\ flatten (PTuple l) = concat (map flatten l))
  /\ (forall geo, exists l,
         flatten_paths (DataManager.normalize_geometry literal_eval geo) = Some l
         /\ Forall trimmed l)
  /\ (forall s, is_empty (strip s) = false -> literal_eval s = None ->
                DataManager.normalize_geometry literal_eval (PStr s)
                = PList [PStr (strip s)])
  /\ (forall s, exists l r,
         s = (l ++ strip s ++ r)%string
         /\ space_string l /\ space_string r
         /\ ~ starts_with_space (strip s) /\ ~ ends_with_space (strip s))
  /\ (forall s, exists l r,
         s = (l ++ strip_quotes s ++ r)%string
         /\ MoreNotions.all_chars is_quote_or_blank l = true
         /\ MoreNotions.all_chars is_quote_or_blank r = true
         /\ trimmed (strip_quotes s)).
Proof.
  split; [|split; [|split; [|split; [|split; [|split; [|split; [|split]]]]]]];
    [| | | | | | |exact CharFacts.strip_spec|
     intros s; destruct (strip_quotes_spec s) as (l & r & H1 & H2 & H3);
     exists l, r; repeat split; try assumption; apply strip_by_trimmed].
  - intros data. destruct (flatten_paths_total data) as (l & E & T).
    exists l. unfold _flatten_and_clean_paths. now rewrite E.
  - intros s H. unfold _flatten_and_clean_paths, UI.flatten_paths.
    now rewrite flatten_fuel_str, H.
  - intros s v H E. unfold _flatten_and_clean_paths at 1.
    unfold UI.flatten_paths. rewrite flatten_fuel_str, H, E.
    rewrite flatten_fuel_result; [reflexivity|].
    apply literal_eval_smaller in E. pose proof (strip_length s).
    cbn [pymeasure]. lia.
  - intros s H E. unfold _flatten_and_clean_paths, UI.flatten_paths.
    now rewrite flatten_fuel_str, H, E.
  - intros l. unfold _flatten_and_clean_paths at 1 3.
    unfold UI.flatten_paths. cbn [pymeasure].
    rewrite flatten_fuel_list, flatten_fuel_tuple.
    now rewrite flatten_sequence.
  - intros geo. apply flatten_paths_total.
  - intros s H E. unfold DataManager.normalize_geometry. now rewrite H, E.
Qed.

End WithLiteralEval.

(** The list-literal reader returns values no larger than its text. *)
Lemma read_quoted_length (q : ascii) (s a rest : string) :
  ListLiteral.read_quoted q s = Some (a, rest) ->
  String.length s = String.length a + 1 + String.length rest.
Proof.
  revert a rest. induction s as [|c s IH]; intros a rest; simpl; [discriminate|].
  destruct (c =? q)%char.
  - intros [= <- <-]. simpl. lia.
  - destruct ((c =? "\")%char || (c =? "010")%char); [discriminate|].
    destruct (ListLiteral.read_quoted q s) as [[a' rest']|]; [|discriminate].
    intros [= <- <-]. specialize (IH a' rest' eq_refl). simpl. lia.
Qed.

Lemma closes_length (s : string) :
  ListLiteral.closes s = true -> String.length s = 1.
Proof.
  unfold ListLiteral.closes. destruct (String.eqb_spec s "]"); [|discriminate].
  now subst.
Qed.

Lemma read_items_bound (n : nat) :
  forall s l, ListLiteral.read_items n s = Some l ->
              list_sum (map pymeasure (map PStr l)) + 1 <= String.length s.
Proof.
  induction n as [|k IH]; intros s l; [discriminate|].
  cbn [ListLiteral.read_items]. cbv zeta.
  pose proof (lstrip_by_length ListLiteral.is_blank s) as Hs.
  destruct (ListLiteral.closes (lstrip_by ListLiteral.is_blank s)) eqn:C.
  { intros [= <-]. apply closes_length in C. simpl. lia. }
  destruct (lstrip_by ListLiteral.is_blank s) as [|q r]; [discriminate|].
  destruct (ListLiteral.is_quote q); [|discriminate].
  destruct (ListLiteral.read_quoted q r) as [[a rest]|] eqn:R; [|discriminate].
  apply read_quoted_length in R.
  pose proof (lstrip_by_length ListLiteral.is_blank rest) as Hr.
  destruct (ListLiteral.closes (lstrip_by ListLiteral.is_blank rest)) eqn:C'.
  { intros [= <-]. simpl in *. lia. }
  destruct (lstrip_by ListLiteral.is_blank rest) as [|c rest']; [discriminate|].
  destruct (c =? ",")%char; [|discriminate].
  destruct (ListLiteral.read_items k rest') as [l'|] eqn:E; [|discriminate].
  intros [= <-]. specialize (IH _ _ E). simpl in *. lia.
Qed.

Lemma list_literal_smaller (s : string) (v : pyval) :
  ListLiteral.literal_eval s = Some v -> pymeasure v <= String.length s.
Proof.
  unfold ListLiteral.literal_eval. destruct s as [|c r]; [discriminate|].
  destruct (c =? "[")%char; [|discriminate].
  destruct (ListLiteral.read_items (String.length r) r) as [l|] eqn:E;
    [|discriminate].
  intros [= <-]. apply read_items_bound in E. simpl. lia.
Qed.

Lemma path_normalization_witness :
  exists l,
    flatten_paths ListLiteral.literal_eval mixed_paths = Some l
    /\ _flatten_and_clean_paths ListLiteral.literal_eval mixed_paths = l
    /\ Forall trimmed l.
Proof.
  exact (proj1 (path_normalization ListLiteral.literal_eval list_literal_smaller)
               mixed_paths).
Defined.

(** C2 (as stated) fails: a path written between quotes with a tab
    after the opening quote comes out with the tab in front, which is
    white space that a trim would remove. *)
Lemma path_normalization_counterexample :
  (forall literal_eval,
      _flatten_and_clean_paths literal_eval (PStr ("'" ++ String "009" "/p/a.abc'"))
      = [String "009" "/p/a.abc"])
  /\ starts_with_space (String "009" "/p/a.abc")
  /\ strip (String "009" "/p/a.abc") = "/p/a.abc"
  /\ strip (String "009" "/p/a.abc") <> String "009" "/p/a.abc".
Proof.
  split; [intros literal_eval; reflexivity|].
  split.
  - exists (String "009" ""), "/p/a.abc". split; [|reflexivity].
    unfold space_char. simpl. tauto.
  - split; [reflexivity | discriminate].
Qed.

Example mixed_paths_flat :
  _flatten_and_clean_paths ListLiteral.literal_eval mixed_paths
  = ["a/b_v002.abc"; "c.usd"; "y.bgeo.sc"; "[broken"; "[broken]"].
Proof. reflexivity. Qed.

Lemma non_path_values_dropped_witness :
  is_path_like (PDict [(PStr "k", PInt 1)]) = false
  /\ _flatten_and_clean_paths ListLiteral.literal_eval (PDict [(PStr "k", PInt 1)]) = [].
Proof.
  split; [reflexivity|].
  exact (proj1 (non_path_values_dropped ListLiteral.literal_eval
                  (PDict [(PStr "k", PInt 1)]) eq_refl)).
Defined.

End NormalizeFacts.

(** ** Store failures *)

Module StoreFacts.
Import PyStr DataManager.

Section WithLiteralEval.

Variable literal_eval : string -> option pyval.

(** C8 (as amended): without a session handle [find_files] and
    [get_active_projects] return the empty list; so they do when the
    Version query, respectively the Project query, raises.  A
    Sequence lookup that raises is swallowed: the Version query is
    then sent with the entity-type filter alone added to the base
    filters. *)
Theorem store_failure_policy (dm : ShotgunDataManager)
        (tab_context entity_type : string) :
  (sg dm = None ->
   find_files literal_eval dm tab_context entity_type = []
   /\ get_active_projects dm = [])
  /\ (forall h, sg dm = Some h ->
        find_versions h (version_filters dm tab_context entity_type) false = None ->
        find_files literal_eval dm tab_context entity_type = [])
  /\ (forall h, sg dm = Some h -> find_projects h = None ->
        get_active_projects dm = [])
  /\ (forall h type_part category_part,
        sg dm = Some h ->
        is_empty tab_context = false ->
        split "/" tab_context = [type_part; category_part] ->
        find_one_sequence h (HAL_PROJECT_SGID dm) category_part = None ->
        version_filters dm tab_context "Shot"
        = [ProjectIs (HAL_PROJECT_SGID dm); PathIsNotNone; EntityTypeIs "Shot"]).
Proof.
  unfold find_files, get_active_projects.
  split; [|split; [|split]].
  - intros E. rewrite E. split; [|reflexivity].
    now destruct (HAL_PROJECT_SGID dm =? 0)%Z.
  - intros h E F. rewrite E, F. now destruct (HAL_PROJECT_SGID dm =? 0)%Z.
  - intros h E F. now rewrite E, F.
  - intros h tp cp E Hc Hs F. unfold version_filters, context_filters.
    rewrite Hc, Hs, E, F. reflexivity.
Qed.

End WithLiteralEval.

Lemma store_failure_policy_witness :
  sg (Scenario.manager None) = None
  /\ find_files Scenario.literal_eval (Scenario.manager None) "mdl/props" "Asset" = []
  /\ find_versions Scenario.studio_down
       (version_filters (Scenario.manager (Some Scenario.studio_down))
                        "anim/SEQ01" "Shot") false = None
  /\ find_files Scenario.literal_eval (Scenario.manager (Some Scenario.studio_down))
                "anim/SEQ01" "Shot" = [].
Proof.
  split; [reflexivity|]. split; [|split; [reflexivity|]].
  - exact (proj1 (proj1 (store_failure_policy Scenario.literal_eval
                           (Scenario.manager None) "mdl/props" "Asset") eq_refl)).
  - exact (proj1 (proj2 (store_failure_policy Scenario.literal_eval
                           (Scenario.manager (Some Scenario.studio_down))
                           "anim/SEQ01" "Shot"))
                 Scenario.studio_down eq_refl eq_refl).
Defined.

(** C8 (as stated) fails: the Sequence lookup raises, the failure is
    swallowed, the Version query answers and [find_files] returns its
    record. *)
Lemma store_failure_counterexample :
  find_one_sequence Scenario.studio_without_sequences 42 "SEQ01" = None
  /\ map code (find_files Scenario.literal_eval
                 (Scenario.manager (Some Scenario.studio_without_sequences))
                 "anim/SEQ01" "Shot")
     = ["SEQ01_sh010_anim_v003"]
  /\ find_files Scenario.literal_eval
       (Scenario.manager (Some Scenario.studio_without_sequences))
       "anim/SEQ01" "Shot" <> [].
Proof. split; [reflexivity|]. split; [reflexivity|]. vm_compute. discriminate. Qed.

End StoreFacts.

(** ** Pick-lists *)

Module ComboFacts.
Import QComboBox.

Section Box.
Context {D : Type}.
Implicit Types (c : QComboBox.t D) (l : list (string * option D)).

Lemma find_from_some text l i j :
  find_from text l i = Some j ->
  i <= j /\ exists d, nth_error l (j - i) = Some (text, d).
Proof.
  revert i. induction l as [|[s d] l IH]; intros i; simpl; [discriminate|].
  destruct (String.eqb_spec s text) as [->|_].
  - intros [= <-]. split; [lia|]. exists d. now rewrite Nat.sub_diag.
  - intros H. apply IH in H as (Hle & d' & Hn). split; [lia|]. exists d'.
    replace (j - i) with (S (j - S i)) by lia. exact Hn.
Qed.

Lemma find_from_none text l i :
  find_from text l i = None -> ~ In text (map fst l).
Proof.
  revert i. induction l as [|[s d] l IH]; intros i; simpl; [tauto|].
  destruct (String.eqb_spec s text) as [->|Hne]; [discriminate|].
  intros H [E|Hin]; [congruence | exact (IH _ H Hin)].
Qed.

Lemma findText_some text c j :
  findText text c = Some j -> exists d, nth_error (items c) j = Some (text, d).
Proof.
  unfold findText. intros H. apply find_from_some in H as (_ & d & Hn).
  exists d. now rewrite Nat.sub_0_r in Hn.
Qed.

Lemma findText_in text c :
  In text (map fst (items c)) -> exists j, findText text c = Some j.
Proof.
  intros Hin. unfold findText. destruct (find_from text (items c) 0) eqn:E.
  - now exists n.
  - now apply find_from_none in E.
Qed.

Lemma setCurrentText_items text c : items (setCurrentText text c) = items c.
Proof. unfold setCurrentText. now destruct (findText text c). Qed.

(** [setCurrentText] selects a text that is among the items. *)
Lemma setCurrentText_found text c :
  In text (map fst (items c)) -> currentText (setCurrentText text c) = text.
Proof.
  intros Hin. destruct (findText_in _ _ Hin) as [j E].
  unfold setCurrentText. rewrite E.
  apply findText_some in E as [d Hn].
  unfold currentText, currentItem. simpl. now rewrite Hn.
Qed.

(** [setCurrentText] leaves the box alone otherwise. *)
Lemma setCurrentText_missing text c :
  ~ In text (map fst (items c)) -> setCurrentText text c = c.
Proof.
  intros Hn. unfold setCurrentText. destruct (findText text c) eqn:E; [|reflexivity].
  apply findText_some in E as [d E]. elim Hn.
  apply nth_error_In in E. change text with (fst (text, d)). now apply in_map.
Qed.

Lemma currentItem_In c it : currentItem c = Some it -> In it (items c).
Proof.
  unfold currentItem. destruct (currentIndex c); [|discriminate].
  apply nth_error_In.
Qed.

Lemma currentText_In c :
  currentItem c <> None -> In (currentText c) (map fst (items c)).
Proof.
  unfold currentText. destruct (currentItem c) as [[s d]|] eqn:E; [|congruence].
  intros _. apply currentItem_In in E. change s with (fst (s, d)).
  now apply in_map.
Qed.

Lemma currentData_In c v :
  currentData c = Some v -> exists s, In (s, Some v) (items c).
Proof.
  unfold currentData. destruct (currentItem c) as [[s d]|] eqn:E; [|discriminate].
  intros ->. exists s. now apply currentItem_In.
Qed.

Lemma pick_items i c : items (pick i c) = items c.
Proof. unfold pick. now destruct (i <? length (items c))%nat. Qed.

(** Filling an empty box makes its first item current. *)
Lemma insert_into_empty l :
  insert_at_end l (@QComboBox.empty D)
  = mk l (match l with [] => None | _ :: _ => Some 0 end).
Proof. now destruct l. Qed.

Lemma fold_addItem_items {A : Type} (f : A -> string) (g : A -> option D)
      (xs : list A) c :
  items (fold_left (fun b x => addItem (f x) (g x) b) xs c)
  = items c ++ map (fun x => (f x, g x)) xs.
Proof.
  revert c. induction xs as [|x xs IH]; intros c; simpl.
  - now rewrite app_nil_r.
  - rewrite IH. unfold addItem, insert_at_end. simpl.
    now rewrite <- app_assoc.
Qed.

Lemma currentText_first s d l :
  currentText (mk ((s, d) :: l) (Some 0)) = s.
Proof. reflexivity. Qed.

End Box.

Lemma addItems_empty {D : Type} (texts : list string) :
  addItems texts (@QComboBox.empty D)
  = mk (map (fun s => (s, None)) texts)
       (match texts with [] => None | _ :: _ => Some 0 end).
Proof. unfold addItems. rewrite insert_into_empty. now destruct texts. Qed.

End ComboFacts.

(** ** The filter cascade *)

Module CascadeFacts.
Import PyStr UI QComboBox ComboFacts StrFacts Notions.

(** *** Sorting *)

Lemma insert_sorted_In (x y : string) (l : list string) :
  In y (insert_sorted x l) <-> y = x \/ In y l.
Proof.
  induction l as [|z l IH]; simpl; [intuition|].
  destruct (String.compare x z) eqn:E; simpl.
  - apply String.compare_eq_iff in E. subst. intuition.
  - intuition.
  - rewrite IH. intuition.
Qed.

Lemma sorted_set_In (y : string) (l : list string) :
  In y (sorted_set l) <-> In y l.
Proof.
  unfold sorted_set. induction l as [|x l IH]; simpl; [tauto|].
  rewrite insert_sorted_In, IH. intuition.
Qed.

Lemma compare_empty_l (y : string) : String.compare "" y <> Gt.
Proof. destruct y; simpl; discriminate. Qed.

Lemma insert_sorted_empty_head (x : string) (l : list string) :
  insert_sorted x ("" :: l) = "" :: tl (insert_sorted x ("" :: l)).
Proof.
  simpl. destruct x; simpl; reflexivity.
Qed.

(** The empty string sorts first. *)
Lemma sorted_set_empty_first (l : list string) :
  In "" l -> hd "x" (sorted_set l) = "".
Proof.
  unfold sorted_set. induction l as [|x l IH]; simpl; [tauto|].
  intros [->|H].
  - destruct (fold_right insert_sorted [] l) as [|z r]; [reflexivity|].
    simpl. destruct z; reflexivity.
  - specialize (IH H). destruct (fold_right insert_sorted [] l) as [|z r].
    + simpl in IH. discriminate.
    + simpl in IH. subst z. now rewrite insert_sorted_empty_head.
Qed.

Lemma insert_desc_In (x y : hversion) (l : list hversion) :
  In y (insert_desc x l) <-> y = x \/ In y l.
Proof.
  induction l as [|z l IH]; simpl; [intuition|].
  destruct (created_at z <=? created_at x)%Z; simpl; [intuition|].
  rewrite IH. intuition.
Qed.

Lemma sort_desc_In (y : hversion) (l : list hversion) :
  In y (sort_desc l) <-> In y l.
Proof.
  unfold sort_desc. induction l as [|x l IH]; simpl; [tauto|].
  rewrite insert_desc_In, IH. intuition.
Qed.

(** *** What the slots leave alone *)

Lemma displayed_render ui :
  render_combo (_update_displayed_info ui) = render_combo ui.
Proof. unfold _update_displayed_info. now destruct (currentData _). Qed.

Lemma displayed_material ui :
  material_combo (_update_displayed_info ui) = material_combo ui.
Proof. unfold _update_displayed_info. now destruct (currentData _). Qed.

Lemma displayed_asset_filter ui :
  asset_filter_combo (_update_displayed_info ui) = asset_filter_combo ui.
Proof. unfold _update_displayed_info. now destruct (currentData _). Qed.

Lemma displayed_visible ui :
  asset_filter_visible (_update_displayed_info ui) = asset_filter_visible ui.
Proof. unfold _update_displayed_info. now destruct (currentData _). Qed.

Lemma displayed_history ui :
  current_version_history (_update_displayed_info ui) = current_version_history ui.
Proof. unfold _update_displayed_info. now destruct (currentData _). Qed.

Lemma displayed_selected ui :
  currently_selected_widget (_update_displayed_info ui)
  = currently_selected_widget ui.
Proof. unfold _update_displayed_info. now destruct (currentData _). Qed.

Lemma displayed_sub_asset ui :
  selected_sub_asset (_update_displayed_info ui) = selected_sub_asset ui.
Proof.
  unfold selected_sub_asset. now rewrite displayed_visible, displayed_asset_filter.
Qed.

(** The state after [_update_dependent_filters], tier by tier. *)
Lemma update_dependent_shape (ui : Panel) :
  current_version_history ui <> [] ->
  let ui' := _update_dependent_filters ui in
  let fmt := currentText (render_combo ui) in
  let vers_in_fmt := versions_in_format fmt (current_version_history ui) in
  render_combo ui' = render_combo ui
  /\ current_version_history ui' = current_version_history ui
  /\ asset_filter_combo ui'
     = rebuilt_asset_filter (sub_assets vers_in_fmt)
                            (currentText (asset_filter_combo ui))
  /\ asset_filter_visible ui' = negb (match sub_assets vers_in_fmt with
                                      | [] => true
                                      | _ :: _ => false
                                      end)
  /\ material_combo ui'
     = rebuilt_material fmt
         (sort_desc (versions_for_selection vers_in_fmt (selected_sub_asset ui'))).
Proof.
  intros Hh. cbv zeta. unfold _update_dependent_filters.
  destruct (current_version_history ui) as [|h0 hs] eqn:Eh; [congruence|].
  rewrite displayed_render, displayed_history, displayed_asset_filter,
    displayed_visible, displayed_material, displayed_sub_asset.
  unfold rebuilt_asset_filter, rebuilt_material.
  destruct (sub_assets _) as [|a l]; simpl; rewrite ?Eh;
    repeat split; reflexivity.
Qed.

(** *** Clearing the selection *)

Lemma cancel_shape (ui : Panel) :
  let ui' := _handle_cancel_selection ui in
  current_version_history ui' = []
  /\ render_combo ui' = QComboBox.empty
  /\ asset_filter_combo ui' = QComboBox.empty
  /\ material_combo ui' = QComboBox.empty
  /\ asset_filter_visible ui' = false
  /\ currently_selected_widget ui' = None
  /\ file_path_label ui' = "N/A"
  /\ publish_date_label ui' = None.
Proof. cbv zeta. unfold _handle_cancel_selection. repeat split; reflexivity. Qed.

Section WithLiteralEval.

Variable literal_eval : string -> option pyval.

#[local] Abbreviation populate := (_query_and_populate_all_filters literal_eval).
#[local] Abbreviation prepare := (prepare_history_record literal_eval).

(** C9: when the history fetch for the clicked card yields nothing,
    the cascade is reset: the stored history is empty, the three
    boxes hold no item and no selection, the sub-asset tier is
    hidden, no card is selected and no path is shown. *)
Theorem empty_history_reset (ui : Panel) (w : widget) :
  _get_version_history_from_shotgun ui w = [] ->
  let ui' := populate ui w in
  current_version_history ui' = []
  /\ render_combo ui' = QComboBox.empty
  /\ asset_filter_combo ui' = QComboBox.empty
  /\ material_combo ui' = QComboBox.empty
  /\ asset_filter_visible ui' = false
  /\ currently_selected_widget ui' = None
  /\ currentText (render_combo ui') = ""
  /\ selected_sub_asset ui' = None
  /\ currentData (material_combo ui') = None
  /\ file_path_label ui' = "N/A".
Proof.
  intros H. cbv zeta. unfold _query_and_populate_all_filters. rewrite H.
  repeat split; reflexivity.
Qed.

(** The state after a reload that found a history, tier by tier;
    [ui1] is the state after the call of [_update_dependent_filters]
    in the middle of it. *)
Lemma populate_shape (ui : Panel) (w : widget) :
  _get_version_history_from_shotgun ui w <> [] ->
  let history := map prepare (_get_version_history_from_shotgun ui w) in
  let cur_ver := currentText (material_combo ui) in
  let ui1 := _update_dependent_filters
               (with_render (reloaded_formats history (currentText (render_combo ui)))
                            (with_history history ui)) in
  let ui' := populate ui w in
  current_version_history ui' = history
  /\ render_combo ui' = reloaded_formats history (currentText (render_combo ui))
  /\ asset_filter_combo ui' = asset_filter_combo ui1
  /\ asset_filter_visible ui' = asset_filter_visible ui1
  /\ items (material_combo ui') = items (material_combo ui1)
  /\ (cur_ver <> "" -> In cur_ver (map fst (items (material_combo ui1))) ->
      currentText (material_combo ui') = cur_ver).
Proof.
  intros Hraw. cbv zeta. unfold _query_and_populate_all_filters.
  destruct (_get_version_history_from_shotgun ui w) as [|r raw] eqn:E;
    [congruence|].
  fold (reloaded_formats (map prepare (r :: raw)) (currentText (render_combo ui))).
  set (history := map prepare (r :: raw)).
  set (ui0 := with_render _ (with_history history ui)).
  assert (Hh : current_version_history ui0 <> []) by (simpl; discriminate).
  destruct (update_dependent_shape ui0 Hh) as (Hr & Hhist & _).
  destruct (is_empty (currentText (material_combo ui))) eqn:Ev; simpl.
  - repeat split; try assumption; try reflexivity.
    intros Hne. apply is_empty_true in Ev. congruence.
  - destruct (findText _ (material_combo (_update_dependent_filters ui0))) eqn:F.
    + rewrite displayed_history, displayed_render, displayed_asset_filter,
        displayed_visible, displayed_material. simpl.
      repeat split; try assumption; try reflexivity.
      * apply setCurrentText_items.
      * intros _ Hin. now apply setCurrentText_found.
    + repeat split; try assumption; try reflexivity.
      intros _ Hin. apply findText_in in Hin as [j Hj]. congruence.
Qed.

Lemma currentText_addItems (texts : list string) :
  currentText (addItems texts (@QComboBox.empty unit)) = hd "" texts.
Proof. rewrite addItems_empty. now destruct texts. Qed.

Lemma addItems_texts (texts : list string) :
  map fst (items (addItems texts (@QComboBox.empty unit))) = texts.
Proof.
  rewrite addItems_empty. simpl. rewrite map_map. simpl. apply map_id.
Qed.

(** The format a reload selects. *)
Lemma reloaded_formats_text (history : list hversion) (f : string) :
  (In f (available_formats history) ->
   currentText (reloaded_formats history f) = f)
  /\ (~ In f (available_formats history) ->
      currentText (reloaded_formats history f)
      = hd "" (sorted_set (available_formats history))).
Proof.
  unfold reloaded_formats. cbv zeta.
  set (S := sorted_set (available_formats history)).
  split; intros H.
  - destruct (is_empty f) eqn:Ef; simpl.
    + apply is_empty_true in Ef. subst f.
      rewrite currentText_addItems.
      pose proof (sorted_set_empty_first _ H) as Hd. fold S in Hd.
      destruct S; [discriminate | exact Hd].
    + assert (Hin : In f (map fst (items (addItems S (@QComboBox.empty unit))))).
      { rewrite addItems_texts. now apply sorted_set_In. }
      destruct (findText_in _ _ Hin) as [j ->].
      now apply setCurrentText_found.
  - destruct (is_empty f) eqn:Ef; simpl; [apply currentText_addItems|].
    destruct (findText f _) eqn:F; [|apply currentText_addItems].
    apply findText_some in F as [d F]. apply nth_error_In in F.
    elim H. apply (sorted_set_In f). fold S.
    rewrite <- (addItems_texts S). change f with (fst (f, d)).
    now apply in_map.
Qed.

End WithLiteralEval.

(** *** Sticky selection *)

Lemma sub_assets_not_empty (vs : list hversion) (a : string) :
  In a (sub_assets vs) -> a <> "".
Proof.
  unfold sub_assets. rewrite sorted_set_In, in_flat_map.
  intros (v & _ & H). destruct (asset_name v) as [x|]; [|contradiction].
  destruct (is_empty x) eqn:E; [contradiction|].
  destruct H as [<-|[]]. now apply is_empty_false.
Qed.

Lemma tag_not_empty : NO_ASSET_FILTER_TAG <> "".
Proof. discriminate. Qed.

Lemma rebuilt_asset_filter_texts (assets : list string) (prev : string) :
  map fst (items (rebuilt_asset_filter assets prev))
  = match assets with
    | [] => []
    | _ :: _ => assets ++ [NO_ASSET_FILTER_TAG]
    end.
Proof.
  unfold rebuilt_asset_filter. destruct assets as [|a l]; [reflexivity|].
  destruct (is_empty prev); rewrite ?setCurrentText_items;
    unfold addItem, addItems; rewrite !insert_into_empty; simpl;
    rewrite map_app, map_map; simpl; now rewrite map_id.
Qed.

(** The sub-asset a recomputation selects is the previous one when it
    is still offered. *)
Lemma rebuilt_asset_filter_sticky (vs : list hversion) (prev : string) :
  In prev (map fst (items (rebuilt_asset_filter (sub_assets vs) prev))) ->
  currentText (rebuilt_asset_filter (sub_assets vs) prev) = prev.
Proof.
  intros Hin. pose proof Hin as Hin'.
  rewrite rebuilt_asset_filter_texts in Hin'.
  unfold rebuilt_asset_filter in *.
  destruct (sub_assets vs) as [|a l] eqn:E; [contradiction|].
  destruct (is_empty prev) eqn:Ep.
  - apply is_empty_true in Ep. subst prev.
    apply in_app_or in Hin' as [H|[H|[]]].
    + rewrite <- E in H. now apply sub_assets_not_empty in H.
    + now elim tag_not_empty.
  - rewrite setCurrentText_items in Hin. now apply setCurrentText_found.
Qed.

Import Scenario.

(** A card without history is clicked while a version of entity 7 is
    selected. *)
Lemma empty_history_reset_witness :
  _get_version_history_from_shotgun (on_version_picked 1 on_entity_7) (card 9) = []
  /\ material_combo (on_version_picked 1 on_entity_7) <> QComboBox.empty
  /\ material_combo (_query_and_populate_all_filters
                       literal_eval (on_version_picked 1 on_entity_7) (card 9))
     = QComboBox.empty
  /\ current_version_history
       (_query_and_populate_all_filters
          literal_eval (on_version_picked 1 on_entity_7) (card 9)) = [].
Proof.
  assert (H : _get_version_history_from_shotgun
                (on_version_picked 1 on_entity_7) (card 9) = [])
    by (vm_compute; reflexivity).
  split; [exact H|]. split; [vm_compute; discriminate|].
  destruct (empty_history_reset literal_eval _ _ H) as (Hh & _ & _ & Hm & _).
  split; [exact Hm | exact Hh].
Defined.

(** The card of entity 7 is clicked again after the older version was
    picked: format and version stay. *)
(** *** Selection consistency *)

Lemma asset_is_true (a : option string) (v : hversion) :
  asset_is a v = true -> asset_name v = a.
Proof.
  unfold asset_is. now destruct (LatestFacts.option_string_eqb_spec (asset_name v) a).
Qed.

Lemma versions_for_selection_In (fmt : string) (history : list hversion)
      (sel : option string) (v : hversion) :
  (forall a, sel = Some a -> a <> "") ->
  In v (versions_for_selection (versions_in_format fmt history) sel) ->
  In v history /\ has_format fmt v = true /\ matches_sub_asset sel v.
Proof.
  intros Hsel. unfold versions_for_selection, versions_in_format, matches_sub_asset.
  destruct sel as [a|].
  - destruct (is_empty a) eqn:E.
    + apply is_empty_true in E. now elim (Hsel a eq_refl).
    + destruct (a =? NO_ASSET_FILTER_TAG)%string;
        rewrite !filter_In; intros [[H1 H2] H3];
        repeat split; try assumption; now apply asset_is_true.
  - rewrite filter_In. intros [H1 H2]. now repeat split.
Qed.

Lemma versions_for_selection_nil (fmt : string) (sel : option string) :
  versions_for_selection (versions_in_format fmt []) sel = [].
Proof.
  unfold versions_for_selection. simpl. destruct sel as [a|]; [|reflexivity].
  destruct (is_empty a); [reflexivity|].
  now destruct (a =? NO_ASSET_FILTER_TAG)%string.
Qed.

Lemma history_cases (ui : Panel) :
  current_version_history ui = [] \/ current_version_history ui <> [].
Proof. destruct (current_version_history ui); [now left | now right]. Qed.

Lemma rebuilt_material_items (fmt : string) (vs : list hversion) :
  items (rebuilt_material fmt vs) = map (fun v => (display_code fmt v, Some v)) vs.
Proof. unfold rebuilt_material. now rewrite fold_addItem_items. Qed.

Lemma rebuilt_asset_filter_current (vs : list hversion) (prev : string) :
  sub_assets vs <> [] ->
  currentText (rebuilt_asset_filter (sub_assets vs) prev) <> "".
Proof.
  intros Hne.
  assert (Hitems : forall x,
             In x (map fst (items (rebuilt_asset_filter (sub_assets vs) prev))) ->
             x <> "").
  { intros x. rewrite rebuilt_asset_filter_texts.
    destruct (sub_assets vs) as [|a l] eqn:E; [contradiction|].
    intros H. apply in_app_or in H as [H|[<-|[]]].
    - rewrite <- E in H. now apply sub_assets_not_empty in H.
    - apply tag_not_empty. }
  apply Hitems. apply currentText_In.
  unfold rebuilt_asset_filter.
  destruct (sub_assets vs) as [|a l]; [congruence|].
  unfold addItem, addItems. rewrite !insert_into_empty. simpl.
  destruct (is_empty prev); [discriminate|].
  unfold setCurrentText. destruct (findText prev _) eqn:F; [|discriminate].
  apply findText_some in F as [d F]. unfold currentItem. simpl in *.
  rewrite F. discriminate.
Qed.

(** [_update_dependent_filters] establishes the invariant from the
    part of it that concerns the format box. *)
Lemma update_dependent_inv (ui : Panel) :
  (forall s d, In (s, d) (items (render_combo ui)) ->
               In s (available_formats (current_version_history ui))) ->
  (current_version_history ui = [] -> cascade_inv ui) ->
  cascade_inv (_update_dependent_filters ui).
Proof.
  intros HA Hnil.
  destruct (history_cases ui) as [Eh|Hh].
  - unfold _update_dependent_filters. rewrite Eh. now apply Hnil.
  - destruct (update_dependent_shape ui Hh) as (Hr & Hhist & Ha & Hv & Hm).
    split.
    + rewrite Hr, Hhist. exact HA.
    + intros s d. rewrite Hm, rebuilt_material_items, in_map_iff.
      intros (v & [= <- <-] & Hin). exists v. split; [reflexivity|].
      apply (proj1 (sort_desc_In _ _)) in Hin. now rewrite Hr, Hhist.
    + rewrite Hv, Ha. intros Hvis. apply rebuilt_asset_filter_current.
      destruct (sub_assets _); [discriminate | discriminate].
    + rewrite Hhist. intros E. contradiction.
Qed.

Lemma cancel_inv (ui : Panel) : cascade_inv (_handle_cancel_selection ui).
Proof.
  split; unfold _handle_cancel_selection; simpl; try tauto; discriminate.
Qed.

Lemma inv_same_boxes (ui ui' : Panel) :
  current_version_history ui' = current_version_history ui ->
  render_combo ui' = render_combo ui ->
  asset_filter_combo ui' = asset_filter_combo ui ->
  asset_filter_visible ui' = asset_filter_visible ui ->
  items (material_combo ui') = items (material_combo ui) ->
  cascade_inv ui -> cascade_inv ui'.
Proof.
  intros Hh Hr Ha Hv Hm [A B C D]. unfold selected_sub_asset in *.
  split; unfold selected_sub_asset; rewrite ?Hh, ?Hr, ?Ha, ?Hv, ?Hm; assumption.
Qed.

Lemma populate_inv (literal_eval : string -> option pyval) (ui : Panel) (w : widget) :
  cascade_inv (_query_and_populate_all_filters literal_eval ui w).
Proof.
  destruct (_get_version_history_from_shotgun ui w) as [|r raw] eqn:E.
  - unfold _query_and_populate_all_filters. rewrite E. apply cancel_inv.
  - assert (Hraw : _get_version_history_from_shotgun ui w <> []) by congruence.
    destruct (populate_shape literal_eval ui w Hraw) as (Hh & Hr & Ha & Hv & Hm & _).
    set (history := map (prepare_history_record literal_eval)
                        (_get_version_history_from_shotgun ui w)) in *.
    set (ui0 := with_render (reloaded_formats history (currentText (render_combo ui)))
                            (with_history history ui)) in *.
    assert (Hh0 : current_version_history ui0 <> []).
    { simpl. unfold history. rewrite E. discriminate. }
    destruct (update_dependent_shape ui0 Hh0) as (Hr1 & Hh1 & _).
    apply (inv_same_boxes (_update_dependent_filters ui0)); try assumption.
    + now rewrite Hh, Hh1.
    + now rewrite Hr, Hr1.
    + apply update_dependent_inv; [|intros H; contradiction].
      intros s d. simpl. unfold reloaded_formats. cbv zeta.
      intros Hin. apply (sorted_set_In s).
      rewrite <- (addItems_texts (sorted_set (available_formats history))).
      change s with (fst (s, d)). apply in_map.
      destruct (negb _); [|exact Hin].
      destruct (findText _ _); [|exact Hin].
      now rewrite setCurrentText_items in Hin.
Qed.

Lemma format_picked_inv (ui : Panel) (i : nat) :
  cascade_inv ui -> cascade_inv (on_format_picked i ui).
Proof.
  intros H. unfold on_format_picked.
  destruct (index_changes i (render_combo ui)); [|assumption].
  destruct H as [A B C D]. apply update_dependent_inv.
  - simpl. intros s d. rewrite pick_items. apply A.
  - simpl. intros Hnil. split; simpl.
    + intros s d. rewrite pick_items. apply A.
    + intros s d Hin. destruct (B s d Hin) as (v & _ & Hv).
      rewrite Hnil, versions_for_selection_nil in Hv. contradiction.
    + exact C.
    + exact D.
Qed.

Lemma sub_asset_picked_inv (ui : Panel) (i : nat) :
  cascade_inv ui -> cascade_inv (on_sub_asset_picked i ui).
Proof.
  intros H. unfold on_sub_asset_picked.
  destruct (index_changes i (asset_filter_combo ui)); [|assumption].
  destruct H as [A B C D]. apply update_dependent_inv; [exact A|].
  simpl. intros Hnil. split; simpl.
  - exact A.
  - intros s d Hin. destruct (B s d Hin) as (v & _ & Hv).
    rewrite Hnil, versions_for_selection_nil in Hv. contradiction.
  - intros Hvis. rewrite (D Hnil) in Hvis. discriminate.
  - exact D.
Qed.

Lemma version_picked_inv (ui : Panel) (i : nat) :
  cascade_inv ui -> cascade_inv (on_version_picked i ui).
Proof.
  intros H. unfold on_version_picked.
  destruct (index_changes i (material_combo ui)); [|assumption].
  apply (inv_same_boxes ui); try assumption.
  - now rewrite displayed_history.
  - now rewrite displayed_render.
  - now rewrite displayed_asset_filter.
  - now rewrite displayed_visible.
  - rewrite displayed_material. simpl. apply pick_items.
Qed.

Lemma initial_inv dm tab ta ts : cascade_inv (initial dm tab ta ts).
Proof. split; simpl; try tauto; discriminate. Qed.

(** The invariant holds in every state of the panel. *)
Lemma reachable_inv (literal_eval : string -> option pyval) (ui : Panel) :
  reachable literal_eval ui -> cascade_inv ui.
Proof.
  induction 1.
  - apply initial_inv.
  - apply populate_inv.
  - apply cancel_inv.
  - now apply format_picked_inv.
  - now apply sub_asset_picked_inv.
  - now apply version_picked_inv.
  - now apply (inv_same_boxes ui).
Qed.

(** C6: in every state of the panel, hence after every recomputation
    of the cascade, a selected format is one of the format tokens of the
    paths of the history, and a selected version is a record of the
    history that carries the selected format and matches the sub-asset
    in force (lacks a sub-asset when the synthetic tag is chosen). *)
Theorem cascade_selection_consistent
        (literal_eval : string -> option pyval) (ui : Panel) :
  reachable literal_eval ui ->
  (forall f, selected_format ui = Some f ->
             In f (available_formats (current_version_history ui)))
  /\ (forall v, selected_version ui = Some v ->
                In v (current_version_history ui)
                /\ has_format (currentText (render_combo ui)) v = true
                /\ matches_sub_asset (selected_sub_asset ui) v).
Proof.
  intros R. destruct (reachable_inv _ _ R) as [A B C D]. split.
  - unfold selected_format. intros f.
    destruct (currentItem (render_combo ui)) as [[s d]|] eqn:E; [|discriminate].
    intros [= <-]. apply currentItem_In in E. now apply (A s d).
  - unfold selected_version. intros v Hv.
    apply currentData_In in Hv as [s Hin].
    destruct (B _ _ Hin) as (v' & [= <-] & Hsel).
    apply versions_for_selection_In in Hsel; [assumption|].
    unfold selected_sub_asset. intros a.
    destruct (asset_filter_visible ui) eqn:Ev; [|discriminate].
    intros [= <-]. now apply C.
Qed.

Lemma cascade_selection_consistent_witness :
  reachable Scenario.literal_eval (on_version_picked 1 Scenario.on_entity_7)
  /\ (forall v, selected_version (on_version_picked 1 Scenario.on_entity_7) = Some v ->
                In v (current_version_history
                        (on_version_picked 1 Scenario.on_entity_7))).
Proof.
  assert (R : reachable Scenario.literal_eval
                        (on_version_picked 1 Scenario.on_entity_7)).
  { apply reach_version. apply reach_click. apply reach_initial. }
  split; [exact R|]. intros v Hv.
  exact (proj1 (proj2 (cascade_selection_consistent _ _ R) v Hv)).
Defined.

Example picked_version_selected :
  option_map code (selected_version (on_version_picked 1 Scenario.on_entity_7))
  = Some "propA_mdl_v001".
Proof. vm_compute. reflexivity. Qed.

End CascadeFacts.

(** ** Display codes *)

Module DisplayFacts.
Import PyStr UI QComboBox ComboFacts CascadeFacts StrFacts Notions.
Import CharFacts VersionFacts.

Lemma find_first {A : Type} (f : A -> bool) (l1 l2 : list A) (x : A) :
  (forall y, In y l1 -> f y = false) -> f x = true ->
  find f (l1 ++ x :: l2) = Some x.
Proof.
  intros H Hx. induction l1 as [|y l1 IH]; simpl.
  - now rewrite Hx.
  - rewrite (H y (or_introl eq_refl)). apply IH. intros z Hz. apply H. now right.
Qed.

Lemma find_nothing {A : Type} (f : A -> bool) (l : list A) :
  (forall y, In y l -> f y = false) -> find f l = None.
Proof.
  intros H. induction l as [|y l IH]; simpl; [reflexivity|].
  rewrite (H y (or_introl eq_refl)). apply IH. intros z Hz. apply H. now right.
Qed.

Lemma leftmost_segment_not_empty (p pre : string) (sep : ascii) (d rest : string) :
  leftmost_segment p pre sep d rest -> is_empty p = false.
Proof. intros (-> & _). now destruct pre. Qed.

(** C7 (as amended): only the first path of the record whose format
    token is the chosen format decides.  When its leftmost version
    segment, a v and decimal digits after a slash or an underscore, is
    v d, the label is the code with its leftmost underscore-v-digits
    occurrence replaced by underscore, v and d, and the code itself
    when the code holds no such occurrence.  When that path has no
    such segment, or no path has the format, the label is the code.
    Every code falls under one of the two cases and every path too.
    The records of the history are left as they are: the version box
    holds them unchanged beside their labels. *)
Theorem display_code_rewrite :
  (forall (fmt : string) (v : hversion) (l1 l2 : list string)
          (p pre d rest : string) (sep : ascii),
      sg_path_to_geometry v = l1 ++ p :: l2 ->
      (forall q, In q l1 -> _get_file_format (PStr q) <> fmt) ->
      _get_file_format (PStr p) = fmt ->
      leftmost_segment p pre sep d rest ->
      (forall c1 d0 c2,
          leftmost_version (code v) c1 d0 c2 ->
          display_code fmt v = (c1 ++ "_v" ++ d ++ c2)%string)
      /\ (no_version (code v) -> display_code fmt v = code v))
  /\ (forall (fmt : string) (v : hversion),
         ((forall q, In q (sg_path_to_geometry v) ->
                     _get_file_format (PStr q) <> fmt)
          \/ exists l1 p l2,
               sg_path_to_geometry v = l1 ++ p :: l2
               /\ (forall q, In q l1 -> _get_file_format (PStr q) <> fmt)
               /\ _get_file_format (PStr p) = fmt
               /\ no_segment p) ->
         display_code fmt v = code v)
  /\ (forall s, no_version s \/ exists c1 d c2, leftmost_version s c1 d c2)
  /\ (forall p, no_segment p
                \/ exists pre sep d rest, leftmost_segment p pre sep d rest)
  /\ (forall ui : Panel,
         current_version_history ui <> [] ->
         let ui' := _update_dependent_filters ui in
         current_version_history ui' = current_version_history ui
         /\ forall label data,
             In (label, data) (items (material_combo ui')) ->
             exists v, data = Some v
                       /\ In v (current_version_history ui)
                       /\ label = display_code (currentText (render_combo ui)) v).
Proof.
  split; [|split; [|split; [|split]]].
  - intros fmt v l1 l2 p pre d rest sep Hp Hl1 Hf Hseg.
    assert (Hd : display_code fmt v
                 = sub_first_version (String "_" (String "v" d)) (code v)).
    { unfold display_code, first_path_of_format. rewrite Hp.
      rewrite (find_first _ l1 l2 p).
      - rewrite (leftmost_segment_not_empty _ _ _ _ _ Hseg).
        unfold _extract_version_from_path.
        now rewrite (search_path_version_found _ _ _ _ _ Hseg).
      - intros q Hq. apply String.eqb_neq. now apply Hl1.
      - now apply String.eqb_eq. }
    rewrite Hd. split.
    + intros c1 d0 c2 Hc. now rewrite (sub_first_version_found _ _ _ _ _ Hc).
    + apply sub_first_version_none.
  - intros fmt v [H|(l1 & p & l2 & Hp & Hl1 & Hf & Hs)];
      unfold display_code, first_path_of_format.
    + rewrite find_nothing; [reflexivity|].
      intros q Hq. apply String.eqb_neq. now apply H.
    + rewrite Hp, (find_first _ l1 l2 p).
      * unfold _extract_version_from_path.
        rewrite (proj2 (search_path_version_none p) Hs). now destruct (is_empty p).
      * intros q Hq. apply String.eqb_neq. now apply Hl1.
      * now apply String.eqb_eq.
  - exact search_version_cover.
  - exact search_path_version_cover.
  - intros ui Hh. cbv zeta.
    destruct (update_dependent_shape ui Hh) as (_ & Hhist & _ & _ & Hm).
    split; [exact Hhist|].
    intros label data. rewrite Hm, rebuilt_material_items, in_map_iff.
    intros (v & [= <- <-] & Hin). exists v. split; [reflexivity|].
    split; [|reflexivity].
    apply (proj1 (sort_desc_In _ _)) in Hin.
    unfold versions_for_selection, versions_in_format in Hin.
    destruct (selected_sub_asset _) as [a|].
    + destruct (is_empty a); [now apply filter_In in Hin|].
      destruct (a =? NO_ASSET_FILTER_TAG)%string;
        apply filter_In in Hin as [Hin _]; now apply filter_In in Hin.
    + now apply filter_In in Hin.
Qed.

(** The abc file of this record is of version 3 while its code names
    version 1. *)
Lemma display_code_rewrite_witness :
  leftmost_segment "/p/propA_v003.abc" "/p/propA" "_" "003" ".abc"
  /\ leftmost_version (code Scenario.republished) "propA_mdl" "001" ""
  /\ display_code "abc" Scenario.republished = "propA_mdl_v003".
Proof.
  assert (N1 : ~ starts_with_digit ".abc")
    by (apply decimal_at_none; reflexivity).
  assert (N2 : ~ starts_with_digit "")
    by (apply decimal_at_none; reflexivity).
  assert (S1 : leftmost_segment "/p/propA_v003.abc" "/p/propA" "_" "003" ".abc").
  { split; [reflexivity|]. split; [reflexivity|].
    split; [apply search_path_version_none; reflexivity|].
    split; [|exact N1].
    split; [discriminate | apply decimal_string_ascii; reflexivity]. }
  assert (S2 : leftmost_version (code Scenario.republished) "propA_mdl" "001" "").
  { split; [reflexivity|].
    split; [apply search_version_none; reflexivity|].
    split; [|exact N2].
    split; [discriminate | apply decimal_string_ascii; reflexivity]. }
  assert (F1 : forall q, In q ["/p/propA.usd"] -> _get_file_format (PStr q) <> "abc")
    by (intros q [<-|[]]; vm_compute; discriminate).
  split; [exact S1|]. split; [exact S2|].
  exact (proj1 (proj1 display_code_rewrite "abc" Scenario.republished
                      ["/p/propA.usd"] [] "/p/propA_v003.abc" "/p/propA" "003" ".abc"
                      "_"%char eq_refl F1 eq_refl S1)
               "propA_mdl" "001" "" S2).
Defined.

(** C7 (as stated) fails: the second abc path of this record carries
    version 2, which differs from version 1 of the code, but the first
    abc path carries none and the label stays the code. *)
Lemma display_code_counterexample :
  In "/p/propA_v002.abc" (sg_path_to_geometry Scenario.stale)
  /\ _get_file_format (PStr "/p/propA_v002.abc") = "abc"
  /\ DataManager.search_version "/p/propA_v002.abc" = Some "002"
  /\ DataManager.search_version (code Scenario.stale) = Some "001"
  /\ display_code "abc" Scenario.stale = "propA_mdl_v001"
  /\ display_code "abc" Scenario.stale
     <> sub_first_version "_v002" (code Scenario.stale).
Proof.
  split; [simpl; tauto|]. repeat (split; [vm_compute; reflexivity|]).
  vm_compute. discriminate.
Qed.

End DisplayFacts.

(** ** Further properties of shotgun_data_manager.py *)

Module ManagerFacts.
Import PyStr DataManager StrFacts Notions MoreNotions.

Lemma endswith_iff (p s : string) :
  endswith p s = true <-> exists pre, s = (pre ++ p)%string.
Proof.
  induction s as [|c s IH].
  - cbn [endswith]. destruct (String.eqb_spec "" p) as [<-|Hne].
    + split; [intros _; now exists "" | reflexivity].
    + split; [discriminate|]. intros [pre H]. destruct pre; simpl in H; congruence.
  - cbn [endswith]. destruct (String.eqb_spec (String c s) p) as [<-|Hne].
    + split; [intros _; now exists "" | reflexivity].
    + rewrite IH. split.
      * intros [pre ->]. now exists (String c pre).
      * intros [pre H]. destruct pre as [|d pre]; simpl in H; [congruence|].
        inversion H; subst. now exists pre.
Qed.

Lemma all_chars_app (p : ascii -> bool) (a b : string) :
  all_chars p (a ++ b) = all_chars p a && all_chars p b.
Proof. induction a as [|c a IH]; simpl; [reflexivity|]. now rewrite IH, andb_assoc. Qed.

Lemma sanitize_name_chars (s : string) : all_chars is_name_char (sanitize s) = true.
Proof.
  induction s as [|c s IH]; [reflexivity|].
  cbn [sanitize]. cbv zeta.
  destruct (is_alpha c || is_digit c || (c =? "_")%char || (c =? "-")%char) eqn:E.
  - cbn [all_chars]. unfold is_name_char at 1. rewrite E. exact IH.
  - destruct ((128 <=? nat_of_ascii c) && (nat_of_ascii c <? 192))%nat;
      [exact IH|].
    cbn [all_chars]. rewrite IH. reflexivity.
Qed.

Lemma strip_thumbnail_suffix_prefix (s : string) :
  exists suf, s = (strip_thumbnail_suffix s ++ suf)%string
              /\ (suf = "" \/ is_thumbnail_suffix suf = true).
Proof.
  induction s as [|c s IH].
  - exists "". split; [reflexivity | now left].
  - cbn [strip_thumbnail_suffix].
    destruct (is_thumbnail_suffix (String c s)) eqn:E.
    + exists (String c s). split; [reflexivity | now right].
    + destruct IH as (suf & H & Hs). exists suf. split; [|assumption].
      simpl. now rewrite <- H.
Qed.

Lemma strip_thumbnail_suffix_name_chars (s : string) :
  all_chars is_name_char s = true ->
  all_chars is_name_char (strip_thumbnail_suffix s) = true.
Proof.
  intros H. destruct (strip_thumbnail_suffix_prefix s) as (suf & E & _).
  rewrite E, all_chars_app in H. now apply andb_true_iff in H as [H _].
Qed.

Lemma name_chars_no_newline (s : string) :
  all_chars is_name_char s = true -> endswith newline s = false.
Proof.
  intros H. destruct (endswith newline s) eqn:E; [|reflexivity].
  apply endswith_iff in E as [pre ->]. rewrite all_chars_app in H.
  apply andb_true_iff in H as [_ H]. vm_compute in H. discriminate.
Qed.

(** X1: the image name [find_files] stores is never absent: it is one
    of the two sentinels, or a name made only of letters, digits,
    underscores and hyphens; it is the sentinel for a missing image
    exactly when the record has no image URL or an empty one. *)
Theorem image_name_is_safe {G : Type} (v : version G) :
  exists n, image (name_image v) = Some n
            /\ image_name_shape n
            /\ (n = "No Image" <-> image v = None \/ image v = Some "").
Proof.
  unfold name_image. simpl.
  exists (_clean_shotgun_thumbnail_name (extract_filename_from_url (image v))).
  split; [reflexivity|].
  unfold extract_filename_from_url.
  destruct (image v) as [u|].
  - destruct (is_empty u) eqn:Eu.
    + apply is_empty_true in Eu. subst u.
      split; [now left | split; [intros _; now right | reflexivity]].
    + apply is_empty_false in Eu.
      destruct (search_filename u) as [g|].
      * pose proof (sanitize_name_chars (hd "" (split "." g))) as Hs.
        assert (Hc : all_chars is_name_char
                       (_clean_shotgun_thumbnail_name
                          (sanitize (hd "" (split "." g)))) = true).
        { unfold _clean_shotgun_thumbnail_name.
          rewrite (name_chars_no_newline _ Hs).
          now apply strip_thumbnail_suffix_name_chars. }
        split; [right; now right|]. split.
        -- intros E. rewrite E in Hc. vm_compute in Hc. discriminate.
        -- intros [H|H]; [discriminate | congruence].
      * split; [right; now left|]. split.
        -- vm_compute. discriminate.
        -- intros [H|H]; [discriminate | congruence].
  - split; [now left | split; [intros _; now left | reflexivity]].
Qed.


(** *** The thumbnail suffix *)

Lemma thumbnail_suffix_forms (suf : string) :
  is_thumbnail_suffix suf = true ->
  suf = "_t" \/ exists d, suf = ("_t_" ++ d)%string /\ d <> "" /\ all_digits d = true.
Proof.
  unfold is_thumbnail_suffix. intros H. apply orb_true_iff in H as [H|H].
  - left. now apply String.eqb_eq.
  - right. apply andb_true_iff in H as [H Hd]. apply andb_true_iff in H as [Hs He].
    apply startswith_iff in Hs as [r ->]. simpl in *. exists r.
    repeat split; try assumption. intros ->. discriminate.
Qed.

Lemma all_digits_app (a b : string) :
  all_digits (a ++ b) = all_digits a && all_digits b.
Proof. induction a as [|c a IH]; simpl; [reflexivity|]. now rewrite IH, andb_assoc. Qed.

Lemma thumbnail_suffix_head (suf : string) :
  is_thumbnail_suffix suf = true ->
  exists r, suf = String "_" (String "t" r) /\ all_digits suf = false.
Proof.
  intros H. apply thumbnail_suffix_forms in H as [->|(d & -> & _ & _)].
  - now exists "".
  - now exists (String "_" d).
Qed.

(** Inside a name followed by a thumbnail suffix no other suffix
    starts. *)
Lemma no_suffix_inside (t suf : string) :
  t <> "" -> is_thumbnail_suffix suf = true ->
  is_thumbnail_suffix (t ++ suf) = false.
Proof.
  intros Ht Hs. destruct (thumbnail_suffix_head suf Hs) as (r & Er & Hnd).
  unfold is_thumbnail_suffix. apply orb_false_iff. split.
  - apply String.eqb_neq. intros E. apply (f_equal String.length) in E.
    subst suf. destruct t as [|a t]; [congruence|].
    simpl in E. rewrite StrFacts.append_length in E. simpl in E. lia.
  - destruct (startswith "_t_" (t ++ suf)) eqn:S; [|reflexivity].
    apply startswith_iff in S as [q Hq]. rewrite Hq. simpl.
    destruct t as [|a [|b [|c t]]]; [congruence| | |].
    + subst suf. simpl in Hq. inversion Hq.
    + subst suf. simpl in Hq. inversion Hq; subst. reflexivity.
    + simpl in Hq. inversion Hq; subst.
      rewrite all_digits_app, Hnd, andb_false_r. now rewrite andb_false_r.
Qed.

Lemma strip_thumbnail_suffix_app (p suf : string) :
  is_thumbnail_suffix suf = true -> strip_thumbnail_suffix (p ++ suf) = p.
Proof.
  intros Hs. induction p as [|c p IH].
  - simpl. destruct suf as [|c s]; [reflexivity|].
    cbn [strip_thumbnail_suffix]. now rewrite Hs.
  - change ((String c p ++ suf)%string) with (String c (p ++ suf)).
    cbn [strip_thumbnail_suffix].
    change (String c (p ++ suf)) with ((String c p ++ suf)%string).
    rewrite no_suffix_inside by (assumption || discriminate).
    cbn [append]. now rewrite IH.
Qed.

Lemma endswith_newline_app (p q : string) :
  q <> "" -> endswith newline (p ++ q) = endswith newline q.
Proof.
  intros Hq. induction p as [|c p IH]; [reflexivity|].
  cbn [append endswith].
  destruct (String.eqb_spec (String c (p ++ q)) newline) as [E|_]; [|exact IH].
  unfold newline in E. inversion E as [[Hc Hpq]].
  destruct p; simpl in Hpq; congruence.
Qed.

Lemma digits_no_newline (d : string) :
  all_digits d = true -> endswith newline d = false.
Proof.
  induction d as [|c d IH]; [reflexivity|].
  cbn [all_digits endswith]. intros H. apply andb_true_iff in H as [Hc Hd].
  destruct (String.eqb_spec (String c d) newline) as [E|_]; [|now apply IH].
  unfold newline in E. inversion E; subst. discriminate.
Qed.

(** X2: cleaning a thumbnail name removes one trailing suffix,
    underscore t or underscore t underscore digits, and gives back the
    name the suffix was added to, whatever that name; a name that ends
    in no such suffix (and in no line feed) is left as it is. *)
Theorem clean_thumbnail_name_round_trip :
  (forall p, _clean_shotgun_thumbnail_name (p ++ "_t") = p)
  /\ (forall p d, d <> "" -> all_digits d = true ->
                  _clean_shotgun_thumbnail_name (p ++ "_t_" ++ d) = p)
  /\ (forall s, endswith newline s = false ->
                (forall p suf, s = (p ++ suf)%string -> suf <> "" ->
                               is_thumbnail_suffix suf = false) ->
                _clean_shotgun_thumbnail_name s = s).
Proof.
  split; [|split].
  - intros p. unfold _clean_shotgun_thumbnail_name.
    rewrite endswith_newline_app by discriminate.
    change (endswith newline "_t") with false. cbv iota.
    now apply strip_thumbnail_suffix_app.
  - intros p d Hne Hd. unfold _clean_shotgun_thumbnail_name.
    assert (Hs : is_thumbnail_suffix ("_t_" ++ d) = true).
    { unfold is_thumbnail_suffix. simpl. rewrite Hd.
      destruct d; [congruence | reflexivity]. }
    rewrite endswith_newline_app by discriminate.
    rewrite (endswith_newline_app "_t_" d Hne), (digits_no_newline d Hd).
    now apply strip_thumbnail_suffix_app.
  - intros s Hn Hno. unfold _clean_shotgun_thumbnail_name. rewrite Hn.
    destruct (strip_thumbnail_suffix_prefix s) as (suf & E & [->|Hs]).
    + now rewrite append_nil_r in E.
    + destruct suf as [|c suf]; [discriminate|].
      rewrite (Hno _ _ E) in Hs by discriminate. discriminate.
Qed.

Lemma clean_thumbnail_name_round_trip_witness :
  _clean_shotgun_thumbnail_name ("propA_mdl_v003" ++ "_t_" ++ "1024") = "propA_mdl_v003".
Proof.
  apply (proj1 (proj2 clean_thumbnail_name_round_trip)); [discriminate | reflexivity].
Defined.


(** *** Version numbers *)

(** X3: the version number of a code.  When the code holds an
    underscore, the letter v and decimal digits, the number is read from
    the leftmost such place, from all the digits that follow the v
    there, whatever comes after them; when it holds none, the number is
    0.  The digits are read as a decimal number, most significant digit
    first: a digit more at the end multiplies by ten and adds its
    value, and zeros at the front change nothing.  The digits of every
    script count, an ASCII digit and a full-width digit alike.  (The
    run of digits is kept within the 4300 that [int] accepts.) *)
Theorem version_number_leftmost :
  (forall code c1 d c2,
      leftmost_version code c1 d c2 -> String.length d <= 4300 ->
      _get_version_number code = int_of_digits d)
  /\ (forall code, no_version code -> _get_version_number code = 0%N)
  /\ int_of_digits "" = 0%N
  /\ (forall d ch v,
         decimal_string d -> decimal_char ch v ->
         int_of_digits (d ++ ch) = (10 * int_of_digits d + v)%N)
  /\ (forall ch d, decimal_char ch 0 -> int_of_digits (ch ++ d) = int_of_digits d)
  /\ (forall c, is_digit c = true ->
                decimal_char (String c "") (N.of_nat (nat_of_ascii c - 48)))
  /\ (forall k, (k < 10)%N -> decimal_char (utf8_encode (0xFF10 + k)) k).
Proof.
  split; [|split; [|split; [|split; [|split; [|split]]]]].
  - intros code c1 d c2 H _. unfold _get_version_number.
    now rewrite (VersionFacts.search_version_found _ _ _ _ H).
  - intros code H. unfold _get_version_number.
    now rewrite (proj2 (VersionFacts.search_version_none code) H).
  - reflexivity.
  - exact CharFacts.int_of_digits_snoc.
  - exact CharFacts.int_of_digits_zero.
  - exact CharFacts.ascii_digit_decimal.
  - intros k Hk.
    assert (E : In k [0; 1; 2; 3; 4; 5; 6; 7; 8; 9]%N).
    { destruct k as [|p]; [now left|].
      do 9 (destruct p as [p|p|]; try (exfalso; lia); try (simpl; tauto)). }
    assert (A : forallb (fun j => match decimal_at (utf8_encode (0xFF10 + j)) with
                                  | Some (ch, v, r) =>
                                      (ch =? utf8_encode (0xFF10 + j))%string
                                      && (v =? j)%N
                                  | None => false
                                  end) [0; 1; 2; 3; 4; 5; 6; 7; 8; 9]%N = true)
      by (vm_compute; reflexivity).
    rewrite forallb_forall in A. specialize (A k E).
    destruct (decimal_at (utf8_encode (0xFF10 + k))) as [[[ch v] r]|] eqn:D;
      [|discriminate].
    apply andb_prop in A as [A1 A2].
    apply String.eqb_eq in A1. apply N.eqb_eq in A2. subst.
    now apply CharFacts.decimal_at_some in D.
Qed.

(** A code whose first underscore and v is followed by no digit, and
    whose version is written in full-width digits. *)
Lemma version_number_leftmost_witness :
  leftmost_version
    ("prp_v_table_mdl_v" ++ utf8_encode 0xFF10 ++ "1" ++ utf8_encode 0xFF12 ++ "_fix")
    "prp_v_table_mdl" (utf8_encode 0xFF10 ++ "1" ++ utf8_encode 0xFF12) "_fix"
  /\ _get_version_number
       ("prp_v_table_mdl_v" ++ utf8_encode 0xFF10 ++ "1" ++ utf8_encode 0xFF12 ++ "_fix")
     = int_of_digits (utf8_encode 0xFF10 ++ "1" ++ utf8_encode 0xFF12)
  /\ int_of_digits (utf8_encode 0xFF10 ++ "1" ++ utf8_encode 0xFF12) = 12%N.
Proof.
  assert (D : decimal_string (utf8_encode 0xFF10 ++ "1" ++ utf8_encode 0xFF12)).
  { apply (decimal_cons (utf8_encode 0xFF10) 0);
      [exact (proj2 (proj2 (proj2 (proj2 (proj2 (proj2 version_number_leftmost)))))
                    0%N eq_refl)|].
    apply (decimal_cons "1" 1);
      [exact (CharFacts.ascii_digit_decimal "1" eq_refl)|].
    rewrite <- (StrFacts.append_nil_r (utf8_encode 0xFF12)).
    apply (decimal_cons (utf8_encode 0xFF12) 2);
      [|constructor].
    exact (proj2 (proj2 (proj2 (proj2 (proj2 (proj2 version_number_leftmost)))))
                 2%N eq_refl). }
  assert (L : leftmost_version
                ("prp_v_table_mdl_v" ++ utf8_encode 0xFF10 ++ "1" ++ utf8_encode 0xFF12
                   ++ "_fix")
                "prp_v_table_mdl" (utf8_encode 0xFF10 ++ "1" ++ utf8_encode 0xFF12)
                "_fix").
  { split; [reflexivity|].
    split; [apply VersionFacts.search_version_none; reflexivity|].
    split; [split; [discriminate | exact D]|].
    apply CharFacts.decimal_at_none. reflexivity. }
  assert (B : String.length (utf8_encode 0xFF10 ++ "1" ++ utf8_encode 0xFF12) <= 4300)
    by (vm_compute; lia).
  split; [exact L|]. split; [|vm_compute; reflexivity].
  exact (proj1 version_number_leftmost _ _ _ _ L B).
Defined.

(** *** The records of [find_files] *)

Lemma normalize_geometry_is_list (literal_eval : string -> option pyval) (geo : pyval) :
  exists l, normalize_geometry literal_eval geo = PList l.
Proof.
  unfold normalize_geometry.
  destruct geo; try (eexists; reflexivity).
  destruct (is_empty (strip s)); [eexists; reflexivity|].
  destruct (literal_eval s) as [v|]; [|eexists; reflexivity].
  destruct v; eexists; reflexivity.
Qed.

Lemma categorize_from_store {G : Type} (v : version G) :
  from_store v (_categorize_version v)
  /\ sg_path_to_geometry (_categorize_version v) = sg_path_to_geometry v
  /\ image (_categorize_version v) = image v.
Proof.
  unfold _categorize_version, from_store.
  destruct (ent_type (entity v) =? "Asset")%string; [now repeat split|].
  destruct (ent_type (entity v) =? "Shot")%string; now repeat split.
Qed.

Lemma categorize_category {G : Type} (v : version G) :
  (ent_type (entity v) = "Asset" ->
   category_among asset_tokens "asset_unknown" (_categorize_version v))
  /\ (ent_type (entity v) = "Shot" ->
      category_among shot_tokens "shot_unknown" (_categorize_version v)).
Proof.
  unfold _categorize_version, category_among. split; intros E; rewrite E; simpl.
  - destruct (search_tokens asset_tokens (lower (code v))) eqn:S.
    + exists s. split; [reflexivity|]. left.
      now apply CategorizeFacts.search_tokens_some in S as [H _].
    + exists "asset_unknown". split; [reflexivity | now right].
  - destruct (search_tokens shot_tokens (lower (code v))) eqn:S.
    + exists s. split; [reflexivity|]. left.
      now apply CategorizeFacts.search_tokens_some in S as [H _].
    + exists "shot_unknown". split; [reflexivity | now right].
Qed.

(** The loop of [find_files] on a batch, by its invariant. *)
Lemma select_latest_kept {G : Type} (versions : list (version G)) :
  let batch := map _categorize_version versions in
  let kept := select_latest versions in
  NoDup (map version_key kept)
  /\ (forall v, In v batch ->
        exists r, In r kept /\ version_key r = version_key v
                  /\ (version_number v <= version_number r)%N)
  /\ (forall r, In r kept -> In r batch).
Proof.
  intros batch kept.
  pose proof (LatestFacts.fold_keep_greater_inv batch [] [] LatestFacts.latest_inv_nil) as I.
  simpl in I. unfold kept, select_latest, dict_values.
  rewrite LatestFacts.fold_latest_step. fold batch.
  destruct I as [N K B C]. set (d := fold_left keep_greater batch []) in *.
  split; [|split].
  - replace (map version_key (map snd d)) with (map fst d); [assumption|].
    rewrite map_map. apply map_ext_in. intros [k r] H. simpl. now apply K.
  - intros v Hv. destruct (C v Hv) as [r Hr].
    apply LatestFacts.dict_get_In in Hr. exists r. split; [|split].
    + change r with (snd (version_key v, r)). now apply in_map.
    + symmetry. now apply K.
    + apply (LatestFacts.first_greatest_bound batch);
        [now apply (B _ _ Hr) | assumption|]. now apply K.
  - intros r Hr. apply in_map_iff in Hr as ([k r'] & <- & H).
    destruct (B k r' H) as (pre & post & -> & _). simpl.
    apply in_or_app. right. now left.
Qed.

Section FindFiles.

Variable literal_eval : string -> option pyval.

(** [find_files] once the Version query has answered. *)
Lemma find_files_answered (dm : ShotgunDataManager) (ctx etype : string)
      (h : shotgun) (versions : list (version pyval)) :
  sg dm = Some h -> HAL_PROJECT_SGID dm <> 0%Z ->
  find_versions h (version_filters dm ctx etype) false = Some versions ->
  find_files literal_eval dm ctx etype
  = map name_image
        (select_latest
           (map (fun v => set_geometry
                            (normalize_geometry literal_eval (sg_path_to_geometry v)) v)
                versions)).
Proof.
  intros Hsg Hpid Hq. unfold find_files.
  destruct (Z.eqb_spec (HAL_PROJECT_SGID dm) 0) as [E|_]; [contradiction|].
  now rewrite Hsg, Hq.
Qed.

(** X4: [find_files] returns at most one record per entity and
    category, and loses no key: every record the store answered with is
    represented, under its category, by a returned record of the same
    entity whose version number is at least its own. *)
Theorem find_files_one_per_key (dm : ShotgunDataManager) (ctx etype : string)
        (h : shotgun) (versions : list (version pyval)) :
  sg dm = Some h -> HAL_PROJECT_SGID dm <> 0%Z ->
  find_versions h (version_filters dm ctx etype) false = Some versions ->
  let res := find_files literal_eval dm ctx etype in
  NoDup (map version_key res)
  /\ (forall raw, In raw versions ->
        exists r, In r res
                  /\ version_key r = version_key (_categorize_version raw)
                  /\ (version_number raw <= version_number r)%N).
Proof.
  intros Hsg Hpid Hq. cbv zeta.
  rewrite (find_files_answered dm ctx etype h versions Hsg Hpid Hq).
  set (norm := fun v : version pyval =>
                 set_geometry (normalize_geometry literal_eval (sg_path_to_geometry v)) v).
  destruct (select_latest_kept (map norm versions)) as (N & C & _).
  split.
  - rewrite map_map.
    replace (map (fun x => version_key (name_image x)) (select_latest (map norm versions)))
      with (map version_key (select_latest (map norm versions))); [assumption|].
    now apply map_ext.
  - intros raw Hraw.
    destruct (C (_categorize_version (norm raw))) as (r & Hr & Hk & Hn).
    { apply in_map. now apply in_map. }
    exists (name_image r). split; [now apply in_map|]. split.
    + change (version_key (name_image r)) with (version_key r). rewrite Hk.
      unfold version_key, _categorize_version, norm. simpl.
      destruct (ent_type (entity raw) =? "Asset")%string; [reflexivity|].
      now destruct (ent_type (entity raw) =? "Shot")%string.
    + change (version_number (name_image r)) with (version_number r).
      destruct (categorize_from_store (norm raw)) as ((_ & Hc & _) & _).
      unfold version_number in *. rewrite Hc in Hn. exact Hn.
Qed.

(** X5: every record [find_files] returns is a record of the store's
    answer, with its id, code, entity and creation time; its path field
    is a list, its image field a name, and its category is set for an
    Asset or a Shot, to a task token or to the sentinel of the entity
    type. *)
Theorem find_files_record_shape (dm : ShotgunDataManager) (ctx etype : string)
        (h : shotgun) (versions : list (version pyval)) :
  sg dm = Some h -> HAL_PROJECT_SGID dm <> 0%Z ->
  find_versions h (version_filters dm ctx etype) false = Some versions ->
  forall r, In r (find_files literal_eval dm ctx etype) ->
    (exists raw, In raw versions /\ from_store raw r)
    /\ (exists l, sg_path_to_geometry r = PList l)
    /\ image r <> None
    /\ (ent_type (entity r) = "Asset" ->
        category_among asset_tokens "asset_unknown" r)
    /\ (ent_type (entity r) = "Shot" ->
        category_among shot_tokens "shot_unknown" r).
Proof.
  intros Hsg Hpid Hq r Hr.
  rewrite (find_files_answered dm ctx etype h versions Hsg Hpid Hq) in Hr.
  set (norm := fun v : version pyval =>
                 set_geometry (normalize_geometry literal_eval (sg_path_to_geometry v)) v) in *.
  apply in_map_iff in Hr as (r0 & <- & Hr0).
  destruct (select_latest_kept (map norm versions)) as (_ & _ & Hin).
  apply Hin in Hr0. apply in_map_iff in Hr0 as (r1 & <- & Hr1).
  apply in_map_iff in Hr1 as (raw & <- & Hraw).
  destruct (categorize_from_store (norm raw)) as ((Hi & Hc & He & Ht) & Hg & _).
  destruct (categorize_category (norm raw)) as [HA HS].
  split; [|split; [|split; [|split]]].
  - exists raw. split; [assumption|]. unfold from_store. simpl.
    rewrite Hi, Hc, He, Ht. now repeat split.
  - change (sg_path_to_geometry (name_image (_categorize_version (norm raw))))
      with (sg_path_to_geometry (_categorize_version (norm raw))).
    rewrite Hg. unfold norm. simpl. apply normalize_geometry_is_list.
  - simpl. discriminate.
  - change (entity (name_image (_categorize_version (norm raw))))
      with (entity (_categorize_version (norm raw))).
    rewrite He. intros E. destruct (HA E) as (t & Ht' & Hin'). now exists t.
  - change (entity (name_image (_categorize_version (norm raw))))
      with (entity (_categorize_version (norm raw))).
    rewrite He. intros E. destruct (HS E) as (t & Ht' & Hin'). now exists t.
Qed.

End FindFiles.


(** The catalog query of the worked store answers with two versions of
    one asset. *)
Lemma find_files_one_per_key_witness :
  NoDup (map version_key
             (find_files Scenario.literal_eval (Scenario.manager (Some Scenario.studio))
                         "mdl/props" "Asset")).
Proof.
  assert (H0 : HAL_PROJECT_SGID (Scenario.manager (Some Scenario.studio)) <> 0%Z)
    by discriminate.
  exact (proj1 (find_files_one_per_key Scenario.literal_eval
                  (Scenario.manager (Some Scenario.studio)) "mdl/props" "Asset"
                  Scenario.studio Scenario.history_7 eq_refl H0 eq_refl)).
Defined.

Lemma find_files_record_shape_witness :
  Forall (fun r => exists l, sg_path_to_geometry r = PList l)
         (find_files Scenario.literal_eval (Scenario.manager (Some Scenario.studio))
                     "mdl/props" "Asset").
Proof.
  assert (H0 : HAL_PROJECT_SGID (Scenario.manager (Some Scenario.studio)) <> 0%Z)
    by discriminate.
  apply Forall_forall. intros r Hr.
  exact (proj1 (proj2 (find_files_record_shape Scenario.literal_eval
                         (Scenario.manager (Some Scenario.studio)) "mdl/props" "Asset"
                         Scenario.studio Scenario.history_7 eq_refl H0 eq_refl r Hr))).
Defined.

Example find_files_keeps_latest :
  map code (find_files Scenario.literal_eval (Scenario.manager (Some Scenario.studio))
                       "mdl/props" "Asset")
  = ["propA_mdl_v002"].
Proof. vm_compute. reflexivity. Qed.

End ManagerFacts.

(** ** Splitting *)

Module SplitFacts.
Import PyStr StrFacts MoreNotions.

Lemma split_not_nil (c : ascii) (s : string) : split c s <> [].
Proof.
  destruct s as [|d s]; simpl; [discriminate|].
  destruct (d =? c)%char; [discriminate|]. destruct (split c s); discriminate.
Qed.

(** Splitting at a separator splits both sides. *)
Lemma split_app_sep (c : ascii) (a b : string) :
  split c (a ++ String c b) = split c a ++ split c b.
Proof.
  induction a as [|x a IH].
  - simpl. now rewrite Ascii.eqb_refl.
  - cbn [append split]. rewrite IH.
    destruct (x =? c)%char; [reflexivity|].
    destruct (split c a) as [|h t] eqn:E; [now elim (split_not_nil c a)|].
    reflexivity.
Qed.

Lemma split_no_sep (c : ascii) (s : string) :
  has_char c s = false -> split c s = [s].
Proof.
  induction s as [|d s IH]; simpl; [reflexivity|].
  intros H. apply orb_false_iff in H as [Hd Hs]. rewrite Hd, (IH Hs). reflexivity.
Qed.

Lemma split_parts_no_sep (c : ascii) (s x : string) :
  In x (split c s) -> has_char c x = false.
Proof.
  revert x. induction s as [|d s IH]; intros x; simpl.
  - intros [<-|[]]. reflexivity.
  - destruct (d =? c)%char eqn:E.
    + intros [<-|H]; [reflexivity | now apply IH].
    + destruct (split c s) as [|h t] eqn:Es; [now elim (split_not_nil c s)|].
      intros [<-|H].
      * simpl. rewrite E. simpl. apply IH. now left.
      * apply IH. now right.
Qed.

Lemma split_length (c : ascii) (s : string) :
  List.length (split c s) = S (count_char c s).
Proof.
  induction s as [|d s IH]; simpl; [reflexivity|].
  destruct (d =? c)%char; simpl; [now rewrite IH|].
  destruct (split c s) as [|h t] eqn:Es; [now elim (split_not_nil c s)|].
  simpl in *. exact IH.
Qed.

Lemma last_in {A : Type} (l : list A) (d : A) : l <> [] -> In (last l d) l.
Proof.
  induction l as [|x l IH]; [congruence|]. intros _.
  destruct l as [|y l]; [now left|]. right. apply IH. discriminate.
Qed.

End SplitFacts.

(** ** The context of a query *)

Module ContextFacts.
Import PyStr DataManager StrFacts MoreNotions SplitFacts.

Lemma has_char_app (c : ascii) (a b : string) :
  has_char c (a ++ b) = has_char c a || has_char c b.
Proof. induction a as [|x a IH]; simpl; [reflexivity|]. now rewrite IH, orb_assoc. Qed.

(** X6: the context is the task and the category joined by a slash.
    When neither holds a slash, [find_files] takes it apart again: for
    an Asset the query asks for the entity type and for the task in the
    code, together with the abbreviation of the category when it has
    one.  A context with no slash, or with more than one, is not taken
    apart and adds no filter to the two base filters, whatever the entity
    type. *)
Theorem context_round_trip (dm : ShotgunDataManager) :
  (forall t c,
      has_char "/" t = false -> has_char "/" c = false ->
      version_filters dm (t ++ "/" ++ c) "Asset"
      = [ProjectIs (HAL_PROJECT_SGID dm); PathIsNotNone; EntityTypeIs "Asset"]
          ++ (if is_empty (_get_category_abbreviation c)
              then [CodeContains t]
              else [AndGroup [CodeContains (_get_category_abbreviation c);
                              CodeContains t]]))
  /\ (forall ctx etype,
         count_char "/" ctx <> 1 ->
         version_filters dm ctx etype
         = [ProjectIs (HAL_PROJECT_SGID dm); PathIsNotNone]).
Proof.
  split.
  - intros t c Ht Hc. unfold version_filters, context_filters.
    assert (Hne : is_empty (t ++ "/" ++ c) = false) by now destruct t.
    rewrite Hne. cbn [orb is_empty].
    change ((t ++ "/" ++ c)%string) with ((t ++ String "/" c)%string).
    rewrite split_app_sep, (split_no_sep _ _ Ht), (split_no_sep _ _ Hc).
    cbn [app]. change ("Asset" =? "Asset")%string with true. cbv iota.
    now destruct (is_empty (_get_category_abbreviation c)).
  - intros ctx etype Hn. unfold version_filters, context_filters.
    destruct (is_empty ctx || is_empty etype); [reflexivity|].
    pose proof (split_length "/" ctx) as Hl.
    destruct (split "/" ctx) as [|a [|b [|x l]]]; try reflexivity.
    simpl in Hl. congruence.
Qed.

Lemma context_round_trip_witness :
  version_filters (Scenario.manager None) ("mdl" ++ "/" ++ "props") "Asset"
  = [ProjectIs 42; PathIsNotNone; EntityTypeIs "Asset";
     AndGroup [CodeContains "prp"; CodeContains "mdl"]].
Proof.
  exact (proj1 (context_round_trip (Scenario.manager None)) "mdl" "props"
               eq_refl eq_refl).
Defined.

End ContextFacts.

(** ** Format tokens, further *)

Module TokenFacts.
Import PyStr UI StrFacts MoreNotions SplitFacts.

Lemma endswith_bgeo_sc (base ext : string) :
  has_char "." ext = false ->
  endswith ".bgeo.sc" (base ++ String "." ext) = true -> ext = "sc".
Proof.
  intros Hext H. apply ManagerFacts.endswith_iff in H as [pre H].
  apply (f_equal (fun s => last (split "." s) "")) in H.
  rewrite split_app_sep, (split_no_sep _ _ Hext), last_last in H.
  change ((pre ++ ".bgeo.sc")%string)
    with ((pre ++ String "." ("bgeo" ++ String "." "sc"))%string) in H.
  rewrite split_app_sep, (split_app_sep "." "bgeo" "sc") in H.
  rewrite !app_assoc in H. simpl (split "." "sc") in H.
  now rewrite last_last in H.
Qed.

(** X7: the format token of a path that ends in a dot and a dot-free
    extension other than sc is that extension, whatever precedes the dot;
    a path that ends in .bgeo.sc has the token bgeo.sc; and a token never
    holds a dot unless it is bgeo.sc. *)
Theorem format_token_is_last_segment :
  (forall base ext,
      has_char "." ext = false -> ext <> "sc" ->
      _get_file_format (PStr (base ++ String "." ext)) = ext)
  /\ (forall base, _get_file_format (PStr (base ++ ".bgeo.sc")) = "bgeo.sc")
  /\ (forall v, _get_file_format v = "bgeo.sc"
                \/ has_char "." (_get_file_format v) = false).
Proof.
  split; [|split].
  - intros base ext Hext Hsc. cbn [_get_file_format].
    assert (Hne : is_empty (base ++ String "." ext) = false) by now destruct base.
    rewrite Hne.
    destruct (endswith ".bgeo.sc" (base ++ String "." ext)) eqn:E.
    + now apply endswith_bgeo_sc in E.
    + rewrite ContextFacts.has_char_app. simpl (has_char "." (String "." ext)).
      rewrite orb_true_r.
      now rewrite split_app_sep, (split_no_sep _ _ Hext), last_last.
  - intros base. cbn [_get_file_format].
    assert (Hne : is_empty (base ++ ".bgeo.sc") = false) by now destruct base.
    rewrite Hne.
    assert (E : endswith ".bgeo.sc" (base ++ ".bgeo.sc") = true)
      by (apply ManagerFacts.endswith_iff; now exists base).
    now rewrite E.
  - intros v. destruct v; try (right; reflexivity).
    cbn [_get_file_format].
    destruct (is_empty s); [right; reflexivity|].
    destruct (endswith ".bgeo.sc" s); [now left|].
    destruct (has_char "." s); [|right; reflexivity].
    right. apply (split_parts_no_sep "." s). apply last_in. apply split_not_nil.
Qed.

Lemma format_token_is_last_segment_witness :
  _get_file_format (PStr ("//srv/proj.2024/propA_v003" ++ String "." "usd")) = "usd".
Proof.
  apply (proj1 format_token_is_last_segment); [reflexivity | discriminate].
Defined.

End TokenFacts.

(** ** Orders and sorting *)

Module OrderFacts.
Import PyStr UI Browser MoreNotions.

Lemma ascii_compare_lt_trans (a b c : ascii) :
  Ascii.compare a b = Lt -> Ascii.compare b c = Lt -> Ascii.compare a c = Lt.
Proof. unfold Ascii.compare. rewrite !N.compare_lt_iff. lia. Qed.

Lemma str_lt_trans (a b c : string) : str_lt a b -> str_lt b c -> str_lt a c.
Proof.
  unfold str_lt. revert b c.
  induction a as [|x a IH]; intros [|y b] [|z c]; simpl; try discriminate; auto.
  destruct (Ascii.compare x y) eqn:Exy; try discriminate.
  - apply Ascii.compare_eq_iff in Exy. subst y.
    destruct (Ascii.compare x z); try discriminate; auto. apply IH.
  - intros _. destruct (Ascii.compare y z) eqn:Eyz; try discriminate.
    + apply Ascii.compare_eq_iff in Eyz. subst z. now rewrite Exy.
    + now rewrite (ascii_compare_lt_trans _ _ _ Exy Eyz).
Qed.

Lemma compare_refl (a : string) : String.compare a a = Eq.
Proof.
  induction a as [|x a IH]; simpl; [reflexivity|].
  unfold Ascii.compare. now rewrite N.compare_refl.
Qed.

Lemma str_lt_irrefl (a : string) : ~ str_lt a a.
Proof. unfold str_lt. rewrite compare_refl. discriminate. Qed.

Lemma str_lt_flip (a b : string) : String.compare a b = Gt -> str_lt b a.
Proof.
  unfold str_lt. intros H. rewrite String.compare_antisym, H. reflexivity.
Qed.

Lemma str_le_cases (a b : string) : str_le a b <-> a = b \/ str_lt a b.
Proof.
  unfold str_le, str_lt, String.leb.
  destruct (String.compare a b) eqn:E; split; intros H; try discriminate; auto.
  - left. now apply String.compare_eq_iff.
  - destruct H as [->|H]; [|discriminate].
    rewrite compare_refl in E. discriminate.
Qed.

Lemma str_le_trans (a b c : string) : str_le a b -> str_le b c -> str_le a c.
Proof.
  rewrite !str_le_cases. intros [->|H1] [->|H2]; auto.
  right. eapply str_lt_trans; eauto.
Qed.

Lemma str_le_total (a b : string) : String.leb a b = false -> str_le b a.
Proof.
  intros H. apply str_le_cases. right. apply str_lt_flip.
  unfold String.leb in H. now destruct (String.compare a b).
Qed.

(** *** [sorted(list(set(l)))] *)

Lemma insert_sorted_sorted (x : string) (l : list string) :
  StronglySorted str_lt l -> StronglySorted str_lt (insert_sorted x l).
Proof.
  induction 1 as [|y r Hr IH Hall]; simpl.
  - constructor; constructor.
  - destruct (String.compare x y) eqn:E.
    + now constructor.
    + constructor; [now constructor|]. constructor; [exact E|].
      eapply Forall_impl; [|exact Hall]. intros z. now apply str_lt_trans.
    + constructor; [exact IH|]. apply Forall_forall. intros z Hz.
      apply CascadeFacts.insert_sorted_In in Hz as [->|Hz].
      * now apply str_lt_flip.
      * rewrite Forall_forall in Hall. now apply Hall.
Qed.

Lemma sorted_set_sorted (l : list string) : StronglySorted str_lt (sorted_set l).
Proof.
  induction l; simpl; [constructor | now apply insert_sorted_sorted].
Qed.

Lemma str_lt_sorted_nodup (l : list string) : StronglySorted str_lt l -> NoDup l.
Proof.
  induction 1 as [|y r Hr IH Hall]; constructor; auto.
  intros Hin. rewrite Forall_forall in Hall. exact (str_lt_irrefl y (Hall y Hin)).
Qed.

(** *** Stable insertion sorts *)

Section InsertBy.

Context {A : Type} (before : A -> A -> bool).

Lemma insert_by_perm (x : A) (l : list A) :
  Permutation (insert_by before x l) (x :: l).
Proof.
  induction l as [|y r IH]; simpl; [reflexivity|].
  destruct (before x y); [reflexivity|].
  rewrite IH. apply perm_swap.
Qed.

Lemma sort_by_perm (l : list A) : Permutation (sort_by before l) l.
Proof.
  induction l as [|x l IH]; simpl; [reflexivity|].
  rewrite insert_by_perm. now constructor.
Qed.

Lemma sort_by_In (x : A) (l : list A) : In x (sort_by before l) <-> In x l.
Proof.
  split; apply Permutation_in; [|symmetry]; apply sort_by_perm.
Qed.

Lemma sort_by_length (l : list A) : List.length (sort_by before l) = List.length l.
Proof. apply Permutation_length, sort_by_perm. Qed.

Lemma sort_by_id (l : list A) :
  StronglySorted (fun x y => before x y = true) l -> sort_by before l = l.
Proof.
  induction 1 as [|x r Hr IH Hall]; simpl; [reflexivity|].
  fold (sort_by before r). rewrite IH.
  destruct r as [|y r']; [reflexivity|]. simpl.
  inversion Hall; subst. now rewrite H1.
Qed.

Hypothesis before_total : forall x y, before x y = false -> before y x = true.
Hypothesis before_trans :
  forall x y z, before x y = true -> before y z = true -> before x z = true.

Lemma insert_by_sorted (x : A) (l : list A) :
  StronglySorted (fun x y => before x y = true) l ->
  StronglySorted (fun x y => before x y = true) (insert_by before x l).
Proof.
  induction 1 as [|y r Hr IH Hall]; simpl.
  - constructor; constructor.
  - destruct (before x y) eqn:E.
    + constructor; [now constructor|]. constructor; [exact E|].
      eapply Forall_impl; [|exact Hall]. intros z. now apply before_trans.
    + constructor; [exact IH|].
      apply Forall_forall. intros z Hz.
      apply (Permutation_in _ (insert_by_perm x r)) in Hz. destruct Hz as [<-|Hz].
      * now apply before_total.
      * rewrite Forall_forall in Hall. now apply Hall.
Qed.

Lemma sort_by_sorted (l : list A) :
  StronglySorted (fun x y => before x y = true) (sort_by before l).
Proof.
  induction l; simpl; [constructor | now apply insert_by_sorted].
Qed.

End InsertBy.

(** The sorts of the code are instances. *)

#[local] Abbreviation newer := (fun x y : hversion => (created_at y <=? created_at x)%Z).

Lemma sort_desc_by (l : list hversion) : sort_desc l = sort_by newer l.
Proof.
  induction l as [|x l IH]; simpl; [reflexivity|].
  fold (sort_desc l). fold (sort_by newer l). rewrite IH.
  generalize (sort_by newer l). intros m.
  induction m as [|y m IHm]; simpl; [reflexivity|]. now rewrite IHm.
Qed.

Lemma py_sorted_by (l : list string) : py_sorted l = sort_by String.leb l.
Proof.
  induction l as [|x l IH]; simpl; [reflexivity|].
  fold (py_sorted l). fold (sort_by String.leb l). rewrite IH.
  generalize (sort_by String.leb l). intros m.
  induction m as [|y m IHm]; simpl; [reflexivity|]. now rewrite IHm.
Qed.

#[local] Abbreviation by_name := (fun p q : project => String.leb (proj_name p) (proj_name q)).

Lemma sort_projects_by (l : list project) : sort_projects l = sort_by by_name l.
Proof.
  induction l as [|x l IH]; simpl; [reflexivity|].
  fold (sort_projects l). fold (sort_by by_name l). rewrite IH.
  generalize (sort_by by_name l). intros m.
  induction m as [|y m IHm]; simpl; [reflexivity|]. now rewrite IHm.
Qed.

Lemma sorted_iff {A : Type} (R S : A -> A -> Prop) (l : list A) :
  (forall x y, R x y -> S x y) -> StronglySorted R l -> StronglySorted S l.
Proof.
  intros HRS. induction 1; constructor; auto.
  eapply Forall_impl; [|eassumption]. intros z. apply HRS.
Qed.

Lemma sort_desc_perm (l : list hversion) : Permutation (sort_desc l) l.
Proof. rewrite sort_desc_by. apply sort_by_perm. Qed.

Lemma sort_desc_sorted (l : list hversion) : StronglySorted newer_first (sort_desc l).
Proof.
  rewrite sort_desc_by.
  apply (sorted_iff (fun x y => newer x y = true)).
  - intros x y H. unfold newer_first. lia.
  - apply sort_by_sorted; intros; lia.
Qed.

Lemma sort_desc_id (l : list hversion) :
  StronglySorted newer_first l -> sort_desc l = l.
Proof.
  intros H. rewrite sort_desc_by. apply sort_by_id.
  apply (sorted_iff newer_first); [|exact H].
  intros x y Hxy. unfold newer_first in Hxy. lia.
Qed.

Lemma py_sorted_perm (l : list string) : Permutation (py_sorted l) l.
Proof. rewrite py_sorted_by. apply sort_by_perm. Qed.

Lemma py_sorted_In (x : string) (l : list string) : In x (py_sorted l) <-> In x l.
Proof. rewrite py_sorted_by. apply sort_by_In. Qed.

Lemma py_sorted_sorted (l : list string) : StronglySorted str_le (py_sorted l).
Proof.
  rewrite py_sorted_by. apply sort_by_sorted.
  - apply str_le_total.
  - apply str_le_trans.
Qed.

Lemma py_sorted_nodup (l : list string) : NoDup l -> NoDup (py_sorted l).
Proof. apply Permutation_NoDup. symmetry. apply py_sorted_perm. Qed.

Lemma filter_sorted {A : Type} (R : A -> A -> Prop) (p : A -> bool) (l : list A) :
  StronglySorted R l -> StronglySorted R (filter p l).
Proof.
  induction 1 as [|x r Hr IH Hall]; simpl; [constructor|].
  destruct (p x); [|exact IH]. constructor; [exact IH|].
  apply Forall_forall. intros y Hy. apply filter_In in Hy as [Hy _].
  rewrite Forall_forall in Hall. now apply Hall.
Qed.

End OrderFacts.

(** ** The panel in every state *)

Module PanelFacts.
Import PyStr UI QComboBox ComboFacts StrFacts Notions CascadeFacts.
Import Browser MoreNotions OrderFacts.

Lemma update_dependent_nil (ui : Panel) :
  current_version_history ui = [] -> _update_dependent_filters ui = ui.
Proof. intros H. unfold _update_dependent_filters. now rewrite H. Qed.

Lemma labels_ok_displayed (ui : Panel) : labels_ok (_update_displayed_info ui).
Proof.
  unfold labels_ok. rewrite displayed_material, displayed_render.
  unfold _update_displayed_info.
  destruct (currentData (material_combo ui)); simpl; auto.
Qed.

Lemma update_dependent_labels (ui : Panel) :
  current_version_history ui <> [] -> labels_ok (_update_dependent_filters ui).
Proof.
  intros H. unfold _update_dependent_filters.
  destruct (current_version_history ui); [congruence|].
  cbv zeta. apply labels_ok_displayed.
Qed.

Lemma sub_assets_none (fmt : string) (h : list hversion) :
  Forall (fun v : hversion => asset_name v = None) h ->
  sub_assets (versions_in_format fmt h) = [].
Proof.
  intros H. unfold sub_assets, versions_in_format.
  replace (flat_map _ (filter (has_format fmt) h)) with (@nil string); [reflexivity|].
  induction H as [|v h Hv _ IH]; simpl; [reflexivity|].
  destruct (has_format fmt v); [|exact IH]. simpl. now rewrite Hv.
Qed.

Lemma has_format_first_path (fmt : string) (v : hversion) :
  has_format fmt v = true ->
  exists p, first_path_of_format fmt v = Some p
            /\ In p (sg_path_to_geometry v)
            /\ _get_file_format (PStr p) = fmt.
Proof.
  unfold has_format, first_path_of_format. intros H.
  apply existsb_exists in H as (q & Hq & Hf).
  destruct (find _ (sg_path_to_geometry v)) as [p|] eqn:E.
  - apply find_some in E as [Hin Hp]. exists p. repeat split; auto.
    now apply String.eqb_eq.
  - apply (find_none _ _ E) in Hq. congruence.
Qed.

Lemma available_has_format (f : string) (h : list hversion) :
  In f (available_formats h) <-> exists v, In v h /\ has_format f v = true.
Proof.
  unfold available_formats, has_format. rewrite in_flat_map. split.
  - intros (v & Hv & Hin). apply in_map_iff in Hin as (p & Hp & Hin).
    exists v. split; [exact Hv|]. apply existsb_exists. exists p.
    split; [exact Hin|]. now apply String.eqb_eq.
  - intros (v & Hv & Hex). apply existsb_exists in Hex as (p & Hin & Hp).
    exists v. split; [exact Hv|]. apply in_map_iff. exists p.
    split; [now apply String.eqb_eq | exact Hin].
Qed.

Lemma reloaded_formats_items (h : list hversion) (f : string) :
  map fst (items (reloaded_formats h f)) = sorted_set (available_formats h).
Proof.
  unfold reloaded_formats.
  destruct (negb (is_empty f)); [destruct (findText f _)|];
    rewrite ?setCurrentText_items; apply addItems_texts.
Qed.

Lemma fold_addItem_index {A D : Type} (f : A -> string) (g : A -> option D)
      (xs : list A) (c : QComboBox.t D) :
  items c <> [] ->
  currentIndex (fold_left (fun b x => addItem (f x) (g x) b) xs c) = currentIndex c.
Proof.
  revert c. induction xs as [|x xs IH]; intros c Hc; simpl; [reflexivity|].
  rewrite IH.
  - unfold addItem, insert_at_end. simpl. destruct (items c); [congruence|reflexivity].
  - unfold addItem, insert_at_end. simpl. destruct (items c); discriminate.
Qed.

Lemma rebuilt_material_current (fmt : string) (v : hversion) (vs : list hversion) :
  currentItem (rebuilt_material fmt (v :: vs)) = Some (display_code fmt v, Some v).
Proof.
  unfold currentItem.
  assert (Hi : currentIndex (rebuilt_material fmt (v :: vs)) = Some 0).
  { unfold rebuilt_material. simpl. now rewrite fold_addItem_index. }
  now rewrite Hi, rebuilt_material_items.
Qed.

Section WithLiteralEval.

Variable literal_eval : string -> option pyval.

#[local] Abbreviation populate := (_query_and_populate_all_filters literal_eval).
#[local] Abbreviation prepare := (prepare_history_record literal_eval).

Lemma populate_empty (ui : Panel) (w : widget) :
  _get_version_history_from_shotgun ui w = [] ->
  populate ui w = _handle_cancel_selection (with_history [] ui).
Proof. intros H. unfold _query_and_populate_all_filters. now rewrite H. Qed.

Lemma prepare_no_sub_asset (raw : list (version pyval)) :
  Forall (fun v : hversion => asset_name v = None) (map prepare raw).
Proof. apply Forall_forall. intros v Hv. apply in_map_iff in Hv as (r & <- & _). reflexivity. Qed.

(** The version box after a reload: the one [_update_dependent_filters]
    built, or the same items with the label chosen before made current. *)
Lemma populate_material (ui : Panel) (w : widget) :
  _get_version_history_from_shotgun ui w <> [] ->
  let history := map prepare (_get_version_history_from_shotgun ui w) in
  let ui1 := _update_dependent_filters
               (with_render (reloaded_formats history (currentText (render_combo ui)))
                            (with_history history ui)) in
  material_combo (populate ui w) = material_combo ui1
  \/ exists j, findText (currentText (material_combo ui)) (material_combo ui1) = Some j
               /\ material_combo (populate ui w)
                  = mk (items (material_combo ui1)) (Some j).
Proof.
  intros Hraw. cbv zeta. unfold _query_and_populate_all_filters.
  destruct (_get_version_history_from_shotgun ui w) as [|r raw] eqn:E;
    [congruence|].
  fold (reloaded_formats (map prepare (r :: raw)) (currentText (render_combo ui))).
  set (history := map prepare (r :: raw)).
  set (ui0 := with_render _ (with_history history ui)).
  destruct (is_empty (currentText (material_combo ui))); cbn [negb]; [now left|].
  destruct (findText _ (material_combo (_update_dependent_filters ui0))) as [j|] eqn:F;
    [|now left].
  right. exists j. split; [first [exact F | reflexivity]|].
  rewrite displayed_material. cbn [material_combo with_material].
  unfold setCurrentText. now rewrite F.
Qed.

Lemma populate_labels (ui : Panel) (w : widget) : labels_ok (populate ui w).
Proof.
  unfold _query_and_populate_all_filters.
  destruct (_get_version_history_from_shotgun ui w) as [|r raw].
  - apply labels_ok_displayed.
  - cbv zeta.
    destruct (negb (is_empty (currentText (material_combo ui)))).
    + destruct (findText _ _).
      * apply labels_ok_displayed.
      * apply update_dependent_labels. simpl. discriminate.
    + apply update_dependent_labels. simpl. discriminate.
Qed.

End WithLiteralEval.

Lemma update_dependent_panel (ui : Panel) :
  current_version_history ui <> [] ->
  map fst (items (render_combo ui))
  = sorted_set (available_formats (current_version_history ui)) ->
  Forall (fun v : hversion => asset_name v = None) (current_version_history ui) ->
  panel_inv (_update_dependent_filters ui).
Proof.
  intros Hh Hf Hn.
  destruct (update_dependent_shape ui Hh) as (Hr & Hhist & Ha & Hv & Hm).
  rewrite (sub_assets_none _ _ Hn) in Ha, Hv. simpl in Ha, Hv.
  assert (Hs : selected_sub_asset (_update_dependent_filters ui) = None)
    by (unfold selected_sub_asset; now rewrite Hv).
  rewrite Hs in Hm. simpl in Hm.
  constructor.
  - now rewrite Hr, Hhist.
  - now rewrite Hhist.
  - exact Hv.
  - exact Ha.
  - now rewrite Hm, Hr, Hhist, rebuilt_material_items.
  - now apply update_dependent_labels.
Qed.

Lemma cancel_panel (ui : Panel) : panel_inv (_handle_cancel_selection ui).
Proof.
  destruct (cancel_shape ui) as (Hh & Hr & Ha & Hm & Hv & _ & Hp & Hd).
  constructor.
  - now rewrite Hr, Hh.
  - rewrite Hh. constructor.
  - exact Hv.
  - exact Ha.
  - now rewrite Hm, Hr, Hh.
  - unfold labels_ok. rewrite Hm. simpl. auto.
Qed.

Lemma populate_panel (literal_eval : string -> option pyval) (ui : Panel) (w : widget) :
  panel_inv (_query_and_populate_all_filters literal_eval ui w).
Proof.
  destruct (_get_version_history_from_shotgun ui w) as [|r raw] eqn:E.
  - rewrite (populate_empty _ _ _ E). apply cancel_panel.
  - assert (Hraw : _get_version_history_from_shotgun ui w <> []) by (rewrite E; discriminate).
    destruct (populate_shape literal_eval ui w Hraw) as (Hh & Hr & Ha & Hv & Hm & _).
    set (history := map (prepare_history_record literal_eval)
                        (_get_version_history_from_shotgun ui w)) in *.
    set (ui0 := with_render (reloaded_formats history (currentText (render_combo ui)))
                            (with_history history ui)) in *.
    assert (H0 : current_version_history ui0 <> []).
    { simpl. unfold history. rewrite E. simpl. discriminate. }
    assert (H1 : panel_inv (_update_dependent_filters ui0)).
    { apply update_dependent_panel; [exact H0| |].
      - simpl. apply reloaded_formats_items.
      - simpl. apply prepare_no_sub_asset. }
    destruct (update_dependent_shape ui0 H0) as (Hr1 & Hh1 & _).
    simpl in Hr1, Hh1.
    destruct H1 as [P1 P2 P3 P4 P5 _]. rewrite Hr1, Hh1 in *.
    constructor.
    + now rewrite Hr, Hh.
    + now rewrite Hh.
    + now rewrite Hv.
    + now rewrite Ha.
    + now rewrite Hm, Hr, Hh.
    + apply populate_labels.
Qed.

Lemma no_items_no_change {D : Type} (i : nat) (c : QComboBox.t D) :
  items c = [] -> index_changes i c = false.
Proof. intros H. unfold index_changes. now rewrite H. Qed.

Lemma format_picked_panel (ui : Panel) (i : nat) :
  panel_inv ui -> panel_inv (on_format_picked i ui).
Proof.
  intros H. unfold on_format_picked.
  destruct (index_changes i (render_combo ui)) eqn:E; [|exact H].
  destruct (history_cases ui) as [Hh|Hh].
  - destruct H as [P1 _ _ _ _ _]. rewrite Hh in P1. simpl in P1.
    apply map_eq_nil in P1. rewrite (no_items_no_change _ _ P1) in E. discriminate.
  - destruct H as [P1 P2 _ _ _ _].
    apply update_dependent_panel; simpl; auto. now rewrite pick_items.
Qed.

Lemma sub_asset_picked_panel (ui : Panel) (i : nat) :
  panel_inv ui -> on_sub_asset_picked i ui = ui.
Proof.
  intros H. unfold on_sub_asset_picked.
  rewrite no_items_no_change; [reflexivity|]. now rewrite (pi_asset_box _ H).
Qed.

Lemma version_picked_panel (ui : Panel) (i : nat) :
  panel_inv ui -> panel_inv (on_version_picked i ui).
Proof.
  intros H. unfold on_version_picked.
  destruct (index_changes i (material_combo ui)); [|exact H].
  destruct H as [P1 P2 P3 P4 P5 _].
  constructor;
    rewrite ?displayed_render, ?displayed_history, ?displayed_visible,
      ?displayed_asset_filter, ?displayed_material; simpl; auto.
  - now rewrite pick_items.
  - apply labels_ok_displayed.
Qed.

Lemma reachable_panel (literal_eval : string -> option pyval) (ui : Panel) :
  reachable literal_eval ui -> panel_inv ui.
Proof.
  induction 1 as [dm tab ta ts | ui w _ _ | ui _ _ | ui i _ IH | ui i _ IH
                  | ui i _ IH | ui dm tab ta ts _ IH].
  - constructor; simpl; auto. unfold labels_ok. simpl. auto.
  - apply populate_panel.
  - apply cancel_panel.
  - now apply format_picked_panel.
  - now rewrite sub_asset_picked_panel.
  - now apply version_picked_panel.
  - destruct IH as [P1 P2 P3 P4 P5 P6]. constructor; auto.
Qed.

(** The data of the current item of the version box, in a state with
    the invariant. *)
Lemma selected_item (ui : Panel) (it : string * option hversion) :
  panel_inv ui -> currentItem (material_combo ui) = Some it ->
  exists v, it = (display_code (currentText (render_combo ui)) v, Some v)
            /\ In v (current_version_history ui)
            /\ has_format (currentText (render_combo ui)) v = true.
Proof.
  intros H Hit. apply currentItem_In in Hit.
  rewrite (pi_versions _ H) in Hit. apply in_map_iff in Hit as (v & <- & Hv).
  exists v. split; [reflexivity|].
  apply (Permutation_in _ (sort_desc_perm _)) in Hv.
  now apply filter_In in Hv.
Qed.

Lemma selected_cases (ui : Panel) :
  panel_inv ui ->
  (currentItem (material_combo ui) = None)
  \/ exists v, currentItem (material_combo ui)
               = Some (display_code (currentText (render_combo ui)) v, Some v)
               /\ In v (current_version_history ui)
               /\ has_format (currentText (render_combo ui)) v = true.
Proof.
  intros H. destruct (currentItem (material_combo ui)) as [it|] eqn:E; [|now left].
  right. destruct (selected_item ui it H E) as (v & -> & Hv). now exists v.
Qed.


Lemma update_dependent_selected (ui : Panel) :
  currently_selected_widget (_update_dependent_filters ui)
  = currently_selected_widget ui.
Proof.
  unfold _update_dependent_filters.
  destruct (current_version_history ui); [reflexivity|].
  cbv zeta. rewrite displayed_selected.
  now destruct (sub_assets _).
Qed.

(** When a record of the history carries the format of the format box,
    [_update_dependent_filters] makes the newest such record current. *)
Lemma update_dependent_selects (ui : Panel) (u : hversion) :
  Forall (fun v : hversion => asset_name v = None) (current_version_history ui) ->
  In u (current_version_history ui) ->
  has_format (currentText (render_combo ui)) u = true ->
  exists v rest,
    sort_desc (versions_in_format (currentText (render_combo ui))
                                  (current_version_history ui)) = v :: rest
    /\ currentItem (material_combo (_update_dependent_filters ui))
       = Some (display_code (currentText (render_combo ui)) v, Some v).
Proof.
  intros Hn Hu Hf.
  assert (Hh : current_version_history ui <> []) by (intros E; now rewrite E in Hu).
  destruct (update_dependent_shape ui Hh) as (_ & _ & _ & Hv & Hm).
  rewrite (sub_assets_none _ _ Hn) in Hv. simpl in Hv.
  assert (Hs : selected_sub_asset (_update_dependent_filters ui) = None)
    by (unfold selected_sub_asset; now rewrite Hv).
  rewrite Hs in Hm. simpl in Hm.
  destruct (sort_desc _) as [|v rest] eqn:E.
  - assert (Hin : In u (sort_desc (versions_in_format (currentText (render_combo ui))
                                                       (current_version_history ui)))).
    { apply (Permutation_in _ (Permutation_sym (sort_desc_perm _))).
      apply filter_In. now split. }
    now rewrite E in Hin.
  - exists v, rest. split; [reflexivity|]. rewrite Hm. apply rebuilt_material_current.
Qed.

Lemma reloaded_formats_current (h : list hversion) (cur : string) :
  available_formats h <> [] ->
  exists f d, currentItem (reloaded_formats h cur) = Some (f, d).
Proof.
  intros Hne. unfold reloaded_formats. rewrite addItems_empty.
  destruct (sorted_set (available_formats h)) as [|s l] eqn:E.
  - exfalso. destruct (available_formats h) as [|x r]; [congruence|].
    assert (Hx : In x (sorted_set (x :: r))) by (apply sorted_set_In; now left).
    now rewrite E in Hx.
  - assert (H0 : currentItem (mk (map (fun s => (s, @None unit)) (s :: l)) (Some 0))
                 = Some (s, None)) by reflexivity.
    destruct (negb (is_empty cur)); [|eauto].
    destruct (findText cur _) as [j|] eqn:F; [|eauto].
    unfold setCurrentText. rewrite F.
    apply findText_some in F as [d Hd]. exists cur, d. exact Hd.
Qed.

Lemma formats_of_prepared (literal_eval : string -> option pyval)
      (raw : list (version pyval)) (r : version pyval) :
  In r raw ->
  _flatten_and_clean_paths literal_eval (sg_path_to_geometry r) <> [] ->
  available_formats (map (prepare_history_record literal_eval) raw) <> [].
Proof.
  intros Hr Hp E.
  destruct (_flatten_and_clean_paths literal_eval (sg_path_to_geometry r))
    as [|p l] eqn:Ep; [congruence|].
  assert (Hin : In (_get_file_format (PStr p))
                   (available_formats (map (prepare_history_record literal_eval) raw))).
  { unfold available_formats. apply in_flat_map.
    exists (prepare_history_record literal_eval r). split; [now apply in_map|].
    apply in_map_iff. exists p. split; [reflexivity|].
    change (sg_path_to_geometry (prepare_history_record literal_eval r))
      with (_flatten_and_clean_paths literal_eval (sg_path_to_geometry r)).
    rewrite Ep. now left. }
  now rewrite E in Hin.
Qed.

Lemma populate_selected (literal_eval : string -> option pyval)
      (ui : Panel) (w : widget) :
  _get_version_history_from_shotgun ui w <> [] ->
  currently_selected_widget (_query_and_populate_all_filters literal_eval ui w)
  = currently_selected_widget ui.
Proof.
  intros Hraw. unfold _query_and_populate_all_filters.
  destruct (_get_version_history_from_shotgun ui w); [congruence|].
  cbv zeta.
  destruct (negb _); [destruct (findText _ _)|];
    rewrite ?displayed_selected; cbn [currently_selected_widget with_material];
    now rewrite update_dependent_selected.
Qed.

(** X8: in every state of the panel the format box offers the format
    tokens of the paths of the stored history, each one once and in
    ascending order. *)
Theorem format_box_sorted_distinct
        (literal_eval : string -> option pyval) (ui : Panel) :
  reachable literal_eval ui ->
  let texts := map fst (items (render_combo ui)) in
  StronglySorted str_lt texts
  /\ NoDup texts
  /\ forall f, In f texts <->
               exists v p, In v (current_version_history ui)
                           /\ In p (sg_path_to_geometry v)
                           /\ _get_file_format (PStr p) = f.
Proof.
  intros H. apply reachable_panel in H. cbv zeta. rewrite (pi_formats _ H).
  split; [apply sorted_set_sorted|].
  split; [apply str_lt_sorted_nodup, sorted_set_sorted|].
  intros f. rewrite sorted_set_In. unfold available_formats. rewrite in_flat_map.
  split.
  - intros (v & Hv & Hin). apply in_map_iff in Hin as (p & Hp & Hin). now exists v, p.
  - intros (v & p & Hv & Hp & Hf). exists v. split; [exact Hv|].
    apply in_map_iff. now exists p.
Qed.

(** X9: in every state of the panel the version box lists the records
    of the stored history that carry the selected format, every record
    once with itself as data, the newest first; when the history is
    already ordered newest first, as the store is asked to deliver it,
    the records keep their order. *)
Theorem version_box_newest_first
        (literal_eval : string -> option pyval) (ui : Panel) :
  reachable literal_eval ui ->
  let fmt := currentText (render_combo ui) in
  let matching := versions_in_format fmt (current_version_history ui) in
  exists recs,
    items (material_combo ui) = map (fun v => (display_code fmt v, Some v)) recs
    /\ Permutation recs matching
    /\ StronglySorted newer_first recs
    /\ (StronglySorted newer_first (current_version_history ui) -> recs = matching).
Proof.
  intros H. apply reachable_panel in H. cbv zeta.
  exists (sort_desc (versions_in_format (currentText (render_combo ui))
                                        (current_version_history ui))).
  split; [apply (pi_versions _ H)|].
  split; [apply sort_desc_perm|].
  split; [apply sort_desc_sorted|].
  intros Hs. apply sort_desc_id. now apply filter_sorted.
Qed.

(** X10: the sub-asset tier is never shown: in every state of the panel
    its box is empty and hidden, no record of the stored history names
    a sub-asset, the drag data names none, and picking an entry of the
    box changes nothing. *)
Theorem sub_asset_tier_never_shown
        (literal_eval : string -> option pyval) (ui : Panel) :
  reachable literal_eval ui ->
  asset_filter_visible ui = false
  /\ items (asset_filter_combo ui) = []
  /\ selected_sub_asset ui = None
  /\ (forall v, In v (current_version_history ui) -> asset_name v = None)
  /\ (forall HOST, asset_filter_name (update_drag_info HOST ui) = "")
  /\ (forall i, on_sub_asset_picked i ui = ui).
Proof.
  intros H. apply reachable_panel in H.
  pose proof (pi_hidden _ H) as Hv. pose proof (pi_asset_box _ H) as Ha.
  split; [exact Hv|]. split; [now rewrite Ha|].
  split; [unfold selected_sub_asset; now rewrite Hv|].
  split; [apply Forall_forall, (pi_no_sub_asset _ H)|].
  split.
  - intros HOST. unfold update_drag_info. cbn [asset_filter_name]. now rewrite Hv.
  - intros i. now apply sub_asset_picked_panel.
Qed.

(** X11: in every state of the panel the labels go with the
    selection: while no version is selected the path label reads N/A
    and the date is blank; while a version is selected the path label
    is the first path of that version whose format token is the
    selected format, and the date is the creation time of that
    version. *)
Theorem displayed_path_of_selection
        (literal_eval : string -> option pyval) (ui : Panel) :
  reachable literal_eval ui ->
  (selected_version ui = None
   /\ publish_date_label ui = None
   /\ file_path_label ui = "N/A")
  \/ (exists v,
        selected_version ui = Some v
        /\ In v (current_version_history ui)
        /\ first_path_of_format (currentText (render_combo ui)) v
           = Some (file_path_label ui)
        /\ In (file_path_label ui) (sg_path_to_geometry v)
        /\ _get_file_format (PStr (file_path_label ui)) = currentText (render_combo ui)
        /\ publish_date_label ui = Some (created_at v)).
Proof.
  intros H. apply reachable_panel in H. unfold selected_version.
  pose proof (pi_labels _ H) as Hl.
  unfold labels_ok in Hl. unfold currentData in *.
  destruct (selected_cases ui H) as [E|(v & E & Hv & Hf)]; rewrite E in *.
  - left. destruct Hl. auto.
  - right. exists v. destruct Hl as [Hp Hd].
    destruct (has_format_first_path _ _ Hf) as (p & Hfp & Hin & Hfmt).
    rewrite Hfp in Hp. rewrite Hp. auto 7.
Qed.

(** X12: a click on a card whose fetched history holds at least one
    path leaves the card selected, a format selected, a version of the
    history selected, and the first path of that version in the
    selected format shown together with its date. *)
Theorem click_selects_a_version
        (literal_eval : string -> option pyval) (ui : Panel) (w : widget) :
  (exists r, In r (_get_version_history_from_shotgun ui w)
             /\ _flatten_and_clean_paths literal_eval (sg_path_to_geometry r) <> []) ->
  let ui' := _handle_thumbnail_click literal_eval ui w in
  currently_selected_widget ui' = Some w
  /\ exists f v,
       selected_format ui' = Some f
       /\ selected_version ui' = Some v
       /\ In v (current_version_history ui')
       /\ first_path_of_format f v = Some (file_path_label ui')
       /\ publish_date_label ui' = Some (created_at v).
Proof.
  intros (r & Hr & Hpaths). cbv zeta. unfold _handle_thumbnail_click.
  set (us := with_selected (Some w) ui).
  change (_get_version_history_from_shotgun ui w)
    with (_get_version_history_from_shotgun us w) in Hr.
  assert (Hraw : _get_version_history_from_shotgun us w <> [])
    by (intros E; now rewrite E in Hr).
  destruct (populate_shape literal_eval us w Hraw) as (Hh & Hrc & _ & _ & Hm & _).
  pose proof (populate_panel literal_eval us w) as Hinv.
  pose proof (populate_labels literal_eval us w) as Hl.
  pose proof (populate_material literal_eval us w Hraw) as Hmat.
  pose proof (populate_selected literal_eval us w Hraw) as Hsel.
  cbv zeta in Hmat.
  set (ui' := _query_and_populate_all_filters literal_eval us w) in *.
  set (history := map (prepare_history_record literal_eval)
                      (_get_version_history_from_shotgun us w)) in *.
  set (cur := currentText (render_combo us)) in *.
  set (ui0 := with_render (reloaded_formats history cur)
                          (with_history history us)) in *.
  assert (Hfmts : available_formats history <> [])
    by (now apply (formats_of_prepared literal_eval _ r)).
  destruct (reloaded_formats_current history cur Hfmts) as (f & d & Hcur).
  assert (Hf : In f (available_formats history)).
  { apply (proj1 (sorted_set_In _ _)).
    rewrite <- (reloaded_formats_items history cur).
    apply currentItem_In in Hcur. exact (in_map fst _ _ Hcur). }
  assert (Hft : currentText (render_combo ui0) = f).
  { change (render_combo ui0) with (reloaded_formats history cur).
    unfold currentText. now rewrite Hcur. }
  apply available_has_format in Hf as (u & Hu & Hfu).
  destruct (update_dependent_selects ui0 u) as (v0 & rest & _ & Hit);
    [ apply prepare_no_sub_asset | exact Hu | now rewrite Hft | ].
  assert (Hsome : currentItem (material_combo ui') <> None).
  { destruct Hmat as [Hmat|(j & Hj & Hmat)]; rewrite Hmat.
    - rewrite Hit. discriminate.
    - apply findText_some in Hj as [d' Hd'].
      unfold currentItem. cbn [currentIndex items]. rewrite Hd'. discriminate. }
  split; [exact Hsel|].
  destruct (selected_cases ui' Hinv) as [E|(v & E & Hv & Hfv)]; [congruence|].
  exists f, v.
  assert (Hrt : currentText (render_combo ui') = f)
    by (rewrite Hrc; unfold currentText; now rewrite Hcur).
  rewrite Hrt in *.
  unfold selected_format, selected_version, currentData.
  rewrite Hrc, Hcur, E.
  destruct (has_format_first_path _ _ Hfv) as (p & Hfp & _ & _).
  unfold labels_ok, currentData in Hl. rewrite E, Hrt, Hfp in Hl.
  destruct Hl as [Hp Hd]. rewrite Hp, Hd. auto 6.
Qed.


Lemma index_changes_item {D : Type} (i : nat) (c : QComboBox.t D) :
  index_changes i c = true ->
  exists it, nth_error (items c) i = Some it /\ pick i c = mk (items c) (Some i).
Proof.
  unfold index_changes, pick. intros H. apply andb_prop in H as [H _].
  rewrite H. apply Nat.ltb_lt in H.
  destruct (nth_error (items c) i) as [it|] eqn:E; [now exists it|].
  apply nth_error_None in E. lia.
Qed.

(** X13: picking another entry of the format box, in any state of the
    panel, makes that format current and selects the newest record of
    the history that carries it: no record with the format was created
    later, and the label shows the first path of the selected record in
    that format. *)
Theorem format_pick_selects_newest
        (literal_eval : string -> option pyval) (ui : Panel) (i : nat) :
  reachable literal_eval ui ->
  index_changes i (render_combo ui) = true ->
  let ui' := on_format_picked i ui in
  exists f v,
    nth_error (map fst (items (render_combo ui))) i = Some f
    /\ currentText (render_combo ui') = f
    /\ selected_version ui' = Some v
    /\ In v (current_version_history ui)
    /\ has_format f v = true
    /\ (forall u, In u (current_version_history ui) -> has_format f u = true ->
                  (created_at u <= created_at v)%Z)
    /\ first_path_of_format f v = Some (file_path_label ui').
Proof.
  intros H E. apply reachable_panel in H. cbv zeta.
  unfold on_format_picked. rewrite E.
  destruct (index_changes_item _ _ E) as ([f d] & Hn & Hpick). rewrite Hpick.
  set (ui0 := with_render (mk (items (render_combo ui)) (Some i)) ui).
  assert (Hft : currentText (render_combo ui0) = f).
  { change (render_combo ui0) with (mk (items (render_combo ui)) (Some i)).
    unfold currentText, currentItem. cbn [currentIndex items]. now rewrite Hn. }
  assert (Hf : In f (available_formats (current_version_history ui))).
  { apply (proj1 (sorted_set_In _ _)). rewrite <- (pi_formats _ H).
    apply nth_error_In in Hn. exact (in_map fst _ _ Hn). }
  apply available_has_format in Hf as (u0 & Hu0 & Hfu0).
  assert (Hh : current_version_history ui0 <> []).
  { change (current_version_history ui0) with (current_version_history ui).
    intros Eh. now rewrite Eh in Hu0. }
  destruct (update_dependent_selects ui0 u0) as (v & rest & Hsort & Hit);
    [ exact (pi_no_sub_asset _ H) | exact Hu0 | now rewrite Hft | ].
  rewrite Hft in Hsort, Hit.
  change (current_version_history ui0) with (current_version_history ui) in Hsort.
  destruct (update_dependent_shape ui0 Hh) as (Hr & _).
  pose proof (update_dependent_labels ui0 Hh) as Hl.
  assert (Hv : In v (versions_in_format f (current_version_history ui))).
  { apply (Permutation_in _ (sort_desc_perm _)). rewrite Hsort. now left. }
  apply filter_In in Hv as [Hv Hfv].
  destruct (has_format_first_path _ _ Hfv) as (p & Hfp & _ & _).
  unfold labels_ok, currentData in Hl. rewrite Hit, Hr, Hft, Hfp in Hl.
  destruct Hl as [Hp _].
  exists f, v. split; [now rewrite nth_error_map, Hn|].
  split; [now rewrite Hr|].
  split; [unfold selected_version, currentData; now rewrite Hit|].
  split; [exact Hv|]. split; [exact Hfv|].
  split; [|now rewrite Hp].
  intros u Hu Hfu.
  assert (Hin : In u (sort_desc (versions_in_format f (current_version_history ui)))).
  { apply (Permutation_in _ (Permutation_sym (sort_desc_perm _))).
    apply filter_In. now split. }
  pose proof (sort_desc_sorted (versions_in_format f (current_version_history ui))) as Hs.
  rewrite Hsort in Hin, Hs. inversion Hs as [|? ? _ Hall]; subst.
  destruct Hin as [<-|Hin]; [lia|].
  rewrite Forall_forall in Hall. exact (Hall u Hin).
Qed.

(** X14: what [_handle_reference_maya] references.  In a host other
    than Maya it references nothing.  In Maya, in any state of the
    panel, it references nothing while no version is selected; and a
    path it references is a path of the selected version whose format
    token is the selected format, with the label of that version as
    namespace. *)
Theorem reference_uses_shown_path :
  (forall HOST ui, HOST <> "maya" -> _handle_reference_maya HOST ui = None)
  /\ (forall literal_eval ui,
         reachable literal_eval ui ->
         (selected_version ui = None -> _handle_reference_maya "maya" ui = None)
         /\ (forall p ns,
                _handle_reference_maya "maya" ui = Some (p, ns) ->
                exists v,
                  selected_version ui = Some v
                  /\ In v (current_version_history ui)
                  /\ In p (sg_path_to_geometry v)
                  /\ _get_file_format (PStr p) = currentText (render_combo ui)
                  /\ ns = display_code (currentText (render_combo ui)) v)).
Proof.
  split.
  - intros HOST ui Hne. unfold _handle_reference_maya.
    apply String.eqb_neq in Hne. now rewrite Hne.
  - intros literal_eval ui H. apply reachable_panel in H.
    unfold _handle_reference_maya. rewrite String.eqb_refl.
    unfold has_file_path, update_drag_info. cbn [file_path version_name].
    pose proof (pi_labels _ H) as Hl. unfold labels_ok in Hl.
    split.
    + unfold selected_version. intros Hn. rewrite Hn in Hl.
      destruct Hl as [-> _]. reflexivity.
    + intros p ns Hsome.
      destruct (negb (is_empty (file_path_label ui))
                && negb (file_path_label ui =? "N/A")%string) eqn:Eg;
        [|discriminate].
      injection Hsome as <- <-.
      apply andb_prop in Eg as [_ Ena]. apply negb_true_iff in Ena.
      apply String.eqb_neq in Ena.
      unfold selected_version, currentData, currentText in *.
      destruct (selected_cases ui H) as [E|(v & E & Hv & Hf)]; rewrite E in *.
      * now destruct Hl.
      * exists v.
        destruct (has_format_first_path _ _ Hf) as (q & Hfq & Hin & Hfmt).
        unfold currentText in Hfq, Hfmt.
        rewrite Hfq in Hl. destruct Hl as [-> _]. auto 6.
Qed.

Lemma on_entity_7_reachable : reachable Scenario.literal_eval Scenario.on_entity_7.
Proof. apply reach_click. apply reach_initial. Qed.

Lemma format_box_sorted_distinct_witness :
  reachable Scenario.literal_eval Scenario.on_entity_7
  /\ NoDup (map fst (items (render_combo Scenario.on_entity_7))).
Proof.
  split; [exact on_entity_7_reachable|].
  exact (proj1 (proj2 (format_box_sorted_distinct _ _ on_entity_7_reachable))).
Defined.

Lemma version_box_newest_first_witness :
  reachable Scenario.literal_eval Scenario.on_entity_7
  /\ exists recs,
       items (material_combo Scenario.on_entity_7)
       = map (fun v => (display_code (currentText (render_combo Scenario.on_entity_7)) v,
                        Some v)) recs
       /\ StronglySorted newer_first recs.
Proof.
  split; [exact on_entity_7_reachable|].
  destruct (version_box_newest_first _ _ on_entity_7_reachable)
    as (recs & Hi & _ & Hs & _).
  exists recs. split; [exact Hi | exact Hs].
Defined.

Lemma sub_asset_tier_never_shown_witness :
  reachable Scenario.literal_eval Scenario.on_entity_7
  /\ asset_filter_visible Scenario.on_entity_7 = false.
Proof.
  split; [exact on_entity_7_reachable|].
  exact (proj1 (sub_asset_tier_never_shown _ _ on_entity_7_reachable)).
Defined.

Lemma displayed_path_of_selection_witness :
  reachable Scenario.literal_eval Scenario.on_entity_7
  /\ ((selected_version Scenario.on_entity_7 = None
       /\ publish_date_label Scenario.on_entity_7 = None
       /\ file_path_label Scenario.on_entity_7 = "N/A")
      \/ exists v,
           selected_version Scenario.on_entity_7 = Some v
           /\ In (file_path_label Scenario.on_entity_7) (sg_path_to_geometry v)).
Proof.
  split; [exact on_entity_7_reachable|].
  destruct (displayed_path_of_selection _ _ on_entity_7_reachable)
    as [Hn|(v & Hs & _ & _ & Hin & _)]; [now left|].
  right. exists v. split; [exact Hs | exact Hin].
Defined.

Lemma click_selects_a_version_witness :
  (exists r, In r (_get_version_history_from_shotgun Scenario.start (Scenario.card 7))
             /\ _flatten_and_clean_paths Scenario.literal_eval (sg_path_to_geometry r)
                <> [])
  /\ currently_selected_widget
       (_handle_thumbnail_click Scenario.literal_eval Scenario.start (Scenario.card 7))
     = Some (Scenario.card 7).
Proof.
  assert (H : exists r,
             In r (_get_version_history_from_shotgun Scenario.start (Scenario.card 7))
             /\ _flatten_and_clean_paths Scenario.literal_eval (sg_path_to_geometry r)
                <> []).
  { exists (Scenario.raw 11 "propA_mdl_v001"
              (PList [PStr "/p/propA_v001.abc"; PStr "/p/propA_v001.usd"]) 10).
    split; [vm_compute; auto | vm_compute; discriminate]. }
  split; [exact H|].
  exact (proj1 (click_selects_a_version Scenario.literal_eval _ _ H)).
Defined.

Lemma format_pick_selects_newest_witness :
  reachable Scenario.literal_eval Scenario.on_entity_7
  /\ index_changes 1 (render_combo Scenario.on_entity_7) = true
  /\ exists f v,
       currentText (render_combo (on_format_picked 1 Scenario.on_entity_7)) = f
       /\ selected_version (on_format_picked 1 Scenario.on_entity_7) = Some v
       /\ has_format f v = true.
Proof.
  assert (E : index_changes 1 (render_combo Scenario.on_entity_7) = true)
    by (vm_compute; reflexivity).
  split; [exact on_entity_7_reachable|]. split; [exact E|].
  destruct (format_pick_selects_newest _ _ 1 on_entity_7_reachable E)
    as (f & v & _ & Hf & Hv & _ & Hh & _).
  exists f, v. split; [exact Hf|]. split; [exact Hv | exact Hh].
Defined.

Lemma reference_uses_shown_path_witness :
  reachable Scenario.literal_eval Scenario.on_entity_7
  /\ _handle_reference_maya "maya" Scenario.on_entity_7
     = Some ("/p/propA_v002.abc", "propA_mdl_v002")
  /\ exists v,
       selected_version Scenario.on_entity_7 = Some v
       /\ In "/p/propA_v002.abc" (sg_path_to_geometry v).
Proof.
  assert (E : _handle_reference_maya "maya" Scenario.on_entity_7
              = Some ("/p/propA_v002.abc", "propA_mdl_v002"))
    by (vm_compute; reflexivity).
  split; [exact on_entity_7_reachable|]. split; [exact E|].
  destruct (proj2 (proj2 reference_uses_shown_path _ _ on_entity_7_reachable) _ _ E)
    as (v & Hs & _ & Hin & _).
  exists v. split; [exact Hs | exact Hin].
Defined.

End PanelFacts.

(** ** Sticky selection *)

Module StickyFacts.
Import PyStr UI QComboBox ComboFacts StrFacts Notions CascadeFacts.
Import Browser MoreNotions OrderFacts PanelFacts.
Import Scenario.

Lemma reloaded_formats_nothing (h : list hversion) (cur : string) :
  available_formats h = [] -> reloaded_formats h cur = QComboBox.empty.
Proof.
  intros H. unfold reloaded_formats. rewrite H. simpl.
  now destruct (negb (is_empty cur)).
Qed.

Lemma rebuilt_material_first (fmt : string) (l : list hversion) :
  currentItem (rebuilt_material fmt l) = hd_error (items (rebuilt_material fmt l)).
Proof.
  destruct l as [|v l]; [reflexivity|].
  now rewrite rebuilt_material_current, rebuilt_material_items.
Qed.

(** [_update_dependent_filters] leaves the first entry of the version
    box current, whatever was selected before, and that entry is the
    newest. *)
Lemma update_dependent_first (ui : Panel) :
  current_version_history ui <> [] ->
  newest_selected (_update_dependent_filters ui).
Proof.
  intros Hh. destruct (update_dependent_shape ui Hh) as (_ & _ & _ & _ & Hm).
  unfold newest_selected. rewrite Hm. split; [apply rebuilt_material_first|].
  set (L := sort_desc _). pose proof (sort_desc_sorted
    (versions_for_selection
       (versions_in_format (currentText (render_combo ui)) (current_version_history ui))
       (selected_sub_asset (_update_dependent_filters ui)))) as Hs.
  fold L in Hs. unfold currentData. rewrite rebuilt_material_first, rebuilt_material_items.
  destruct L as [|v0 rest]; simpl; [discriminate|].
  intros v [= <-] s u [[= _ <-]|Hin]; [lia|].
  apply in_map_iff in Hin as (x & [= _ <-] & Hx).
  inversion Hs as [|? ? _ Hall]; subst. rewrite Forall_forall in Hall.
  exact (Hall _ Hx).
Qed.

Section Sticky.

Variable literal_eval : string -> option pyval.

(** C3 (as amended): on a reload of the history the format chosen
    before is selected again when the new history still offers it,
    and otherwise the first format of the sorted new set is selected;
    no format is selected only when the new history has no path at
    all.  The version label chosen before is selected again when it is
    still among the new labels; and whenever the dependent tiers are
    recomputed the sub-asset chosen before is selected again when it
    is still offered.  A recomputation by itself, and so the one a
    change of format or of sub-asset triggers, does not restore the
    version chosen before: the first entry of the version box is
    selected, and none is newer. *)
Theorem sticky_selection :
  (forall (ui : Panel) (w : widget),
      _get_version_history_from_shotgun ui w <> [] ->
      let ui' := _query_and_populate_all_filters literal_eval ui w in
      let f := currentText (render_combo ui) in
      let ver := currentText (material_combo ui) in
      let formats := available_formats (current_version_history ui') in
      (In f formats -> currentText (render_combo ui') = f)
      /\ (~ In f formats ->
          currentText (render_combo ui') = hd "" (sorted_set formats))
      /\ (formats = [] -> currentItem (render_combo ui') = None)
      /\ (formats <> [] ->
          exists g d, currentItem (render_combo ui') = Some (g, d) /\ In g formats)
      /\ (ver <> "" -> In ver (map fst (items (material_combo ui'))) ->
          currentText (material_combo ui') = ver))
  /\ (forall ui : Panel,
         current_version_history ui <> [] ->
         let ui' := _update_dependent_filters ui in
         let prev := currentText (asset_filter_combo ui) in
         (In prev (map fst (items (asset_filter_combo ui'))) ->
          currentText (asset_filter_combo ui') = prev)
         /\ newest_selected ui')
  /\ (forall (ui : Panel) (i : nat),
         index_changes i (render_combo ui) = true ->
         current_version_history ui <> [] ->
         newest_selected (on_format_picked i ui))
  /\ (forall (ui : Panel) (i : nat),
         index_changes i (asset_filter_combo ui) = true ->
         current_version_history ui <> [] ->
         newest_selected (on_sub_asset_picked i ui)).
Proof.
  split; [|split; [|split]].
  - intros ui w Hraw. cbv zeta.
    destruct (populate_shape literal_eval ui w Hraw)
      as (Hh & Hr & _ & _ & Hi & Hv).
    rewrite Hh, Hr.
    set (history := map (prepare_history_record literal_eval)
                        (_get_version_history_from_shotgun ui w)) in *.
    destruct (reloaded_formats_text history (currentText (render_combo ui)))
      as [Hin Hout].
    split; [exact Hin | split; [exact Hout|]].
    split; [intros E; now rewrite reloaded_formats_nothing|].
    split.
    + intros Hne.
      destruct (reloaded_formats_current history (currentText (render_combo ui)) Hne)
        as (g & d & Hg).
      exists g, d. split; [exact Hg|].
      apply (proj1 (sorted_set_In _ _)).
      rewrite <- (reloaded_formats_items history (currentText (render_combo ui))).
      apply currentItem_In in Hg. exact (in_map fst _ _ Hg).
    + intros Hne Hin'. apply Hv; [assumption|]. now rewrite <- Hi.
  - intros ui Hh. cbv zeta. split; [|now apply update_dependent_first].
    destruct (update_dependent_shape ui Hh) as (_ & _ & Ha & _).
    rewrite Ha. apply rebuilt_asset_filter_sticky.
  - intros ui i E Hh. unfold on_format_picked. rewrite E.
    now apply update_dependent_first.
  - intros ui i E Hh. unfold on_sub_asset_picked. rewrite E.
    now apply update_dependent_first.
Qed.

End Sticky.

Lemma sticky_selection_witness :
  let ui := on_version_picked 1 on_entity_7 in
  let ui' := _query_and_populate_all_filters literal_eval ui (card 7) in
  _get_version_history_from_shotgun ui (card 7) <> []
  /\ In (currentText (render_combo ui))
        (available_formats (current_version_history ui'))
  /\ currentText (render_combo ui') = currentText (render_combo ui)
  /\ currentText (material_combo ui) <> ""
  /\ In (currentText (material_combo ui)) (map fst (items (material_combo ui')))
  /\ currentText (material_combo ui') = currentText (material_combo ui).
Proof.
  cbv zeta.
  assert (Hraw : _get_version_history_from_shotgun
                   (on_version_picked 1 on_entity_7) (card 7) <> [])
    by (vm_compute; discriminate).
  assert (Hfmt : In (currentText (render_combo (on_version_picked 1 on_entity_7)))
                    (available_formats
                       (current_version_history
                          (_query_and_populate_all_filters
                             literal_eval (on_version_picked 1 on_entity_7)
                             (card 7)))))
    by (vm_compute; tauto).
  assert (Hne : currentText (material_combo (on_version_picked 1 on_entity_7)) <> "")
    by (vm_compute; discriminate).
  assert (Hver : In (currentText (material_combo (on_version_picked 1 on_entity_7)))
                    (map fst (items (material_combo
                       (_query_and_populate_all_filters
                          literal_eval (on_version_picked 1 on_entity_7)
                          (card 7))))))
    by (vm_compute; tauto).
  destruct (proj1 (sticky_selection literal_eval)
                  (on_version_picked 1 on_entity_7) (card 7) Hraw)
    as (Hf & _ & _ & _ & Hv).
  split; [exact Hraw|]. split; [exact Hfmt|]. split; [exact (Hf Hfmt)|].
  split; [exact Hne|]. split; [exact Hver|]. exact (Hv Hne Hver).
Defined.

Example reload_keeps_choice :
  let ui' := _query_and_populate_all_filters
               literal_eval (on_version_picked 1 on_entity_7) (card 7) in
  currentText (render_combo ui') = "abc"
  /\ currentText (material_combo ui') = "propA_mdl_v001".
Proof. vm_compute. split; reflexivity. Qed.

(** C3 (as stated) fails twice.  A reload whose history has no abc
    path does not reset the format to none: the first format of the new
    set, usd, is selected.  And a change of format recomputes the
    version tier without restoring the version chosen before, although
    it is still offered: the newest version is selected. *)
Lemma sticky_selection_counterexample :
  (let ui' := _handle_thumbnail_click literal_eval on_entity_7 (card 8) in
   currentText (render_combo on_entity_7) = "abc"
   /\ ~ In "abc" (available_formats (current_version_history ui'))
   /\ currentText (render_combo ui') = "usd"
   /\ currentItem (render_combo ui') <> None)
  /\ (let ui := on_version_picked 1 on_entity_7 in
      let ui' := on_format_picked 1 ui in
      currentText (material_combo ui) = "propA_mdl_v001"
      /\ currentText (render_combo ui') = "usd"
      /\ In "propA_mdl_v001" (map fst (items (material_combo ui')))
      /\ currentText (material_combo ui') = "propA_mdl_v002"
      /\ currentText (material_combo ui') <> currentText (material_combo ui)).
Proof.
  split; cbv zeta.
  - split; [vm_compute; reflexivity|].
    split; [vm_compute; intuition discriminate|].
    split; [vm_compute; reflexivity|]. vm_compute. discriminate.
  - split; [vm_compute; reflexivity|]. split; [vm_compute; reflexivity|].
    split; [vm_compute; tauto|]. split; [vm_compute; reflexivity|].
    vm_compute. discriminate.
Qed.

End StickyFacts.

(** ** The gallery filters and the shot boxes *)

Module BrowserFacts.
Import PyStr UI QComboBox ComboFacts StrFacts Browser MoreNotions OrderFacts.







Lemma replace_first_eq (old new s : string) :
  replace_first old new s
  = if startswith old s then (new ++ DataManager.drop (String.length old) s)%string
    else match s with
         | EmptyString => EmptyString
         | String c r => String c (replace_first old new r)
         end.
Proof. now destruct s. Qed.

Lemma drop_app (a b : string) : DataManager.drop (String.length a) (a ++ b) = b.
Proof. induction a as [|c a IH]; simpl; [now destruct b | exact IH]. Qed.

Lemma append_longer (a b : string) : a <> "" -> (a ++ b)%string <> b.
Proof.
  intros Ha E. apply (f_equal String.length) in E. rewrite append_length in E.
  destruct a; [congruence|]. simpl in E. lia.
Qed.

(** X16: the shot box.  After [_on_sequence_changed] its first entry is
    All, which is current, followed by the display names of the shots
    of the sequence in ascending order.  The display name of a shot
    whose code starts with the sequence and an underscore is the code
    without that prefix, so that the name [_handle_refresh] rebuilds
    from the sequence and the entry is the code again; the display name
    of any other shot is its code, and then the rebuilt name is not the
    code. *)
Theorem shot_box_round_trip :
  (forall seq s,
      startswith (seq ++ "_") s = true ->
      (seq ++ "_" ++ shot_display seq s)%string = s)
  /\ (forall seq s,
         startswith (seq ++ "_") s = false ->
         shot_display seq s = s /\ (seq ++ "_" ++ shot_display seq s)%string <> s)
  /\ (forall data seq box,
         let box' := _on_sequence_changed data seq box in
         let shots := match smap_get seq data with Some l => l | None => [] end in
         currentText box' = "All"
         /\ exists shown,
              map fst (items box') = "All" :: shown
              /\ StronglySorted str_le shown
              /\ Permutation shown (map (shot_display seq) shots)).
Proof.
  split; [|split].
  - intros seq s H. unfold shot_display. rewrite H, replace_first_eq, H.
    apply startswith_iff in H as [post ->]. rewrite drop_app. simpl.
    now rewrite append_assoc.
  - intros seq s H. unfold shot_display. rewrite H. split; [reflexivity|].
    rewrite <- append_assoc. apply append_longer. now destruct seq.
  - intros data seq box. cbv zeta. unfold _on_sequence_changed.
    set (shown := py_sorted _).
    assert (Hbox : addItems shown (addItem "All" None (clear box))
                   = mk (("All", None) :: map (fun s => (s, @None unit)) shown)
                        (Some 0)).
    { unfold addItems, addItem, insert_at_end, clear. simpl.
      destruct shown; reflexivity. }
    rewrite Hbox. split; [reflexivity|].
    exists shown. split.
    + simpl. f_equal. rewrite map_map. simpl. apply map_id.
    + split; [apply py_sorted_sorted | apply py_sorted_perm].
Qed.

Lemma shot_box_round_trip_witness :
  startswith ("SEQ01" ++ "_") "SEQ01_sh010" = true
  /\ ("SEQ01" ++ "_" ++ shot_display "SEQ01" "SEQ01_sh010")%string = "SEQ01_sh010".
Proof.
  assert (H : startswith ("SEQ01" ++ "_") "SEQ01_sh010" = true) by reflexivity.
  split; [exact H|].
  exact (proj1 shot_box_round_trip "SEQ01" "SEQ01_sh010" H).
Defined.

End BrowserFacts.

(** ** Sequences and shots *)

Module ShotFacts.
Import PyStr UI QComboBox StrFacts Browser MoreNotions OrderFacts.

Lemma smap_get_set (k k' : string) (v : list string) (m : smap) :
  smap_get k' (smap_set k v m)
  = if (k' =? k)%string then Some v else smap_get k' m.
Proof.
  induction m as [|[k0 v0] m IH]; simpl.
  - reflexivity.
  - destruct (k =? k0)%string eqn:E; simpl.
    + apply String.eqb_eq in E. subst k0. now destruct (k' =? k)%string.
    + destruct (k' =? k0)%string eqn:E2; [|exact IH].
      apply String.eqb_eq in E2. subst k0.
      rewrite String.eqb_sym in E. now rewrite E.
Qed.

Lemma smap_get_in (k : string) (m : smap) :
  In k (map fst m) <-> exists l, smap_get k m = Some l.
Proof.
  induction m as [|[k0 v0] m IH]; simpl.
  - split; [tauto | intros [l H]; discriminate].
  - destruct (k =? k0)%string eqn:E.
    + apply String.eqb_eq in E. split; eauto.
    + apply String.eqb_neq in E. rewrite <- IH. split; [intros [H|H]|]; auto.
      congruence.
Qed.

Lemma smap_get_none (k : string) (m : smap) :
  ~ In k (map fst m) -> smap_get k m = None.
Proof.
  intros H. destruct (smap_get k m) as [l|] eqn:E; [|reflexivity].
  exfalso. apply H, smap_get_in. eauto.
Qed.

Lemma smap_set_keys (k : string) (v : list string) (m : smap) :
  (In k (map fst m) -> map fst (smap_set k v m) = map fst m)
  /\ (~ In k (map fst m) -> map fst (smap_set k v m) = map fst m ++ [k]).
Proof.
  induction m as [|[k0 v0] m [IH1 IH2]]; simpl.
  - split; [tauto | reflexivity].
  - destruct (k =? k0)%string eqn:E; simpl.
    + apply String.eqb_eq in E. subst k0. split; [reflexivity | tauto].
    + apply String.eqb_neq in E. split; intros H; f_equal.
      * apply IH1. destruct H; congruence.
      * apply IH2. tauto.
Qed.

Lemma smap_set_nodup (k : string) (v : list string) (m : smap) :
  NoDup (map fst m) -> NoDup (map fst (smap_set k v m)).
Proof.
  intros H. destruct (in_dec string_dec k (map fst m)) as [Hin|Hin].
  - now rewrite (proj1 (smap_set_keys k v m) Hin).
  - rewrite (proj2 (smap_set_keys k v m) Hin).
    apply (Permutation_NoDup (l := k :: map fst m)).
    + rewrite Permutation_app_comm. reflexivity.
    + now constructor.
Qed.

Lemma smap_set_in (k k' : string) (v : list string) (m : smap) :
  In k' (map fst (smap_set k v m)) <-> k' = k \/ In k' (map fst m).
Proof.
  rewrite !smap_get_in. setoid_rewrite smap_get_set.
  destruct (k' =? k)%string eqn:E.
  - apply String.eqb_eq in E. split; eauto.
  - apply String.eqb_neq in E. split; [auto | intros [H|H]]; [congruence | exact H].
Qed.

(** The dict of the sequences: one key for every code, every value
    empty. *)
Lemma smap_init_from (seqs : list sequence_row) (m : smap) :
  NoDup (map fst m) ->
  (forall k l, smap_get k m = Some l -> l = []) ->
  let m' := fold_left (fun m q => smap_set (sq_code q) [] m) seqs m in
  NoDup (map fst m')
  /\ (forall k, In k (map fst m') <-> In k (map fst m) \/ In k (map sq_code seqs))
  /\ (forall k l, smap_get k m' = Some l -> l = []).
Proof.
  revert m. induction seqs as [|q seqs IH]; intros m Hn Hv; simpl.
  - repeat split; auto. tauto.
  - destruct (IH (smap_set (sq_code q) [] m)) as (H1 & H2 & H3).
    + now apply smap_set_nodup.
    + intros k l. rewrite smap_get_set.
      destruct (k =? sq_code q)%string; [congruence | apply Hv].
    + split; [exact H1|]. split; [|exact H3].
      intros k. rewrite H2, smap_set_in. intuition congruence.
Qed.

Lemma smap_init_spec (seqs : list sequence_row) :
  NoDup (map fst (smap_init seqs))
  /\ (forall k, In k (map fst (smap_init seqs)) <-> In k (map sq_code seqs))
  /\ (forall k l, smap_get k (smap_init seqs) = Some l -> l = []).
Proof.
  destruct (smap_init_from seqs []) as (H1 & H2 & H3).
  - constructor.
  - discriminate.
  - split; [exact H1|]. split; [|exact H3].
    intros k. rewrite (H2 k). simpl. tauto.
Qed.

Lemma shots_of_cons (k : string) (s : shot_row) (r : list shot_row) :
  shots_of k (s :: r)
  = if in_sequence k s then sh_code s :: shots_of k r else shots_of k r.
Proof. unfold shots_of. simpl. now destruct (in_sequence k s). Qed.

(** The loop over the shots: the keys stay, and every value gains the
    codes of the shots of its key, in the order of the query. *)
Lemma add_shots_spec (shots : list shot_row) (m m' : smap) :
  add_shots m shots = Some m' ->
  map fst m' = map fst m
  /\ forall k, smap_get k m'
               = option_map (fun l => l ++ shots_of k shots) (smap_get k m).
Proof.
  revert m. induction shots as [|s r IH]; intros m H; simpl in H.
  - injection H as <-. split; [reflexivity|]. intros k.
    destruct (smap_get k m); simpl; [now rewrite app_nil_r | reflexivity].
  - unfold add_shot in H. destruct (sh_sequence s) as [sn|] eqn:Es; [|discriminate].
    destruct (smap_get sn m) as [l|] eqn:Eg.
    + destruct (IH _ H) as [Hk Hv]. split.
      * rewrite Hk. apply smap_set_keys, smap_get_in. eauto.
      * intros k. rewrite Hv, smap_get_set, shots_of_cons.
        unfold in_sequence. rewrite Es, (String.eqb_sym sn k).
        destruct (String.eqb_spec k sn) as [->|Hne]; [|reflexivity].
        rewrite Eg. simpl. now rewrite <- app_assoc.
    + destruct (IH _ H) as [Hk Hv]. split; [exact Hk|].
      intros k. rewrite Hv, shots_of_cons. unfold in_sequence. rewrite Es.
      destruct (sn =? k)%string eqn:E; [|reflexivity].
      apply String.eqb_eq in E. subst k. now rewrite Eg.
Qed.

Lemma add_shots_total (shots : list shot_row) (m : smap) :
  Forall (fun s => sh_sequence s <> None) shots ->
  exists m', add_shots m shots = Some m'.
Proof.
  intros H. revert m. induction H as [|s r Hs _ IH]; intros m; simpl; [eauto|].
  unfold add_shot. destruct (sh_sequence s); [|congruence].
  destruct (smap_get _ m); apply IH.
Qed.

Lemma add_shots_raises (shots : list shot_row) (m : smap) :
  Exists (fun s => sh_sequence s = None) shots -> add_shots m shots = None.
Proof.
  intros H. revert m. induction H as [s r Hs|s r _ IH]; intros m; simpl.
  - unfold add_shot. now rewrite Hs.
  - destruct (add_shot m s); [apply IH | reflexivity].
Qed.

Lemma le_sorted_nodup_lt (l : list string) :
  StronglySorted str_le l -> NoDup l -> StronglySorted str_lt l.
Proof.
  induction 1 as [|x r Hr IH Hall]; intros Hn; constructor.
  - apply IH. now inversion Hn.
  - inversion Hn; subst. apply Forall_forall. intros y Hy.
    rewrite Forall_forall in Hall.
    destruct (proj1 (str_le_cases x y) (Hall y Hy)) as [->|Hlt];
      [contradiction | exact Hlt].
Qed.

Lemma fold_set_get (l m : smap) (k : string) :
  NoDup (map fst l) ->
  smap_get k (fold_left (fun m kv => smap_set (fst kv) (snd kv) m) l m)
  = match smap_get k l with
    | Some v => Some v
    | None => smap_get k m
    end.
Proof.
  revert m. induction l as [|[k0 v0] l IH]; intros m Hn; simpl; [reflexivity|].
  inversion Hn; subst. rewrite IH by assumption. rewrite smap_get_set.
  destruct (k =? k0)%string eqn:E; [|reflexivity].
  apply String.eqb_eq in E. subst k0. now rewrite smap_get_none.
Qed.

Lemma combine_keys {B : Type} (keys : list string) (f : string -> B) :
  map fst (combine keys (map f keys)) = keys.
Proof. induction keys; simpl; congruence. Qed.

Lemma get_combine (keys : list string) (f : string -> list string) (k : string) :
  (In k keys -> smap_get k (combine keys (map f keys)) = Some (f k))
  /\ (~ In k keys -> smap_get k (combine keys (map f keys)) = None).
Proof.
  induction keys as [|k0 keys [IH1 IH2]]; simpl.
  - split; [tauto | reflexivity].
  - destruct (k =? k0)%string eqn:E.
    + apply String.eqb_eq in E. subst k0. split; [reflexivity | tauto].
    + apply String.eqb_neq in E. split; intros H.
      * apply IH1. destruct H; congruence.
      * apply IH2. tauto.
Qed.

(** X17: sequences and their shots.  The sequence names come out in
    strictly ascending order, with one list of shots for each.  When
    both queries answer and every shot names its sequence, the names
    are the codes of the sequences of the project, and [shots_data]
    maps each of them to the codes of the shots filed under it, in
    ascending order, and holds no other key.  When the session is
    missing, the project is not set, a query raises or a shot names no
    sequence, both lists are empty. *)
Theorem shots_grouped_by_sequence (sg : option shot_queries) (pid : Z) :
  let keys := fst (_get_sequences_and_shots_from_sg sg pid) in
  let lists := snd (_get_sequences_and_shots_from_sg sg pid) in
  StronglySorted str_lt keys
  /\ List.length lists = List.length keys
  /\ (forall h seqs shots,
         sg = Some h -> pid <> 0%Z ->
         find_sequences h pid = Some seqs ->
         find_shots h pid (map sq_id seqs) = Some shots ->
         (Forall (fun s => sh_sequence s <> None) shots ->
          (forall k, In k keys <-> In k (map sq_code seqs))
          /\ (forall k, In k keys ->
                        smap_get k (shots_data sg pid)
                        = Some (py_sorted (shots_of k shots)))
          /\ (forall k, ~ In k keys -> smap_get k (shots_data sg pid) = None))
         /\ (Exists (fun s => sh_sequence s = None) shots ->
             keys = [] /\ lists = []))
  /\ (sg = None \/ pid = 0%Z
      \/ (exists h, sg = Some h
                    /\ (find_sequences h pid = None
                        \/ exists seqs, find_sequences h pid = Some seqs
                                        /\ find_shots h pid (map sq_id seqs) = None)) ->
      keys = [] /\ lists = []).
Proof.
  cbv zeta. unfold shots_data.
  split; [|split; [|split]].
  - unfold _get_sequences_and_shots_from_sg.
    destruct sg as [h|]; [|constructor].
    destruct (pid =? 0)%Z; [constructor|].
    destruct (find_sequences h pid) as [seqs|]; [|constructor].
    destruct (find_shots h pid _) as [shots|]; [|constructor].
    destruct (add_shots _ shots) as [m'|] eqn:E; [|constructor].
    cbn [fst]. destruct (add_shots_spec _ _ _ E) as [Hk _].
    apply le_sorted_nodup_lt; [apply py_sorted_sorted|].
    apply py_sorted_nodup. rewrite Hk. apply smap_init_spec.
  - unfold _get_sequences_and_shots_from_sg.
    destruct sg as [h|]; [|reflexivity].
    destruct (pid =? 0)%Z; [reflexivity|].
    destruct (find_sequences h pid) as [seqs|]; [|reflexivity].
    destruct (find_shots h pid _) as [shots|]; [|reflexivity].
    destruct (add_shots _ shots) as [m'|]; [|reflexivity].
    cbn [fst snd]. apply length_map.
  - intros h seqs shots -> Hpid Hseqs Hshots.
    unfold _get_sequences_and_shots_from_sg.
    apply Z.eqb_neq in Hpid. rewrite Hpid, Hseqs, Hshots.
    split.
    + intros Hall. destruct (add_shots_total shots (smap_init seqs) Hall) as [m' E].
      rewrite E. cbn [fst snd].
      destruct (add_shots_spec _ _ _ E) as [Hk Hv].
      destruct (smap_init_spec seqs) as (Hn & Hin & Hnil).
      assert (Hkeys : forall k, In k (py_sorted (map fst m')) <-> In k (map sq_code seqs)).
      { intros k. now rewrite py_sorted_In, Hk, Hin. }
      assert (Hnd : NoDup (py_sorted (map fst m'))).
      { apply py_sorted_nodup. now rewrite Hk. }
      split; [exact Hkeys|].
      unfold zip_dict.
      set (f := fun k => py_sorted (match smap_get k m' with
                                    | Some l => l
                                    | None => []
                                    end)).
      split; intros k Hkk.
      * rewrite fold_set_get by (now rewrite combine_keys).
        rewrite (proj1 (get_combine _ f k) Hkk). unfold f.
        rewrite Hv.
        assert (Hi : In k (map fst (smap_init seqs))) by (apply Hin, Hkeys, Hkk).
        apply smap_get_in in Hi as [l Hl]. rewrite Hl. simpl.
        now rewrite (Hnil _ _ Hl).
      * rewrite fold_set_get by (now rewrite combine_keys).
        now rewrite (proj2 (get_combine _ f k) Hkk).
    + intros Hex. now rewrite (add_shots_raises _ _ Hex).
  - unfold _get_sequences_and_shots_from_sg.
    intros [->|[->|(h & -> & [H|(seqs & H1 & H2)])]]; auto.
    + now destruct sg.
    + destruct (pid =? 0)%Z; [auto|]. now rewrite H.
    + destruct (pid =? 0)%Z; [auto|]. now rewrite H1, H2.
Qed.

Lemma shots_grouped_by_sequence_witness :
  smap_get "SEQ01" (shots_data (Some demo_queries) 42)
  = Some (py_sorted (shots_of "SEQ01"
                              [mkShotRow "SEQ01_sh020" (Some "SEQ01");
                               mkShotRow "SEQ02_sh010" (Some "SEQ02");
                               mkShotRow "SEQ01_sh010" (Some "SEQ01")])).
Proof.
  assert (Hpid : 42%Z <> 0%Z) by discriminate.
  assert (Hall : Forall (fun s => sh_sequence s <> None)
                        [mkShotRow "SEQ01_sh020" (Some "SEQ01");
                         mkShotRow "SEQ02_sh010" (Some "SEQ02");
                         mkShotRow "SEQ01_sh010" (Some "SEQ01")])
    by (repeat constructor; discriminate).
  assert (Hin : In "SEQ01" (fst (_get_sequences_and_shots_from_sg (Some demo_queries) 42)))
    by (vm_compute; auto).
  exact (proj1 (proj2 (proj1 (proj1 (proj2 (proj2 (shots_grouped_by_sequence
           (Some demo_queries) 42))) demo_queries _ _ eq_refl Hpid eq_refl eq_refl)
           Hall)) "SEQ01" Hin).
Defined.

End ShotFacts.

(** ** The command handed to MEL *)

Module ScriptFacts.
Import PyStr StrFacts Browser MoreNotions.

Lemma replace_char_app (c : ascii) (new a b : string) :
  replace_char c new (a ++ b)
  = (replace_char c new a ++ replace_char c new b)%string.
Proof.
  induction a as [|d a IH]; simpl; [reflexivity|].
  destruct (d =? c)%char; rewrite IH; [now rewrite append_assoc | reflexivity].
Qed.

Lemma escape_for_mel_cons (c : ascii) (r : string) :
  escape_for_mel (String c r) = (escape_char c ++ escape_for_mel r)%string.
Proof.
  unfold escape_for_mel, escape_char. cbn [replace_char].
  destruct (Ascii.eqb_spec c backslash) as [->|H1]; [reflexivity|].
  cbn [replace_char].
  destruct (Ascii.eqb_spec c double_quote) as [->|H2]; [reflexivity|].
  cbn [replace_char].
  destruct (Ascii.eqb_spec c line_feed) as [->|H3]; reflexivity.
Qed.

Lemma unescape_escape_char (c : ascii) (r : string) :
  unescape (escape_char c ++ r) = String c (unescape r).
Proof.
  unfold escape_char.
  destruct (Ascii.eqb_spec c backslash) as [->|H1]; [reflexivity|].
  destruct (Ascii.eqb_spec c double_quote) as [->|H2]; [reflexivity|].
  destruct (Ascii.eqb_spec c line_feed) as [->|H3]; [reflexivity|].
  simpl. apply Ascii.eqb_neq in H1. now rewrite H1.
Qed.

Lemma line_feed_escape_char (c : ascii) (r : string) :
  has_char line_feed (escape_char c ++ r) = has_char line_feed r.
Proof.
  unfold escape_char.
  destruct (Ascii.eqb_spec c backslash) as [->|H1]; [reflexivity|].
  destruct (Ascii.eqb_spec c double_quote) as [->|H2]; [reflexivity|].
  destruct (Ascii.eqb_spec c line_feed) as [->|H3]; [reflexivity|].
  simpl. apply Ascii.eqb_neq in H3. now rewrite H3.
Qed.

Lemma bare_quotes_escape_char (c : ascii) (r : string) :
  bare_quotes false (escape_char c ++ r) = bare_quotes false r.
Proof.
  unfold escape_char.
  destruct (Ascii.eqb_spec c backslash) as [->|H1]; [reflexivity|].
  destruct (Ascii.eqb_spec c double_quote) as [->|H2]; [reflexivity|].
  destruct (Ascii.eqb_spec c line_feed) as [->|H3]; [reflexivity|].
  simpl. apply Ascii.eqb_neq in H1, H2. now rewrite H1, H2.
Qed.

(** X18: the text [generate_maya_drop_script] puts between the quotes
    of the MEL command.  It holds no line feed and no double quote
    that a backslash does not escape, and it ends outside an escape, so
    the command is one line and its string ends at the closing quote;
    and reading the escapes gives back the code. *)
Theorem mel_escape_round_trip (clean_code : string) :
  unescape (escape_for_mel clean_code) = clean_code
  /\ has_char line_feed (escape_for_mel clean_code) = false
  /\ bare_quotes false (escape_for_mel clean_code ++ String double_quote ");") = 1.
Proof.
  split; [|split].
  - induction clean_code as [|c s IH]; [reflexivity|].
    now rewrite escape_for_mel_cons, unescape_escape_char, IH.
  - induction clean_code as [|c s IH]; [reflexivity|].
    now rewrite escape_for_mel_cons, line_feed_escape_char.
  - induction clean_code as [|c s IH]; [reflexivity|].
    now rewrite escape_for_mel_cons, append_assoc, bare_quotes_escape_char.
Qed.

End ScriptFacts.

(** ** The project boxes and the gallery *)

Module RefreshFacts.
Import PyStr DataManager UI QComboBox StrFacts Browser Notions MoreNotions OrderFacts.

Lemma index_of_some (x : string) (l : list string) (i : nat) :
  index_of x l = Some i ->
  nth_error l i = Some x /\ forall j, j < i -> nth_error l j <> Some x.
Proof.
  revert i. induction l as [|y l IH]; intros i; simpl; [discriminate|].
  destruct (String.eqb_spec y x) as [->|Hne].
  - intros [= <-]. split; [reflexivity | intros j Hj; lia].
  - destruct (index_of x l) as [k|]; [|discriminate].
    intros [= <-]. destruct (IH k eq_refl) as [H1 H2]. split; [exact H1|].
    intros [|j] Hj; simpl; [congruence | apply H2; lia].
Qed.

Lemma index_of_none (x : string) (l : list string) :
  index_of x l = None <-> ~ In x l.
Proof.
  induction l as [|y l IH]; simpl; [tauto|].
  destruct (String.eqb_spec y x) as [->|Hne].
  - split; [discriminate | tauto].
  - destruct (index_of x l) as [k|].
    + split; [discriminate|]. intros H. exfalso. apply H. right.
      destruct IH as [_ IH]. destruct (in_dec string_dec x l) as [Hin|Hin];
        [exact Hin | now apply IH in Hin].
    + split; [|reflexivity]. intros _ [H|H]; [congruence | now apply IH].
Qed.

Lemma sorted_map {A B : Type} (f : A -> B) (R : B -> B -> Prop) (l : list A) :
  StronglySorted (fun x y => R (f x) (f y)) l -> StronglySorted R (map f l).
Proof.
  induction 1 as [|x r Hr IH Hall]; simpl; constructor; [exact IH|].
  apply Forall_forall. intros y Hy. apply in_map_iff in Hy as (z & <- & Hz).
  rewrite Forall_forall in Hall. now apply Hall.
Qed.

(** X19: the project boxes.  They list the active projects the store
    answers with, all of them and no other, by ascending name; the
    project named by the environment is made current, at its first
    place in the list, when it is among them, and the first project
    otherwise; and when the session is missing or the query raises the
    boxes are empty. *)
Theorem projects_sorted_and_preselected (dm : ShotgunDataManager) (env_p : string) :
  let project_list := fst (_populate_projects dm env_p) in
  let idx := snd (_populate_projects dm env_p) in
  let p_names := map proj_name project_list in
  Permutation project_list (get_active_projects dm)
  /\ StronglySorted str_le p_names
  /\ (In env_p p_names ->
      nth_error p_names idx = Some env_p
      /\ forall j, j < idx -> nth_error p_names j <> Some env_p)
  /\ (~ In env_p p_names -> idx = 0)
  /\ (sg dm = None \/ (exists h, sg dm = Some h /\ find_projects h = None) ->
      project_list = []).
Proof.
  cbv zeta. unfold _populate_projects. cbn [fst snd].
  split; [rewrite sort_projects_by; apply sort_by_perm|].
  split.
  { apply sorted_map. rewrite sort_projects_by.
    apply (sort_by_sorted (fun p q => String.leb (proj_name p) (proj_name q))).
    - intros x y. apply str_le_total.
    - intros x y z. apply str_le_trans. }
  split; [|split].
  - intros Hin. destruct (index_of env_p _) as [i|] eqn:E.
    + now apply index_of_some.
    + apply index_of_none in E. contradiction.
  - intros Hin. apply index_of_none in Hin. now rewrite Hin.
  - unfold get_active_projects. intros [->|(h & -> & ->)]; reflexivity.
Qed.

Lemma projects_sorted_and_preselected_witness :
  In "demo" (map proj_name
                 (fst (_populate_projects (Scenario.manager (Some Scenario.studio))
                                          "demo")))
  /\ nth_error
       (map proj_name
            (fst (_populate_projects (Scenario.manager (Some Scenario.studio)) "demo")))
       (snd (_populate_projects (Scenario.manager (Some Scenario.studio)) "demo"))
     = Some "demo".
Proof.
  assert (H : In "demo"
                 (map proj_name
                      (fst (_populate_projects (Scenario.manager (Some Scenario.studio))
                                               "demo"))))
    by (vm_compute; auto).
  split; [exact H|].
  exact (proj1 (proj1 (proj2 (proj2 (projects_sorted_and_preselected
                                       (Scenario.manager (Some Scenario.studio))
                                       "demo"))) H)).
Defined.

(** Keeping some records keeps their keys distinct. *)
Lemma distinct_keys_kept {V K : Type} (key : V -> K) (keep : V -> bool)
      (records : list V) (Hkeys : NoDup (map key records)) :
  NoDup (map key (filter keep records)).
Proof.
  induction records as [|x l IH]; simpl; [constructor|].
  inversion Hkeys; subst.
  destruct (keep x); simpl; [|auto]. constructor; [|auto].
  intros Hin. apply in_map_iff in Hin as (y & Hy & Hin).
  apply filter_In in Hin as [Hin _]. apply H1. rewrite <- Hy. now apply in_map.
Qed.

Section WithLiteralEval.

Variable literal_eval : string -> option pyval.

#[local] Abbreviation flatten := (_flatten_and_clean_paths literal_eval).

Lemma flatten_fuel_trimmed (n : nat) :
  forall data l, flatten_fuel literal_eval n data = Some l -> Forall trimmed l.
Proof.
  induction n as [|k IH]; intros data l; [discriminate|].
  destruct data; simpl; try (intros [= <-]; constructor).
  - destruct (looks_like_sequence (strip s)).
    + destruct (literal_eval (strip s)); [apply IH|].
      intros [= <-]. constructor; [apply NormalizeFacts.strip_by_trimmed | constructor].
    + intros [= <-]. constructor; [apply NormalizeFacts.strip_by_trimmed | constructor].
  - revert l. induction l0 as [|x xs IHx]; intros l; simpl; [intros [= <-]; constructor|].
    destruct (flatten_fuel literal_eval k x) as [a|] eqn:Ea; [|discriminate].
    destruct (extend_all _ xs) as [b|]; [|discriminate].
    intros [= <-]. apply Forall_app. split; [now apply (IH x) | now apply IHx].
  - revert l. induction l0 as [|x xs IHx]; intros l; simpl; [intros [= <-]; constructor|].
    destruct (flatten_fuel literal_eval k x) as [a|] eqn:Ea; [|discriminate].
    destruct (extend_all _ xs) as [b|]; [|discriminate].
    intros [= <-]. apply Forall_app. split; [now apply (IH x) | now apply IHx].
Qed.

Lemma flatten_trimmed (data : pyval) : Forall trimmed (flatten data).
Proof.
  unfold _flatten_and_clean_paths, flatten_paths.
  destruct (flatten_fuel _ _ data) as [l|] eqn:E; [|constructor].
  now apply flatten_fuel_trimmed in E.
Qed.

Lemma find_files_keys_nodup (dm : ShotgunDataManager) (ctx etype : string) :
  NoDup (map version_key (find_files literal_eval dm ctx etype)).
Proof.
  unfold find_files.
  destruct (HAL_PROJECT_SGID dm =? 0)%Z; [constructor|].
  destruct (sg dm) as [h|]; [|constructor].
  destruct (find_versions h _ false) as [versions|]; [|constructor].
  cbv zeta. rewrite map_map.
  match goal with
  | |- NoDup (map _ (select_latest ?vs)) =>
      destruct (ManagerFacts.select_latest_kept vs) as (N & _)
  end.
  exact N.
Qed.

Lemma cancel_context (ui : Panel) (f : Filters) :
  refresh_context (_handle_cancel_selection ui) f = refresh_context ui f
  /\ data_manager (_handle_cancel_selection ui) = data_manager ui.
Proof.
  unfold _handle_cancel_selection, _update_displayed_info, refresh_context.
  destruct (currentData _); split; reflexivity.
Qed.

(** X20: a refresh of the gallery.  It always resets the cascade.
    While the task or the category (the sequence, on the shot tab) is
    not chosen, no card is shown and the records of the context stay
    as they were.  Otherwise the records of the context are records of
    the catalog query, with their identity, category and image: at
    most one for an entity and a category, each with its paths
    flattened and trimmed, and on the shot tab with a shot picked only
    those of the entity named by the sequence, an underscore and the
    shot; and the cards shown are those records that pass the name
    filter. *)
Theorem refresh_gallery (ui : Panel) (f : Filters) (before : list hversion) :
  let r := _handle_refresh literal_eval ui f before in
  let ctx := fst (refresh_context ui f) in
  let etype := snd (refresh_context ui f) in
  let shot_picked :=
    (top_tab_index ui =? 1)%nat && negb (is_empty (shot_combo_shots f))
    && negb (shot_combo_shots f =? "All")%string in
  panel r = _handle_cancel_selection ui
  /\ (ctx = "" -> shown r = None /\ all_versions_for_context r = before)
  /\ (ctx <> "" ->
      shown r = Some (_apply_filters (name_filter_edit f) (all_versions_for_context r))
      /\ NoDup (map version_key (all_versions_for_context r))
      /\ forall v, In v (all_versions_for_context r) ->
           Forall trimmed (sg_path_to_geometry v)
           /\ (exists raw,
                  In raw (find_files literal_eval (data_manager ui) ctx etype)
                  /\ from_store raw v
                  /\ category v = category raw /\ image v = image raw
                  /\ sg_path_to_geometry v = flatten (sg_path_to_geometry raw))
           /\ (shot_picked = true ->
               ent_name (entity v)
               = (sequence_combo_shots f ++ "_" ++ shot_combo_shots f)%string)).
Proof.
  cbv zeta. unfold _handle_refresh.
  destruct (cancel_context ui f) as [Hc Hd]. rewrite Hc, Hd.
  assert (Het : (snd (refresh_context ui f) =? "Shot")%string
                = (top_tab_index ui =? 1)%nat).
  { unfold refresh_context. now destruct (top_tab_index ui =? 1)%nat. }
  destruct (refresh_context ui f) as [ctx etype]. cbn [fst snd] in *.
  destruct (is_empty ctx) eqn:E.
  - apply is_empty_true in E. cbn [panel shown all_versions_for_context].
    split; [reflexivity|]. split; [auto|]. congruence.
  - cbn [panel shown all_versions_for_context].
    split; [reflexivity|]. split; [intros ->; discriminate|]. intros _.
    split; [reflexivity|].
    set (found := find_files literal_eval (data_manager ui) ctx etype).
    set (kept := if (etype =? "Shot")%string then _ else found).
    assert (Hk : exists p, kept = filter p found).
    { unfold kept. destruct (etype =? "Shot")%string.
      - destruct (negb _ && negb _); [eauto|].
        exists (fun _ => true). clear. induction found; simpl; congruence.
      - exists (fun _ => true). clear. induction found; simpl; congruence. }
    split.
    + rewrite map_map. destruct Hk as [p ->].
      change (fun x : version pyval =>
                version_key (set_geometry (flatten (sg_path_to_geometry x)) x))
        with (fun x : version pyval => version_key x).
      apply distinct_keys_kept, find_files_keys_nodup.
    + intros v Hv. apply in_map_iff in Hv as (raw & <- & Hraw).
      split; [apply flatten_trimmed|]. split.
      * exists raw. split.
        -- destruct Hk as [p Hp]. rewrite Hp in Hraw. now apply filter_In in Hraw.
        -- unfold from_store. cbn. auto 8.
      * intros Hs. unfold kept in Hraw. rewrite Het in Hraw.
        apply andb_prop in Hs as [Hs H3]. apply andb_prop in Hs as [H1 H2].
        rewrite H1, H2, H3 in Hraw. cbn [andb] in Hraw.
        apply filter_In in Hraw as [_ Hn]. now apply String.eqb_eq in Hn.
Qed.

End WithLiteralEval.

Lemma refresh_gallery_witness :
  fst (refresh_context Scenario.start (mkFilters "props" "" "" "")) <> ""
  /\ NoDup (map version_key
                (all_versions_for_context
                   (_handle_refresh Scenario.literal_eval Scenario.start
                                    (mkFilters "props" "" "" "") []))).
Proof.
  assert (H : fst (refresh_context Scenario.start (mkFilters "props" "" "" "")) <> "")
    by (vm_compute; discriminate).
  split; [exact H|].
  exact (proj1 (proj2 (proj2 (proj2 (refresh_gallery Scenario.literal_eval
                                       Scenario.start (mkFilters "props" "" "" "") []))
                             H))).
Defined.

End RefreshFacts.
